(** * Embed extractor of the AnimeWorldIndia scraper: model and properties

    A shallow embedding of [src/extractors/embed.extractor.js] (class
    [EmbedExtractor]) together with the properties of its episode
    identifier codec, its page parser and its fallback retrieval chain.

    Conventions of the embedding.
    - A JavaScript string is a Rocq [string] read as a sequence of code
      units below 256 (the Latin-1 range).  On that range the character
      classes of the regular expressions ([\d], [\w], [\s], [.]) and
      [toLowerCase] are written out exactly.
    - A JavaScript number is an integer-valued double ([JFin z]), an
      infinity or NaN; [parseInt] rounds to 53 significant bits the way
      the language does.
    - A value received from the network is parsed JSON or a text.  The
      conversions the code applies without saying so ([String(v)], a
      template literal, [v > 0]) are written out, with the TypeError they
      raise on an object whose own property [toString] hides the method
      it would inherit.
    - Asynchronous methods are computations in a state-and-exception
      monad.  The state records the HTTP requests sent and the log lines
      written; what a request settles to is decided by a [Network]
      oracle that sees the request and the requests sent before it. *)

From Stdlib Require Import ZArith NArith List String Ascii Bool Lia.
From Stdlib Require Import DecimalString DecimalN Sorted Permutation.
Import ListNotations.

Local Open Scope string_scope.
Local Open Scope Z_scope.

(* ================================================================== *)
(** * Characters and strings *)
(* ================================================================== *)

Module Chars.

Definition code_unit (c : ascii) : N := N_of_ascii c.

(** [\d] *)
Definition is_digit (c : ascii) : bool :=
  ((48 <=? code_unit c) && (code_unit c <=? 57))%N.

(** Line terminators, the characters [.] refuses: LF and CR
    (U+2028 and U+2029 lie outside the modelled range). *)
Definition is_line_terminator (c : ascii) : bool :=
  ((code_unit c =? 10) || (code_unit c =? 13))%N.

(** [\s], also the characters [String.prototype.trim] removes:
    TAB, LF, VT, FF, CR, SP and NBSP. *)
Definition is_space (c : ascii) : bool :=
  (((9 <=? code_unit c) && (code_unit c <=? 13)) || (code_unit c =? 32) || (code_unit c =? 160))%N.

Definition is_lower (c : ascii) : bool :=
  ((97 <=? code_unit c) && (code_unit c <=? 122))%N.

Definition is_upper (c : ascii) : bool :=
  ((65 <=? code_unit c) && (code_unit c <=? 90))%N.

(** [\w] is [[A-Za-z0-9_]]. *)
Definition is_word (c : ascii) : bool :=
  is_upper c || is_lower c || is_digit c || (code_unit c =? 95)%N.

Definition is_hyphen (c : ascii) : bool := (code_unit c =? 45)%N.

(** Upper-case letters of Latin-1: A-Z, and U+00C0..U+00DE without the
    multiplication sign U+00D7.  Each lowers to the code_unit 32 above. *)
Definition has_lower_case (c : ascii) : bool :=
  (is_upper c
   || ((192 <=? code_unit c) && (code_unit c <=? 222) && negb (code_unit c =? 215)))%N.

Definition toLowerChar (c : ascii) : ascii :=
  if has_lower_case c then ascii_of_N (code_unit c + 32) else c.

End Chars.

Module Str.

Import Chars.

Fixpoint all (p : ascii -> bool) (s : string) : bool :=
  match s with
  | EmptyString => true
  | String c r => p c && all p r
  end.

Fixpoint filter (p : ascii -> bool) (s : string) : string :=
  match s with
  | EmptyString => EmptyString
  | String c r => if p c then String c (filter p r) else filter p r
  end.

Fixpoint map (f : ascii -> ascii) (s : string) : string :=
  match s with
  | EmptyString => EmptyString
  | String c r => String (f c) (map f r)
  end.

(** Longest prefix of [s] made of characters satisfying [p], and the rest. *)
Fixpoint span (p : ascii -> bool) (s : string) : string * string :=
  match s with
  | EmptyString => (EmptyString, EmptyString)
  | String c r =>
      if p c then let '(a, b) := span p r in (String c a, b)
      else (EmptyString, s)
  end.

Fixpoint dropWhile (p : ascii -> bool) (s : string) : string :=
  match s with
  | EmptyString => EmptyString
  | String c r => if p c then dropWhile p r else s
  end.

Fixpoint rev_onto (s acc : string) : string :=
  match s with
  | EmptyString => acc
  | String c r => rev_onto r (String c acc)
  end.

Definition rev (s : string) : string := rev_onto s EmptyString.

(** [pre] is a prefix of [s]: the rest of [s] after it, if so. *)
Fixpoint strip_prefix (pre s : string) : option string :=
  match pre, s with
  | EmptyString, _ => Some s
  | String a p, String b r => if Ascii.eqb a b then strip_prefix p r else None
  | String _ _, EmptyString => None
  end.

(** [String.prototype.includes]. *)
Fixpoint includes (s needle : string) : bool :=
  match strip_prefix needle s with
  | Some _ => true
  | None => match s with
            | EmptyString => false
            | String _ r => includes r needle
            end
  end.

(** [String.prototype.toLowerCase]. *)
Definition toLowerCase (s : string) : string := map toLowerChar s.

(** [String.prototype.trim]. *)
Definition trim (s : string) : string :=
  rev (dropWhile is_space (rev (dropWhile is_space s))).

(** [s.replace(/\s+/g, '-')]: every maximal run of white space becomes one
    hyphen.  [in_run] tells that the previous character was white space. *)
Fixpoint replace_ws_from (in_run : bool) (s : string) : string :=
  match s with
  | EmptyString => EmptyString
  | String c r =>
      if is_space c
      then if in_run then replace_ws_from true r
           else String "-" (replace_ws_from true r)
      else String c (replace_ws_from false r)
  end.

Definition replace_ws_runs (s : string) : string := replace_ws_from false s.

(** [s.replace(/[^\w-]/g, '')]. *)
Definition strip_non_word (s : string) : string :=
  filter (fun c => is_word c || is_hyphen c) s.

End Str.

(* ================================================================== *)
(** * Numbers *)
(* ================================================================== *)

Module Num.

Import Chars.

(** The JavaScript numbers the extractor meets: integer-valued doubles,
    the infinities and NaN.  In [JFin z] the integer [z] is meant to be
    exactly representable in binary64. *)
Inductive JsNum : Type :=
| JNaN
| JInf (negative : bool)
| JFin (z : Z).

Definition eqb (a b : JsNum) : bool :=
  match a, b with
  | JFin x, JFin y => x =? y
  | JInf s, JInf t => Bool.eqb s t
  | _, _ => false   (* NaN differs from everything, itself included *)
  end.

(** Rounding of a natural number to the nearest double, ties to even:
    below [2^53] every integer is a double; above, the 53 leading bits
    are kept.  A result of [2^1024] or more is [Infinity]. *)
Definition round_to_double (n : Z) : JsNum :=
  if n <? 2 ^ 53 then JFin n
  else
    let e := Z.log2 n - 52 in
    let q := n / 2 ^ e in
    let r := n mod 2 ^ e in
    let half := 2 ^ (e - 1) in
    let q' := if r <? half then q
              else if half <? r then q + 1
              else if Z.even q then q else q + 1 in
    let v := q' * 2 ^ e in
    if 2 ^ 1024 <=? v then JInf false else JFin v.

(** Value of a string of decimal digits; [None] when a character is not a
    digit.  The empty string has value 0. *)
Definition digits_value (s : string) : option Z :=
  match NilEmpty.uint_of_string s with
  | Some d => Some (Z.of_N (N.of_uint d))
  | None => None
  end.

(** Decimal digits of a natural number, without leading zeros. *)
Definition decimal (n : Z) : string :=
  NilEmpty.string_of_uint (N.to_uint (Z.to_N n)).

(** [parseInt(s, 10)]: white space is skipped, a sign is read, then the
    longest run of digits; without a digit the result is NaN. *)
Definition parseInt10 (s : string) : JsNum :=
  let s1 := Str.dropWhile is_space s in
  let '(neg, s2) :=
    match s1 with
    | String "-" r => (true, r)
    | String "+" r => (false, r)
    | _ => (false, s1)
    end in
  let '(ds, _) := Str.span is_digit s2 in
  match ds with
  | EmptyString => JNaN
  | _ => match digits_value ds with
         | Some n => match round_to_double n with
                     | JFin v => JFin (if neg then - v else v)
                     | JInf _ => JInf neg
                     | JNaN => JNaN
                     end
         | None => JNaN
         end
  end.

(** ** Text to number

    [StringToNumber], the conversion that [>] applies to an operand that
    is a text.  The text is trimmed.  What is left is empty (zero), or a
    numeral in base 16, 8 or 2 after [0x], [0o] or [0b], which takes no
    sign, or an optional sign before [Infinity] or before a decimal
    numeral with an optional fraction and an optional exponent.  Any
    other text is NaN.  The value is rounded to the nearest double, ties
    to even, so that a numeral is above zero exactly when its value
    exceeds [2^-1075], half the smallest double above zero.  Only the
    comparison with zero is written out. *)

Definition digit_in_base (base : Z) (c : ascii) : option Z :=
  let n := Z.of_N (code_unit c) in
  let d := if is_digit c then n - 48
           else if (97 <=? n) && (n <=? 102) then n - 87
           else if (65 <=? n) && (n <=? 70) then n - 55
           else base in
  if d <? base then Some d else None.

Fixpoint value_in_base (base acc : Z) (s : string) : option Z :=
  match s with
  | EmptyString => Some acc
  | String c r =>
      match digit_in_base base c with
      | Some d => value_in_base base (acc * base + d) r
      | None => None
      end
  end.

(** [0x1F], [0o17], [0b101]: the value, when [s] is such a numeral. *)
Definition non_decimal_value (s : string) : option Z :=
  match s with
  | String "0" (String p (String c r)) =>
      let base := if Ascii.eqb p "x" || Ascii.eqb p "X" then 16
                  else if Ascii.eqb p "o" || Ascii.eqb p "O" then 8
                  else if Ascii.eqb p "b" || Ascii.eqb p "B" then 2
                  else 0 in
      value_in_base base 0 (String c r)
  | _ => None
  end.

(** The exponent part: nothing, or [e] or [E], an optional sign and at
    least one digit. *)
Definition exponent_value (s : string) : option Z :=
  match s with
  | EmptyString => Some 0
  | String c r =>
      if Ascii.eqb c "e" || Ascii.eqb c "E" then
        let '(neg, ds) :=
          match r with
          | String "-" d => (true, d)
          | String "+" d => (false, d)
          | _ => (false, r)
          end in
        match ds, digits_value ds with
        | String _ _, Some n => Some (if neg then - n else n)
        | _, _ => None
        end
      else None
  end.

(** An unsigned decimal numeral, as the pair [(m, p)] of its digits and
    the power of ten they are scaled by: its value is [m * 10^p].  There
    must be a digit before or after the point. *)
Definition unsigned_decimal (s : string) : option (Z * Z) :=
  let '(whole, r1) := Str.span is_digit s in
  let '(fraction, r2) :=
    match r1 with
    | String "." r => Str.span is_digit r
    | _ => (EmptyString, r1)
    end in
  match whole ++ fraction, digits_value (whole ++ fraction), exponent_value r2 with
  | String _ _, Some m, Some x => Some (m, x - Z.of_nat (String.length fraction))
  | _, _, _ => None
  end.

(** [m * 10^p] rounds to a double above zero. *)
Definition rounds_above_zero (m p : Z) : bool :=
  (0 <? m) && ((0 <=? p) || (10 ^ (- p) <? m * 2 ^ 1075)).

(** [Number(s) > 0] for a text [s].  A text with a minus sign is negative,
    minus zero or NaN, none of which is above zero. *)
Definition text_gt_zero (s : string) : bool :=
  let t := Str.trim s in
  match non_decimal_value t with
  | Some n => 0 <? n
  | None =>
      let '(neg, u) :=
        match t with
        | String "-" r => (true, r)
        | String "+" r => (false, r)
        | _ => (false, t)
        end in
      if neg then false
      else if String.eqb u "Infinity" then true
      else match unsigned_decimal u with
           | Some (m, p) => rounds_above_zero m p
           | None => false
           end
  end.

(** ** Number to string

    [Number::toString] picks the decimal numeral with the fewest
    significant digits that still rounds to the number; of two such
    numerals the nearer one, and on a tie the one with the even last
    digit.  [shortest m x] looks for such a numeral with [m] trailing
    zeros, then [m - 1], and so on. *)
Fixpoint shortest (m : nat) (x : Z) : Z :=
  match m with
  | O => x
  | S m' =>
      let p := 10 ^ Z.of_nat m in
      let lo := (x / p) * p in
      let hi := lo + p in
      let lo_ok := eqb (round_to_double lo) (JFin x) in
      let hi_ok := eqb (round_to_double hi) (JFin x) in
      if lo_ok && hi_ok then
        if x - lo <? hi - x then lo
        else if hi - x <? x - lo then hi
        else if Z.even (x / p) then lo else hi
      else if lo_ok then lo
      else if hi_ok then hi
      else shortest m' x
  end.

Fixpoint strip_trailing_zeros_rev (s : string) : string :=
  match s with
  | String "0" r => strip_trailing_zeros_rev r
  | _ => s
  end.

(** Digits of a positive integer double, in the notation the language
    prints: plain digits up to 21 of them (a value below [10^21]),
    exponent notation beyond. *)
Definition magnitude_to_string (x : Z) : string :=
  let v := shortest (S (Z.to_nat (Z.log2 x))) x in
  let ds := decimal v in
  if v <? 10 ^ 21 then ds
  else
    let sig := Str.rev (strip_trailing_zeros_rev (Str.rev ds)) in
    let expo := decimal (Z.of_nat (String.length ds - 1)) in
    match sig with
    | String d EmptyString => String d ("e+" ++ expo)
    | String d r => String d ("." ++ r ++ "e+" ++ expo)
    | EmptyString => ds
    end.

(** [String(n)] and the conversion a template literal applies. *)
Definition to_string (n : JsNum) : string :=
  match n with
  | JNaN => "NaN"
  | JInf false => "Infinity"
  | JInf true => "-Infinity"
  | JFin 0 => "0"
  | JFin z => if z <? 0 then "-" ++ magnitude_to_string (- z)
              else magnitude_to_string z
  end.

(** Numeric order [a <= b]; false as soon as NaN is involved. *)
Definition leb (a b : JsNum) : bool :=
  match a, b with
  | JNaN, _ | _, JNaN => false
  | JFin x, JFin y => x <=? y
  | JInf true, _ => true
  | _, JInf false => true
  | JInf false, _ => false
  | _, JInf true => false
  end.

(** Sign of the difference [a - b], the way a sort comparator is read:
    a NaN difference counts as zero. *)
Definition sub_sign (a b : JsNum) : Z :=
  match a, b with
  | JFin x, JFin y => Z.sgn (x - y)
  | JNaN, _ | _, JNaN => 0
  | JInf s, JInf t => if Bool.eqb s t then 0 else if s then -1 else 1
  | JInf s, JFin _ => if s then -1 else 1
  | JFin _, JInf t => if t then 1 else -1
  end.

End Num.

(* ================================================================== *)
(** * Values *)
(* ================================================================== *)

Module Js.

Import Num.

(** Values exchanged with the HTTP client: parsed JSON, or text. *)
#[local] Unset Elimination Schemes.
Inductive JsVal : Type :=
| VUndef
| VNull
| VBool (b : bool)
| VNum (n : JsNum)
| VStr (s : string)
| VArr (items : list JsVal)
| VObj (fields : list (string * JsVal)).
#[local] Set Elimination Schemes.

(** ToBoolean. *)
Definition truthy (v : JsVal) : bool :=
  match v with
  | VUndef | VNull => false
  | VBool b => b
  | VNum JNaN => false
  | VNum (JFin z) => negb (z =? 0)
  | VNum (JInf _) => true
  | VStr s => negb (String.eqb s "")
  | VArr _ | VObj _ => true
  end.

(** [a || b] *)
Definition or_else (a b : JsVal) : JsVal := if truthy a then a else b.

Fixpoint join_with (sep : string) (l : list string) : string :=
  match l with
  | [] => ""
  | [s] => s
  | s :: r => s ++ sep ++ join_with sep r
  end.

(** [String(v)], which is also what a template literal applies. *)
Fixpoint to_String (v : JsVal) : string :=
  match v with
  | VUndef => "undefined"
  | VNull => "null"
  | VBool true => "true"
  | VBool false => "false"
  | VNum n => Num.to_string n
  | VStr s => s
  | VArr items =>
      join_with ","
        (List.map (fun x => match x with
                            | VUndef | VNull => ""
                            | _ => to_String x
                            end) items)
  | VObj _ => "[object Object]"
  end.

Fixpoint lookup (k : string) (fields : list (string * JsVal)) : option JsVal :=
  match fields with
  | [] => None
  | (k', v) :: r => if String.eqb k k' then Some v else lookup k r
  end.

(** An array index written canonically: ["0"], ["1"], ["27"], ... *)
Definition array_index (k : string) : option nat :=
  match digits_value k with
  | Some n => if String.eqb (decimal n) k then Some (Z.to_nat n) else None
  | None => None
  end.

(** Property read [v.k] or [v[k]].  [None] stands for the TypeError raised
    on [undefined] and [null].  Only own data properties are modelled. *)
Definition get_prop (v : JsVal) (k : string) : option JsVal :=
  match v with
  | VUndef | VNull => None
  | VBool _ | VNum _ => Some VUndef
  | VStr s =>
      if String.eqb k "length" then Some (VNum (JFin (Z.of_nat (String.length s))))
      else match array_index k with
           | Some i => match String.get i s with
                       | Some c => Some (VStr (String c EmptyString))
                       | None => Some VUndef
                       end
           | None => Some VUndef
           end
  | VArr items =>
      if String.eqb k "length" then Some (VNum (JFin (Z.of_nat (List.length items))))
      else match array_index k with
           | Some i => Some (nth i items VUndef)
           | None => Some VUndef
           end
  | VObj fields =>
      match lookup k fields with
      | Some x => Some x
      | None => Some VUndef
      end
  end.

(** Whether ToPrimitive succeeds on [v].  An array or an object is
    converted by the [toString] it inherits ([valueOf] gives the object
    back).  In an object read from JSON an own property [toString] holds
    data and hides the inherited method: with no method left to call the
    conversion raises a TypeError, and so does the conversion of an array
    that holds such an object, since [join] converts every element. *)
Fixpoint convertible (v : JsVal) : bool :=
  match v with
  | VArr items => forallb convertible items
  | VObj fields => match lookup "toString" fields with
                   | Some _ => false
                   | None => true
                   end
  | _ => true
  end.

(** [String(v)] and [`${v}`]; [None] stands for the TypeError of
    ToPrimitive. *)
Definition String_of (v : JsVal) : option string :=
  if convertible v then Some (to_String v) else None.

(** [v > 0]; [None] stands for the TypeError of ToPrimitive.  The operand
    is converted with ToNumber: [undefined] is NaN, [null] is zero, [true]
    is one, a text is read by [StringToNumber], and an array or an object
    is first converted to a text. *)
Definition gt_zero (v : JsVal) : option bool :=
  match v with
  | VUndef | VNull => Some false
  | VBool b => Some b
  | VNum (JFin z) => Some (0 <? z)
  | VNum (JInf neg) => Some (negb neg)
  | VNum JNaN => Some false
  | VStr s => Some (text_gt_zero s)
  | VArr _ | VObj _ => option_map text_gt_zero (String_of v)
  end.

(** Error objects as the HTTP client and the runtime throw them:
    [message], and the optional [status], [response.status] and [code]. *)
Record JsError : Type := mkError {
  message : string;
  status : option Z;
  response_status : option Z;
  code : option string
}.

(** [new Error(msg)] *)
Definition Error (msg : string) : JsError :=
  {| message := msg; status := None; response_status := None; code := None |}.

(** A TypeError raised by the runtime. *)
Definition TypeError (msg : string) : JsError := Error msg.

(** The TypeError of ToPrimitive. *)
Definition not_convertible : JsError :=
  TypeError "Cannot convert object to primitive value".

End Js.

(* ================================================================== *)
(** * Asynchronous computations *)
(* ================================================================== *)

Module Async.

Import Js.

(** [httpClient.get(url, { params })].  The User-Agent header, drawn at
    random, is left out. *)
Record Request : Type := mkRequest {
  req_url : string;
  req_params : list (string * string)
}.

Inductive Settled : Type :=
| Resolved (body : JsVal)
| Rejected (e : JsError).

(** The network.  [settle history req] is what the promise of [req]
    settles to when [history] lists the requests sent before it;
    [overdue history req] tells that it settles only after a timer of
    5000 ms started with it has fired. *)
Record Network : Type := mkNetwork {
  settle : list Request -> Request -> Settled;
  overdue : list Request -> Request -> bool
}.

Inductive LogLevel : Type := Debug | Info | Warn | LogError.

Record Runtime : Type := mkRuntime {
  sent : list Request;                 (* oldest first *)
  logged : list (LogLevel * string)    (* oldest first *)
}.

Inductive Completion (A : Type) : Type :=
| Return (a : A)
| Throw (e : JsError).
Arguments Return {A} a.
Arguments Throw {A} e.

Definition M (A : Type) : Type := Runtime -> Completion A * Runtime.

Definition ret {A} (a : A) : M A := fun rt => (Return a, rt).

Definition throw {A} (e : JsError) : M A := fun rt => (Throw e, rt).

Definition bind {A B} (m : M A) (k : A -> M B) : M B :=
  fun rt =>
    match m rt with
    | (Return a, rt') => k a rt'
    | (Throw e, rt') => (Throw e, rt')
    end.

(** [try { m } catch (error) { handler error }] *)
Definition try_catch {A} (m : M A) (handler : JsError -> M A) : M A :=
  fun rt =>
    match m rt with
    | (Return a, rt') => (Return a, rt')
    | (Throw e, rt') => handler e rt'
    end.

Definition lift {A} (c : Completion A) : M A := fun rt => (c, rt).

Definition log (lvl : LogLevel) (msg : string) : M unit :=
  fun rt => (Return tt, {| sent := sent rt; logged := logged rt ++ [(lvl, msg)] |}).

Definition record_request (req : Request) (rt : Runtime) : Runtime :=
  {| sent := sent rt ++ [req]; logged := logged rt |}.

(** [await httpClient.get(...)] *)
Definition http_get (net : Network) (req : Request) : M JsVal :=
  fun rt =>
    match settle net (sent rt) req with
    | Resolved body => (Return body, record_request req rt)
    | Rejected e => (Throw e, record_request req rt)
    end.

(** [await Promise.race([httpClient.get(...), timeoutPromise])] where the
    timer rejects with [late]. *)
Definition http_get_race (net : Network) (req : Request) (late : JsError) : M JsVal :=
  fun rt =>
    if overdue net (sent rt) req then (Throw late, record_request req rt)
    else http_get net req rt.

End Async.

Declare Scope async_scope.
Delimit Scope async_scope with async.
Notation "x <- m ;; k" := (Async.bind m (fun x => k))
  (at level 61, m at next level, right associativity) : async_scope.
Notation "m ;;; k" := (Async.bind m (fun _ => k))
  (at level 61, right associativity) : async_scope.

(* ================================================================== *)
(** * The extractor *)
(* ================================================================== *)

Module EmbedExtractor.

Import Chars Num Js Async.
Local Open Scope async_scope.

(** ** Data *)

Record ServerEntry : Type := mkServer {
  server : JsNum;
  name : string;
  url : string
}.

Record EmbedData : Type := mkEmbed {
  id : string;
  servers : list ServerEntry;
  externalApiMapping : option (list (string * JsVal))
}.

(** What the page parser sees of a loaded document.  [option_divs] are
    the elements selected by [div[id^="options-"]], in document order,
    each with its [id] attribute and with what [extractAttribute] gives
    for [src] and [data-src] of its first iframe ([None] when there is no
    value).  [server_label i] is the text [extractText] gives for the
    first [.server] element below an anchor whose [href] is [#] followed
    by [i]; it is empty when there is no such element. *)
Record OptionDiv : Type := mkOption {
  attr_id : string;
  iframe_src : option string;
  iframe_data_src : option string
}.

Record Document : Type := mkDocument {
  option_divs : list OptionDiv;
  server_label : string -> string
}.

(** ** Regular expressions *)

(** [s.match(/options-(\d+)/)]: the first place where [options-] is
    followed by a digit; the capture is the longest run of digits there. *)
Fixpoint match_options (s : string) : option string :=
  let next := match s with
              | EmptyString => None
              | String _ r => match_options r
              end in
  match Str.strip_prefix "options-" s with
  | Some rest =>
      match Str.span is_digit rest with
      | (String d ds, _) => Some (String d ds)
      | (EmptyString, _) => next
      end
  | None => next
  end.

(** [-(\d+)x(\d+)$] against the whole of [rest].  Both runs of digits are
    the longest ones: a shorter run would be followed by a digit, where
    the pattern wants [x] or the end of the input. *)
Definition match_season_episode (rest : string) : option (string * string) :=
  match rest with
  | String "-" r1 =>
      match Str.span is_digit r1 with
      | (String a d1, String "x" r3) =>
          match Str.span is_digit r3 with
          | (String b d2, EmptyString) => Some (String a d1, String b d2)
          | _ => None
          end
      | _ => None
      end
  | _ => None
  end.

(** [s.match(/^(.+?)-(\d+)x(\d+)$/)]: the lazy group takes one character,
    then one more each time the rest does not match; it cannot take a
    line terminator. *)
Fixpoint match_episode (s : string) : option (string * string * string) :=
  match s with
  | EmptyString => None
  | String c r =>
      if is_line_terminator c then None
      else match match_season_episode r with
           | Some (a, b) => Some (String c EmptyString, a, b)
           | None => match match_episode r with
                     | Some (p, a, b) => Some (String c p, a, b)
                     | None => None
                     end
           end
  end.

(** ** Episode identifier codec *)

(** [getSeriesIdFromEpisodeId], whose pattern [/^(.+?)(?:-\d+x\d+)$/] is
    that of [parseEpisodeId] without the inner groups. *)
Definition getSeriesIdFromEpisodeId (episodeId : string) : string :=
  match match_episode episodeId with
  | Some (seriesId, _, _) => seriesId
  | None => episodeId
  end.

Record ParsedEpisode : Type := mkParsed {
  animeTitle : string;
  season : JsNum;
  episode : JsNum
}.

Definition parseEpisodeId (episodeId : string) : option ParsedEpisode :=
  match match_episode episodeId with
  | Some (title, s, e) =>
      Some {| animeTitle := title; season := parseInt10 s; episode := parseInt10 e |}
  | None => None
  end.

(** The template [`${slug}-${season}x${episode}`] with which
    [getEmbedByDataIdAndEpisode] writes an episode identifier. *)
Definition compositeId (slug : string) (s e : JsNum) : string :=
  slug ++ "-" ++ Num.to_string s ++ "x" ++ Num.to_string e.

(** ** Page parser *)

(** [a || b || ''] on attribute values. *)
Definition first_usable (a b : option string) : string :=
  match a with
  | Some (String c r) => String c r
  | _ => match b with
         | Some (String c r) => String c r
         | _ => ""
         end
  end.

(** The body of the [each] callback: the entry pushed for one element,
    if any. *)
Definition extract_option (doc : Document) (el : OptionDiv) : option ServerEntry :=
  let optionId := attr_id el in
  match match_options optionId with
  | None => None
  | Some digits =>
      let serverNumber := parseInt10 digits in
      let iframeSrc := first_usable (iframe_src el) (iframe_data_src el) in
      let serverName := Str.trim (server_label doc optionId) in
      match iframeSrc with
      | EmptyString => None
      | _ => Some {| server := serverNumber;
                     name := match serverName with
                             | EmptyString => "Server " ++ Num.to_string serverNumber
                             | _ => serverName
                             end;
                     url := iframeSrc |}
      end
  end.

Fixpoint collect (doc : Document) (els : list OptionDiv) : list ServerEntry :=
  match els with
  | [] => []
  | el :: r => match extract_option doc el with
               | Some e => e :: collect doc r
               | None => collect doc r
               end
  end.

(** [servers.sort((a, b) => a.server - b.server)].  The sort of the
    language is stable, so with this comparator its result is the one of
    a stable insertion sort. *)
Fixpoint insert (x : ServerEntry) (l : list ServerEntry) : list ServerEntry :=
  match l with
  | [] => [x]
  | y :: r => if sub_sign (server x) (server y) <=? 0 then x :: y :: r
              else y :: insert x r
  end.

Fixpoint sort (l : list ServerEntry) : list ServerEntry :=
  match l with
  | [] => []
  | x :: r => insert x (sort r)
  end.

Definition extract (doc : Document) : EmbedData :=
  {| id := "";
     servers := sort (collect doc (option_divs doc));
     externalApiMapping := None |}.

Definition set_id (data : EmbedData) (i : string) : EmbedData :=
  {| id := i; servers := servers data; externalApiMapping := externalApiMapping data |}.

Definition set_mapping (data : EmbedData) (m : list (string * JsVal)) : EmbedData :=
  {| id := id data; servers := servers data; externalApiMapping := Some m |}.

(** ** Retrieval *)

Definition apiUrl : string := "https://anime-api-two-pi.vercel.app/api".

Definition page_request (u : string) : Request :=
  {| req_url := u; req_params := [] |}.

Definition api_request (params : list (string * string)) : Request :=
  {| req_url := apiUrl; req_params := params |}.

(** [x === n] on an optional numeric field. *)
Definition is_number (x : option Z) (n : Z) : bool :=
  match x with
  | Some z => z =? n
  | None => false
  end.

Definition is_text (x : option string) (s : string) : bool :=
  match x with
  | Some t => String.eqb t s
  | None => false
  end.

(** The classification made in the [catch] of [extractFromUrl]. *)
Definition is404 (error : JsError) : bool :=
  is_number (response_status error) 404
  || is_number (status error) 404
  || Str.includes (message error) "404"
  || is_text (code error) "ENOTFOUND".

(** Property read inside an asynchronous method. *)
Definition prop (v : JsVal) (k : string) : M JsVal :=
  match get_prop v k with
  | Some x => ret x
  | None => throw (TypeError ("Cannot read properties of " ++ to_String v
                              ++ " (reading '" ++ k ++ "')"))
  end.

(** A conversion to a primitive value inside an asynchronous method. *)
Definition convert {A : Type} (x : option A) : M A :=
  match x with
  | Some a => ret a
  | None => throw not_convertible
  end.

Definition first_or_undefined (l : list string) : string :=
  match l with
  | [] => "undefined"
  | x :: _ => x
  end.

(** The fixed list of [constructCommonSeriesIds]. *)
Definition popularSeriesIds : list string :=
  [ "one-punch-man"; "one-piece"; "naruto"; "bleach"; "demon-slayer";
    "jujutsu-kaisen"; "attack-on-titan"; "my-hero-academia";
    "dragon-ball-super"; "spy-x-family"; "fire-force"; "chainsaw-man";
    "hunter-x-hunter"; "solo-leveling" ].

(** Title to series identifier in [getEmbedByDataIdAndEpisode]:
    [title.toLowerCase().replace(/\s+/g, '-').replace(/[^\w-]/g, '')]. *)
Definition titleToSeriesId (title : string) : string :=
  Str.strip_non_word (Str.replace_ws_runs (Str.toLowerCase title)).

(** Title to series identifier in [getEmbedByDataId]:
    [title.toLowerCase().replace(/\s+/g, '-')]. *)
Definition titleToSeriesIdByDataId (title : string) : string :=
  Str.replace_ws_runs (Str.toLowerCase title).

(** [response.find(item => String(item.data_id) === String(dataId))] *)
Fixpoint find_by_data_id (items : list JsVal) (dataId : string)
  : Completion (option JsVal) :=
  match items with
  | [] => Return None
  | item :: r =>
      match get_prop item "data_id" with
      | None => Throw (TypeError ("Cannot read properties of " ++ to_String item
                                  ++ " (reading 'data_id')"))
      | Some v =>
          match String_of v with
          | None => Throw not_convertible
          | Some text => if String.eqb text dataId then Return (Some item)
                         else find_by_data_id r dataId
          end
      end
  end.

Record MappedData : Type := mkMapped {
  externalApiId : JsVal;
  dataId : JsVal;
  episodeId : string;
  mappedSeason : JsNum;
  mappedEpisode : JsNum;
  originalTitle : JsVal
}.

Section Site.

Variable baseUrl : string.               (* [this.base.baseUrl] *)
Variable loadCheerio : JsVal -> Document. (* [this.loadCheerio] *)
Variable net : Network.

Definition episodeUrl (i : string) : string := baseUrl ++ "/episode/" ++ i ++ "/".
Definition seriesUrl (s : string) : string := baseUrl ++ "/series/" ++ s ++ "/".
Definition moviesUrl (s : string) : string := baseUrl ++ "/movies/" ++ s ++ "/".

(** Fetch and parse one page, then [data.id = i]. *)
Definition fetch_page (u i : string) : M EmbedData :=
  html <- http_get net (page_request u);;
  ret (set_id (extract (loadCheerio html)) i).

(** The loop [for (const detailUrl of detailUrls)] of [extractFromUrl]:
    [inl data] when an iteration returned, [inr lastDetailError] when the
    loop ran to its end. *)
Fixpoint try_detail_urls (i : string) (detailUrls : list string)
    (lastDetailError : option JsError) : M (EmbedData + option JsError) :=
  match detailUrls with
  | [] => ret (inr lastDetailError)
  | detailUrl :: rest =>
      try_catch
        (data <- fetch_page detailUrl i;; ret (inl data))
        (fun detailError => try_detail_urls i rest (Some detailError))
  end.

Definition extractFromUrl (i : string) : M EmbedData :=
  try_catch
    (fetch_page (episodeUrl i) i)
    (fun error =>
       if is404 error then
         log Info ("Episode page not found (404), trying details page for: " ++ i);;;
         let seriesId := getSeriesIdFromEpisodeId i in
         let detailUrls := [seriesUrl seriesId; moviesUrl seriesId] in
         r <- try_detail_urls i detailUrls None;;
         match r with
         | inl data => ret data
         | inr (Some lastDetailError) => throw lastDetailError
         | inr None => throw error
         end
       else throw error).

Definition searchAnimeInExternalApi (title : string) : M JsVal :=
  try_catch
    (response <- http_get net (api_request [("q", title)]);;
     if truthy response then
       len <- prop response "length";;
       positive <- convert (gt_zero len);;
       if positive then prop response "0" else ret VNull
     else ret VNull)
    (fun error =>
       log LogError ("Error searching anime in external API: " ++ message error);;;
       ret VNull).

Definition getAnimeIdFromExternalApi (i : string) : M (option MappedData) :=
  try_catch
    (match parseEpisodeId i with
     | None =>
         log Warn ("Could not parse episode ID: " ++ i);;;
         ret None
     | Some parsed =>
         animeData <- searchAnimeInExternalApi (animeTitle parsed);;
         if truthy animeData then
           anime_id <- prop animeData "id";;
           if truthy anime_id then
             data_id <- prop animeData "data_id";;
             title <- prop animeData "title";;
             ret (Some {| externalApiId := anime_id;
                          dataId := or_else data_id VNull;
                          episodeId := i;
                          mappedSeason := season parsed;
                          mappedEpisode := episode parsed;
                          originalTitle := or_else title (VStr (animeTitle parsed)) |})
           else ret None
         else ret None
     end)
    (fun error =>
       log LogError ("Error getting anime ID from external API: " ++ message error);;;
       ret None).

(** The object literal [externalApiMapping] of [getEmbedWithMapping]. *)
Definition mapping_of (m : MappedData) : list (string * JsVal) :=
  [ ("animeId", externalApiId m);
    ("dataId", dataId m);
    ("title", originalTitle m);
    ("season", VNum (mappedSeason m));
    ("episode", VNum (mappedEpisode m)) ].

Definition getEmbedWithMapping (i : string) : M EmbedData :=
  try_catch
    (mappedData <- getAnimeIdFromExternalApi i;;
     match mappedData with
     | None =>
         log Info ("Could not map " ++ i
                   ++ " with external API, falling back to direct extraction");;;
         extractFromUrl i
     | Some m =>
         embedData <- extractFromUrl i;;
         ret {| id := i;
                servers := servers embedData;
                externalApiMapping := Some (mapping_of m) |}
     end)
    (fun error =>
       log LogError ("Error in getEmbedWithMapping: " ++ message error);;;
       throw error).

(** *** The flow by data id and season *)

Definition dataIdUrl (data_id : string) (s : JsNum) : string :=
  baseUrl ++ "/episode/?data_id=" ++ data_id ++ "&season=" ++ Num.to_string s.

(** The assignments [data.id = ...] and [data.externalApiMapping = ...] of
    [getEmbedByDataId]; [extra] holds the fields after [dataId] and
    [season]. *)
Definition finishByDataId (data_id : string) (s : JsNum)
    (extra : list (string * JsVal)) (data : EmbedData) : EmbedData :=
  {| id := data_id ++ "-season-" ++ Num.to_string s;
     servers := servers data;
     externalApiMapping :=
       Some (("dataId", VStr data_id) :: ("season", VNum s) :: extra) |}.

(** The loop over [detailUrls] of [getEmbedByDataId]. *)
Fixpoint try_detail_urls_by_data_id (data_id : string) (s : JsNum) (raw_title : JsVal)
    (detailUrls : list string) (lastDetailError : option JsError)
  : M (EmbedData + option JsError) :=
  match detailUrls with
  | [] => ret (inr lastDetailError)
  | detailUrl :: rest =>
      try_catch
        (detailHtml <- http_get net (page_request detailUrl);;
         ret (inl (finishByDataId data_id s [("title", raw_title)]
                     (extract (loadCheerio detailHtml)))))
        (fun detailError =>
           try_detail_urls_by_data_id data_id s raw_title rest (Some detailError))
  end.

Definition getEmbedByDataId (data_id : string) (s : JsNum) : M EmbedData :=
  try_catch
    (try_catch
       (html <- http_get net (page_request (dataIdUrl data_id s));;
        ret (finishByDataId data_id s [] (extract (loadCheerio html))))
       (fun error =>
          log Info ("Could not fetch using data_id URL, trying search: " ++ data_id);;;
          response <- http_get net (api_request [("id", data_id)]);;
          returned <-
            (if truthy response then
               len <- prop response "length";;
               positive <- convert (gt_zero len);;
               if positive then
                 animeData <- prop response "0";;
                 raw_title <- prop animeData "title";;
                 match or_else raw_title (VStr "") with
                 | VStr title =>
                     let seriesId := titleToSeriesIdByDataId title in
                     r <- try_detail_urls_by_data_id data_id s raw_title
                            [seriesUrl seriesId; moviesUrl seriesId] None;;
                     match r with
                     | inl data => ret (Some data)
                     | inr (Some lastDetailError) => throw lastDetailError
                     | inr None => ret None
                     end
                 | _ => throw (TypeError "title.toLowerCase is not a function")
                 end
               else ret None
             else ret None);;
          match returned with
          | Some data => ret data
          | None => throw error
          end))
    (fun error =>
       log LogError ("Error getting embed by data_id: " ++ message error);;;
       throw error).

(** *** The flow by data id, season and episode *)

(** Lines 355-375 of [getEmbedByDataIdAndEpisode]: the listing is fetched
    in a race with a timer of 5000 ms.  The result is the value left in
    [animeTitle].  The log line of line 371 comes after the assignment of
    line 370: when its template literal throws, on a title that cannot be
    converted to a text, the [catch] of line 373 runs and the title stays
    assigned.  That path is the inner [try_catch], whose handler writes
    the warning of the [catch]. *)
Definition lookupTitle (data_id : string) : M JsVal :=
  let warn := fun apiError : JsError =>
                log Warn ("Could not fetch from external API: " ++ message apiError) in
  try_catch
    (response <- http_get_race net (api_request []) (Error "API timeout");;
     match response with
     | VArr items =>
         anime <- lift (find_by_data_id items data_id);;
         match anime with
         | Some a =>
             if truthy a then
               title <- prop a "title";;
               if truthy title then
                 try_catch
                   (text <- convert (String_of title);;
                    log Info ("Found anime from API: " ++ text))
                   warn;;;
                 ret title
               else ret VNull
             else ret VNull
         | None => ret VNull
         end
     | _ => ret VNull
     end)
    (fun apiError => warn apiError;;; ret VNull).

(** [animeTitle ? [normalised title] : constructCommonSeriesIds(dataId)] *)
Definition seriesPatternsFor (title : JsVal) : M (list string) :=
  if truthy title then
    match title with
    | VStr t => ret [titleToSeriesId t]
    | _ => throw (TypeError "animeTitle.toLowerCase is not a function")
    end
  else ret popularSeriesIds.

Section ByDataId.

Variable data_id : string.
Variables s e : JsNum.
Variable title : JsVal.            (* [animeTitle] *)
Variable constructedId : string.   (* [constructedEpisodeId] *)

(** The assignments made to [data] on each successful path. *)
Definition finish (data : EmbedData) : EmbedData :=
  {| id := data_id ++ "/" ++ Num.to_string s ++ "/" ++ Num.to_string e;
     servers := servers data;
     externalApiMapping :=
       Some [ ("dataId", VStr data_id);
              ("season", VNum s);
              ("episode", VNum e);
              ("title", or_else title (VStr "Unknown"));
              ("constructedId", VStr constructedId) ] |}.

(** The inner loop over [detailUrls]. *)
Fixpoint try_urls (detailUrls : list string) : M (option EmbedData) :=
  match detailUrls with
  | [] => ret None
  | detailUrl :: rest =>
      try_catch
        (log Info ("Trying detail URL: " ++ detailUrl);;;
         detailHtml <- http_get net (page_request detailUrl);;
         ret (Some (finish (extract (loadCheerio detailHtml)))))
        (fun detailError =>
           log Debug ("Detail URL failed: " ++ detailUrl);;;
           try_urls rest)
  end.

(** The outer loop over [seriesPatterns]. *)
Fixpoint try_patterns (seriesPatterns : list string) : M (option EmbedData) :=
  match seriesPatterns with
  | [] => ret None
  | seriesId :: rest =>
      r <- try_urls [seriesUrl seriesId; moviesUrl seriesId];;
      match r with
      | Some data => ret (Some data)
      | None => try_patterns rest
      end
  end.

End ByDataId.

(** Lines 382-447: from the value of [animeTitle] on. *)
Definition fetchByPatterns (data_id : string) (s e : JsNum) (title : JsVal)
  : M EmbedData :=
  seriesPatterns <- seriesPatternsFor title;;
  let constructedEpisodeId := compositeId (first_or_undefined seriesPatterns) s e in
  log Info ("Trying constructed ID: " ++ constructedEpisodeId);;;
  let url := episodeUrl constructedEpisodeId in
  try_catch
    (log Info ("Fetching episode from: " ++ url);;;
     html <- http_get net (page_request url);;
     ret (finish data_id s e title constructedEpisodeId (extract (loadCheerio html))))
    (fun episodeError =>
       log Info ("Episode page not found for " ++ constructedEpisodeId
                 ++ ", trying series page");;;
       r <- try_patterns data_id s e title constructedEpisodeId seriesPatterns;;
       match r with
       | Some data => ret data
       | None => throw (Error ("Could not find any page for data_id: " ++ data_id))
       end).

Definition getEmbedByDataIdAndEpisode (data_id : string) (s e : JsNum)
  : M EmbedData :=
  try_catch
    (log Info ("Searching for data_id: " ++ data_id ++ ", season: "
               ++ Num.to_string s ++ ", episode: " ++ Num.to_string e);;;
     title <- lookupTitle data_id;;
     (if truthy title then ret tt
      else log Warn ("No title found for data_id: " ++ data_id
                     ++ ", using fallback patterns"));;;
     fetchByPatterns data_id s e title)
    (fun error =>
       log LogError ("Error getting embed by data_id and episode: " ++ message error);;;
       throw error).

End Site.

End EmbedExtractor.

(* ================================================================== *)
(** * The controller *)
(* ================================================================== *)

Module EmbedController.

Import Num Js Async.
Local Open Scope async_scope.

(** What is passed to [res.status(...).json(...)]. *)
Record Reply : Type := mkReply {
  statusCode : Z;
  body : EmbedExtractor.EmbedData
}.

Section Site.

Variable baseUrl : string.
Variable loadCheerio : JsVal -> EmbedExtractor.Document.
Variable net : Network.

(** The constructor of [BadRequestError], a class of [utils/errors]. *)
Variable BadRequestError : string -> JsError.

(** The callback handed to [this.execute] in [getEmbed].  A route
    parameter is a string or is absent; the error object given to the
    logger beside the message is left out. *)
Definition getEmbed (id : option string) : M Reply :=
  try_catch
    (match id with
     | Some (String c r) =>
         embedData <- EmbedExtractor.getEmbedWithMapping baseUrl loadCheerio net
                        (String c r);;
         ret {| statusCode := 200; body := embedData |}
     | _ => throw (BadRequestError "ID parameter is required")
     end)
    (fun error =>
       log LogError "Error extracting embed data";;;
       throw (BadRequestError ("Failed to extract embed data: " ++ message error))).

(** The callback handed to [this.execute] in [getEmbedByDataIdAndEpisode]. *)
Definition getEmbedByDataIdAndEpisode (dataId season episode : option string)
  : M Reply :=
  try_catch
    (match dataId, season, episode with
     | Some (String c1 r1), Some (String c2 r2), Some (String c3 r3) =>
         embedData <- EmbedExtractor.getEmbedByDataIdAndEpisode baseUrl loadCheerio net
                        (String c1 r1)
                        (parseInt10 (String c2 r2))
                        (parseInt10 (String c3 r3));;
         ret {| statusCode := 200; body := embedData |}
     | _, _, _ =>
         throw (BadRequestError "dataId, season, and episode parameters are required")
     end)
    (fun error =>
       log LogError "Error extracting embed data by data_id and episode";;;
       throw (BadRequestError ("Failed to extract embed data: " ++ message error))).

End Site.

End EmbedController.

(* ================================================================== *)
(** * Vocabulary of the properties *)
(* ================================================================== *)

Module Props.

Import Chars Num Js Async EmbedExtractor.

(** The character set [[a-z0-9-]]. *)
Definition in_lower_digit_hyphen (c : ascii) : bool :=
  is_lower c || is_digit c || is_hyphen c.

(** The character set [[a-z0-9_-]]. *)
Definition in_lower_digit_hyphen_underscore (c : ascii) : bool :=
  in_lower_digit_hyphen c || (code_unit c =? 95)%N.

Definition not_space (c : ascii) : bool := negb (is_space c).

Definition starts_without_space (s : string) : bool :=
  match s with
  | EmptyString => true
  | String c _ => negb (is_space c)
  end.

(** A positive decimal numeral without leading zeros. *)
Definition canonical_numeral (s : string) : bool :=
  match s with
  | EmptyString => false
  | String c r => is_digit c && negb (Ascii.eqb c "0") && Str.all is_digit r
  end.

(** A numeral whose value is at most [Number.MAX_SAFE_INTEGER = 2^53 - 1]. *)
Definition safe_numeral (s : string) : bool :=
  match digits_value s with
  | Some n => n <? 2 ^ 53
  | None => false
  end.

Definition no_line_terminator (s : string) : bool :=
  Str.all (fun c => negb (is_line_terminator c)) s.

(** [s] ends with [-<digits>x<digits>]. *)
Definition has_episode_suffix (s : string) : Prop :=
  exists p a b : string,
    s = p ++ "-" ++ a ++ "x" ++ b
    /\ a <> "" /\ b <> ""
    /\ Str.all is_digit a = true /\ Str.all is_digit b = true.

(** A server index: what [parseInt] gives for a run of digits. *)
Definition is_index (n : JsNum) : Prop :=
  match n with
  | JFin z => 0 <= z
  | JInf negative => negative = false
  | JNaN => False
  end.

Definition index_le (a b : ServerEntry) : Prop :=
  Num.leb (server a) (server b) = true.

(** Whether the element holds a usable embed address. *)
Definition usable (el : OptionDiv) : bool :=
  match match_options (attr_id el), first_usable (iframe_src el) (iframe_data_src el) with
  | Some _, String _ _ => true
  | _, _ => false
  end.

(** Pages tried in order until one is fetched: the requests sent, and the
    body of the page that was fetched, if any. *)
Fixpoint first_success (net : Network) (history : list Request) (urls : list string)
  : list Request * option JsVal :=
  match urls with
  | [] => ([], None)
  | u :: rest =>
      match settle net history (page_request u) with
      | Resolved html => ([page_request u], Some html)
      | Rejected _ =>
          let '(reqs, res) := first_success net (history ++ [page_request u]) rest in
          (page_request u :: reqs, res)
      end
  end.

(** The pages [getEmbedByDataIdAndEpisode] tries for a list of candidate
    series identifiers: the episode page of the first candidate, then the
    series page and the movie page of every candidate. *)
Definition attempts (baseUrl : string) (candidates : list string) (s e : JsNum)
  : list string :=
  episodeUrl baseUrl (compositeId (first_or_undefined candidates) s e)
  :: flat_map (fun c => [seriesUrl baseUrl c; moviesUrl baseUrl c]) candidates.

End Props.

(* ================================================================== *)
(** * Sample pages and networks *)
(* ================================================================== *)

Module Examples.

Import Num Js Async EmbedExtractor.

(** A page with two usable server blocks out of document order, one block
    without an embed address and one whose id carries no number. *)
Definition sample_document : Document :=
  {| option_divs :=
       [ {| attr_id := "options-1"; iframe_src := Some "https://play.example/e/1";
            iframe_data_src := None |};
         {| attr_id := "options-0"; iframe_src := Some "";
            iframe_data_src := Some "https://play.example/e/0" |};
         {| attr_id := "options-2"; iframe_src := None; iframe_data_src := None |};
         {| attr_id := "options-extra"; iframe_src := Some "https://play.example/e/x";
            iframe_data_src := None |} ];
     server_label := fun i => if String.eqb i "options-1" then " Hindi " else "" |}.

Definition empty_document : Document :=
  {| option_divs := []; server_label := fun _ => "" |}.

Definition sample_base : string := "https://watchanimeworld.in".

(** Every page body is read as [sample_document], except the text
    ["<html></html>"], which has no server block. *)
Definition sample_loader (body : JsVal) : Document :=
  match body with
  | VStr "<html></html>" => empty_document
  | _ => sample_document
  end.

Definition not_found : JsError :=
  {| message := "Request failed with status code 404";
     status := Some 404; response_status := Some 404; code := None |}.

Definition timed_out : JsError :=
  {| message := "timeout of 10000ms exceeded";
     status := None; response_status := None; code := Some "ECONNABORTED" |}.

Definition fresh : Runtime := {| sent := []; logged := [] |}.

(** A network on which exactly the pages listed in [pages] exist; every
    other request is answered with [failure]. *)
Definition serving (pages : list (string * JsVal)) (failure : JsError) : Network :=
  {| settle := fun _ req =>
       match lookup (req_url req) pages with
       | Some body => Resolved body
       | None => Rejected failure
       end;
     overdue := fun _ _ => false |}.


End Examples.

(* ================================================================== *)
(** * Further vocabulary and samples *)
(* ================================================================== *)

Module More.

Import Chars Num Js Async EmbedExtractor.

(** The entry carries the index [k]. *)
Definition same_index (k : JsNum) (e : ServerEntry) : bool :=
  Num.eqb (server e) k.


(** The [data_id] of a listing entry can be converted to a text. *)
Definition readable_data_id (x : JsVal) : bool :=
  match get_prop x "data_id" with
  | Some w => convertible w
  | None => true
  end.

(** [v] is a text. *)
Definition is_text_value (v : JsVal) : bool :=
  match v with
  | VStr _ => true
  | _ => false
  end.

(** Own property of an object, [undefined] when absent. *)
Definition field (k : string) (fields : list (string * JsVal)) : JsVal :=
  match lookup k fields with
  | Some v => v
  | None => VUndef
  end.

(** A sample [BadRequestError]: the message, and status 400. *)
Definition bad_request (msg : string) : JsError :=
  {| message := msg; status := Some 400; response_status := None; code := None |}.

Definition spy_record : JsVal :=
  VObj [ ("id", VStr "spy-x-family-17977");
         ("data_id", VNum (JFin 17977));
         ("title", VStr "Spy x Family") ].

End More.

(* ================================================================== *)
(** * Strings *)
(* ================================================================== *)

Module StrFacts.

Import Chars Str.

Lemma append_assoc (a b c : string) : ((a ++ b) ++ c = a ++ (b ++ c))%string.
Proof. induction a as [|x a IH]; simpl; [reflexivity | now rewrite IH]. Qed.

Lemma append_nil_r (a : string) : (a ++ "" = a)%string.
Proof. induction a as [|x a IH]; simpl; [reflexivity | now rewrite IH]. Qed.

Lemma all_app p a b : all p (a ++ b) = all p a && all p b.
Proof.
  induction a as [|x a IH]; simpl; [reflexivity|].
  rewrite IH. now rewrite andb_assoc.
Qed.

Lemma span_all p a r :
  all p a = true ->
  match r with EmptyString => True | String c _ => p c = false end ->
  span p (a ++ r) = (a, r).
Proof.
  intros Ha Hr. induction a as [|x a IH]; simpl in *.
  - destruct r as [|c r]; simpl; [reflexivity | now rewrite Hr].
  - apply andb_true_iff in Ha. destruct Ha as [Hx Ha].
    rewrite Hx, (IH Ha). reflexivity.
Qed.

Lemma span_sound p s a r :
  span p s = (a, r) -> s = (a ++ r)%string /\ all p a = true.
Proof.
  revert a r. induction s as [|c s IH]; simpl; intros a r H.
  - inversion H. split; reflexivity.
  - destruct (p c) eqn:Hc.
    + destruct (span p s) as [a' r'] eqn:Hs. inversion H; subst.
      destruct (IH _ _ eq_refl) as [-> Ha]. simpl. now rewrite Hc, Ha.
    + inversion H; subst. split; reflexivity.
Qed.

Lemma dropWhile_head p c r : p c = false -> dropWhile p (String c r) = String c r.
Proof. intros H. simpl. now rewrite H. Qed.

(** Two readings of one string as a body, a separator and a run of
    characters free of separators agree. *)
Lemma split_last_unique p u v c1 c2 d1 d2 :
  p c1 = false -> p c2 = false -> all p d1 = true -> all p d2 = true ->
  (u ++ String c1 d1 = v ++ String c2 d2)%string ->
  u = v /\ c1 = c2 /\ d1 = d2.
Proof.
  intros H1 H2 Hd1 Hd2. revert v.
  induction u as [|x u IH]; intros [|y v] E; simpl in E.
  - inversion E. auto.
  - inversion E; subst. rewrite all_app in Hd1. simpl in Hd1.
    rewrite H2 in Hd1. rewrite andb_false_r in Hd1. discriminate.
  - inversion E; subst. rewrite all_app in Hd2. simpl in Hd2.
    rewrite H1 in Hd2. rewrite andb_false_r in Hd2. discriminate.
  - inversion E; subst. destruct (IH _ H3) as (-> & -> & ->). auto.
Qed.

End StrFacts.

(* ================================================================== *)
(** * Title normalisation *)
(* ================================================================== *)

Module Normalise.

Import Chars Str StrFacts Props EmbedExtractor.

Ltac by_cases_on_char c :=
  destruct c as [[|] [|] [|] [|] [|] [|] [|] [|]]; vm_compute; try reflexivity;
  try discriminate; auto.

Lemma lowered_is_not_upper c : is_upper (toLowerChar c) = false.
Proof. by_cases_on_char c. Qed.

Lemma upper_lowers_to_lower c : is_upper c = true -> is_lower (toLowerChar c) = true.
Proof. by_cases_on_char c. Qed.

Lemma kept_lowered_char c :
  is_upper c = false -> (is_word c || is_hyphen c) = true ->
  in_lower_digit_hyphen_underscore c = true.
Proof. by_cases_on_char c. Qed.

Lemma slug_char_is_kept c :
  in_lower_digit_hyphen_underscore c = true ->
  toLowerChar c = c /\ is_space c = false /\ (is_word c || is_hyphen c) = true.
Proof. by_cases_on_char c. Qed.

Lemma all_map_lower s : all (fun c => negb (is_upper c)) (toLowerCase s) = true.
Proof.
  unfold toLowerCase.
  induction s as [|c s IH]; simpl; [reflexivity|].
  now rewrite lowered_is_not_upper, IH.
Qed.

Lemma all_replace_ws (r : ascii -> bool) b s :
  r "-"%char = true -> all r s = true -> all r (replace_ws_from b s) = true.
Proof.
  intros Hh. revert b. induction s as [|c s IH]; intros b Hs; simpl in *.
  - reflexivity.
  - apply andb_true_iff in Hs. destruct Hs as [Hc Hs].
    destruct (is_space c); [destruct b|]; simpl; rewrite ?Hh, ?Hc; simpl; auto.
Qed.

Lemma all_strip s :
  all (fun c => negb (is_upper c)) s = true ->
  all in_lower_digit_hyphen_underscore (strip_non_word s) = true.
Proof.
  unfold strip_non_word.
  induction s as [|c s IH]; cbn [all filter]; intros H; [reflexivity|].
  apply andb_true_iff in H. destruct H as [Hc Hs].
  destruct (is_word c || is_hyphen c) eqn:K; cbn [all]; [|auto].
  rewrite kept_lowered_char; auto.
  now destruct (is_upper c).
Qed.

(** Words pass through [replace(/\s+/g, '-')] unchanged. *)
Lemma replace_ws_word w t :
  all not_space w = true ->
  replace_ws_from false (w ++ t) = (w ++ replace_ws_from false t)%string.
Proof.
  induction w as [|c w IH]; simpl; intros H; [reflexivity|].
  apply andb_true_iff in H. destruct H as [Hc Hw]. unfold not_space in Hc.
  destruct (is_space c); [discriminate|]. now rewrite IH.
Qed.

Lemma replace_ws_in_run g t :
  all is_space g = true ->
  replace_ws_from true (g ++ t) = replace_ws_from true t.
Proof.
  induction g as [|c g IH]; simpl; intros H; [reflexivity|].
  apply andb_true_iff in H. destruct H as [Hc Hg]. rewrite Hc. auto.
Qed.

Lemma replace_ws_after_run t :
  starts_without_space t = true -> replace_ws_from true t = replace_ws_from false t.
Proof.
  destruct t as [|c t]; simpl; intros H; [reflexivity|].
  destruct (is_space c); [discriminate | reflexivity].
Qed.

Lemma replace_ws_run w g t :
  all not_space w = true -> g <> EmptyString -> all is_space g = true ->
  starts_without_space t = true ->
  replace_ws_runs (w ++ g ++ t) = (w ++ "-" ++ replace_ws_runs t)%string.
Proof.
  intros Hw Hne Hg Ht. unfold replace_ws_runs.
  rewrite replace_ws_word by assumption. f_equal.
  destruct g as [|c g]; [congruence|]. simpl in *.
  apply andb_true_iff in Hg. destruct Hg as [Hc Hg]. rewrite Hc.
  rewrite replace_ws_in_run by assumption.
  now rewrite replace_ws_after_run.
Qed.

Lemma slug_is_fixed s :
  all in_lower_digit_hyphen_underscore s = true -> titleToSeriesId s = s.
Proof.
  unfold titleToSeriesId, replace_ws_runs, strip_non_word, toLowerCase.
  induction s as [|c s IH]; simpl; intros H; [reflexivity|].
  apply andb_true_iff in H. destruct H as [Hc Hs].
  destruct (slug_char_is_kept c Hc) as (-> & -> & K).
  simpl. rewrite K. now rewrite IH.
Qed.

End Normalise.

(** C7, as stated, fails: an underscore of the title survives, so the
    series identifier built from the title ["Re_Zero"] is not made of
    lower-case letters, digits and hyphens only. *)
Lemma underscore_survives_normalisation :
  EmbedExtractor.titleToSeriesId "Re_Zero" = "re_zero"
  /\ Str.all Props.in_lower_digit_hyphen (EmbedExtractor.titleToSeriesId "Re_Zero") <> true.
Proof. split; [reflexivity | vm_compute; discriminate]. Qed.

(** C7 (amended): in [getEmbedByDataIdAndEpisode] the series identifier of
    a title is the title in lower case, with every maximal run of white
    space replaced by one hyphen and then every character outside
    [[A-Za-z0-9_-]] removed.  It is made of lower-case letters, digits,
    hyphens and underscores only; a string already made of such
    characters is left as it is; and a run of white space [g] between a
    word [w] and a rest [t] becomes one hyphen. *)
Theorem title_to_series_id_normalises (title w g t : string) :
  EmbedExtractor.titleToSeriesId title
    = Str.strip_non_word (Str.replace_ws_runs (Str.toLowerCase title))
  /\ Str.all Props.in_lower_digit_hyphen_underscore
       (EmbedExtractor.titleToSeriesId title) = true
  /\ (Str.all Props.in_lower_digit_hyphen_underscore title = true ->
      EmbedExtractor.titleToSeriesId title = title)
  /\ (Str.all Props.not_space w = true ->
      g <> "" -> Str.all Chars.is_space g = true ->
      Props.starts_without_space t = true ->
      Str.replace_ws_runs (w ++ g ++ t) = w ++ "-" ++ Str.replace_ws_runs t).
Proof.
  split; [reflexivity|]. split; [|split].
  - unfold EmbedExtractor.titleToSeriesId.
    apply Normalise.all_strip.
    apply Normalise.all_replace_ws; [reflexivity|].
    apply Normalise.all_map_lower.
  - apply Normalise.slug_is_fixed.
  - apply Normalise.replace_ws_run.
Qed.

Lemma title_to_series_id_normalises_witness :
  EmbedExtractor.titleToSeriesId "one-piece" = "one-piece"
  /\ Str.replace_ws_runs ("spy" ++ "  " ++ "x family")
     = "spy" ++ "-" ++ Str.replace_ws_runs "x family".
Proof.
  destruct (title_to_series_id_normalises "one-piece" "spy" "  " "x family")
    as (_ & _ & Hfix & Hrun).
  split.
  - apply Hfix. reflexivity.
  - apply Hrun; [reflexivity | discriminate | reflexivity | reflexivity].
Defined.

(* ================================================================== *)
(** * Numbers read from digits *)
(* ================================================================== *)

Module NumFacts.

Import Chars Str StrFacts Num Props.

Lemma digit_is_not_space c : is_digit c = true -> is_space c = false.
Proof.
  destruct c as [[|] [|] [|] [|] [|] [|] [|] [|]]; vm_compute; congruence.
Qed.

Lemma digit_is_no_sign c (r : string) :
  is_digit c = true ->
  match String c r with
  | String "-" r' => (true, r')
  | String "+" r' => (false, r')
  | _ => (false, String c r)
  end = (false, String c r).
Proof.
  destruct c as [[|] [|] [|] [|] [|] [|] [|] [|]]; intros H;
    try reflexivity; vm_compute in H; discriminate H.
Qed.

Lemma digit_char_value c d :
  is_digit c = true -> exists d', uint_of_char c (Some d) = Some d'.
Proof.
  destruct c as [[|] [|] [|] [|] [|] [|] [|] [|]]; intros H;
    try (vm_compute in H; discriminate H); simpl; eauto.
Qed.

Lemma digits_have_a_value ds :
  all is_digit ds = true -> exists n, digits_value ds = Some n /\ 0 <= n.
Proof.
  intros H. unfold digits_value.
  assert (K : exists d, NilEmpty.uint_of_string ds = Some d).
  { induction ds as [|c r IH]; simpl in *; [eauto|].
    apply andb_true_iff in H. destruct H as [Hc Hr].
    destruct (IH Hr) as [d ->]. now apply digit_char_value. }
  destruct K as [d ->]. eexists. split; [reflexivity | lia].
Qed.

Lemma round_small n : n < 2 ^ 53 -> round_to_double n = JFin n.
Proof.
  intros H. unfold round_to_double.
  destruct (Z.ltb_spec n (2 ^ 53)); [reflexivity | lia].
Qed.

(** Above [2^53] the rounded value stays at or above [2^53]. *)
Lemma round_large n v :
  2 ^ 53 <= n -> round_to_double n = JFin v -> 2 ^ 53 <= v.
Proof.
  intros Hn. unfold round_to_double.
  destruct (Z.ltb_spec n (2 ^ 53)) as [|_]; [lia|].
  set (e := Z.log2 n - 52).
  assert (Hpos : 0 < n) by (assert (0 < 2 ^ 53) by (apply Z.pow_pos_nonneg; lia); lia).
  assert (Hlog : 53 <= Z.log2 n).
  { apply Z.log2_le_pow2; assumption. }
  assert (He : 0 <= e) by (unfold e; lia).
  assert (Hp : 0 < 2 ^ e) by (apply Z.pow_pos_nonneg; lia).
  assert (Hq : 2 ^ 52 <= n / 2 ^ e).
  { apply Z.div_le_lower_bound; [assumption|].
    rewrite <- Z.pow_add_r by lia.
    replace (e + 52) with (Z.log2 n) by (unfold e; lia).
    apply Z.log2_spec; assumption. }
  assert (Hv : forall q', n / 2 ^ e <= q' -> 2 ^ 53 <= q' * 2 ^ e).
  { intros q' Hq'.
    assert (H1 : 2 ^ 1 <= 2 ^ e) by (apply Z.pow_le_mono_r; lia).
    assert (H2 : 0 <= 2 ^ 52) by (apply Z.pow_nonneg; lia).
    assert (H3 : 2 ^ 52 * 2 ^ 1 <= q' * 2 ^ e).
    { apply Z.mul_le_mono_nonneg; lia. }
    rewrite <- Z.pow_add_r in H3 by lia. exact H3. }
  match goal with
  | |- (if ?c then _ else JFin (?q * _)) = _ -> _ =>
      destruct c; [discriminate|]; intros [= <-]; apply Hv
  end.
  destruct (_ <? _); [lia|]. destruct (_ <? _); [lia|]. destruct (Z.even _); lia.
Qed.

Lemma round_is_index n : 0 <= n -> is_index (round_to_double n).
Proof.
  intros Hn. destruct (Z.lt_ge_cases n (2 ^ 53)) as [H|H].
  - rewrite round_small by assumption. exact Hn.
  - destruct (round_to_double n) as [|neg|v] eqn:E.
    + unfold round_to_double in E.
      destruct (n <? 2 ^ 53); [discriminate|].
      destruct (2 ^ 1024 <=? _); discriminate.
    + unfold round_to_double in E.
      destruct (n <? 2 ^ 53); [discriminate|].
      destruct (2 ^ 1024 <=? _); [|discriminate]. now inversion E.
    + simpl. pose proof (round_large n v H E).
      assert (0 < 2 ^ 53) by (apply Z.pow_pos_nonneg; lia). lia.
Qed.

(** [parseInt] of a run of digits. *)
Lemma parseInt10_digits ds :
  ds <> EmptyString -> all is_digit ds = true ->
  exists n, digits_value ds = Some n /\ 0 <= n
            /\ parseInt10 ds = round_to_double n.
Proof.
  intros Hne Hds. destruct (digits_have_a_value ds Hds) as (n & Hn & Hpos).
  exists n. split; [assumption|]. split; [assumption|].
  destruct ds as [|c r]; [congruence|].
  pose proof Hds as Hds'. simpl in Hds'. apply andb_true_iff in Hds'.
  destruct Hds' as [Hc Hr].
  unfold parseInt10.
  rewrite (dropWhile_head is_space c r (digit_is_not_space c Hc)).
  rewrite (digit_is_no_sign c r Hc).
  pose proof (span_all is_digit (String c r) EmptyString Hds I) as Hspan.
  rewrite append_nil_r in Hspan. rewrite Hspan, Hn.
  pose proof (round_is_index n Hpos) as Hidx.
  destruct (round_to_double n) as [|neg|v]; simpl in *; try reflexivity.
  now subst.
Qed.

Lemma parseInt10_is_index ds :
  ds <> EmptyString -> all is_digit ds = true -> is_index (parseInt10 ds).
Proof.
  intros Hne Hds. destruct (parseInt10_digits ds Hne Hds) as (n & _ & Hn & ->).
  now apply round_is_index.
Qed.

End NumFacts.

(* ================================================================== *)
(** * The page parser *)
(* ================================================================== *)

Module ParserFacts.

Import Chars Str StrFacts Num NumFacts Props EmbedExtractor.

Lemma match_options_eq s :
  match_options s =
  let next := match s with
              | EmptyString => None
              | String _ r => match_options r
              end in
  match strip_prefix "options-" s with
  | Some rest =>
      match span is_digit rest with
      | (String d ds, _) => Some (String d ds)
      | (EmptyString, _) => next
      end
  | None => next
  end.
Proof. destruct s; reflexivity. Qed.

(** The capture of [/options-(\d+)/] is a non-empty run of digits. *)
Lemma match_options_digits s ds :
  match_options s = Some ds -> ds <> EmptyString /\ all is_digit ds = true.
Proof.
  induction s as [|c s IH]; rewrite match_options_eq; cbv zeta.
  - destruct (strip_prefix "options-" ""); [|discriminate].
    destruct (span is_digit s) as [[|d r] t] eqn:E; [discriminate|].
    intros [= <-]. split; [discriminate|]. now destruct (span_sound _ _ _ _ E).
  - destruct (strip_prefix "options-" (String c s)) as [rest|]; [|exact IH].
    destruct (span is_digit rest) as [[|d r] t] eqn:E; [exact IH|].
    intros [= <-]. split; [discriminate|]. now destruct (span_sound _ _ _ _ E).
Qed.

Lemma first_usable_cases a b u :
  first_usable a b = u -> u <> EmptyString ->
  a = Some u \/ ((a = None \/ a = Some EmptyString) /\ b = Some u).
Proof.
  destruct a as [[|c r]|]; destruct b as [[|c' r']|]; simpl; intros <- H;
    auto; congruence.
Qed.

(** What the callback of [each] pushes, and when. *)
Lemma extract_option_some doc el e :
  extract_option doc el = Some e ->
  exists digits,
    match_options (attr_id el) = Some digits
    /\ server e = parseInt10 digits
    /\ url e = first_usable (iframe_src el) (iframe_data_src el)
    /\ url e <> EmptyString
    /\ (trim (server_label doc (attr_id el)) = EmptyString ->
        name e = ("Server " ++ Num.to_string (server e))%string)
    /\ (trim (server_label doc (attr_id el)) <> EmptyString ->
        name e = trim (server_label doc (attr_id el))).
Proof.
  unfold extract_option.
  destruct (match_options (attr_id el)) as [digits|]; [|discriminate].
  destruct (first_usable (iframe_src el) (iframe_data_src el)) as [|c r] eqn:U;
    [discriminate|].
  intros [= <-]. exists digits. cbn [server url name].
  repeat split; try discriminate.
  - intros ->. reflexivity.
  - destruct (trim _); [congruence | reflexivity].
Qed.

Lemma extract_option_usable doc el :
  usable el = true <-> exists e, extract_option doc el = Some e.
Proof.
  unfold usable, extract_option.
  destruct (match_options (attr_id el)); [|split; [discriminate | intros [? [=]]]].
  destruct (first_usable _ _); split; eauto; try discriminate.
  intros [? [=]].
Qed.

Lemma in_collect doc els e :
  In e (collect doc els) <-> exists el, In el els /\ extract_option doc el = Some e.
Proof.
  induction els as [|el r IH]; simpl.
  - split; [tauto | intros (? & [] & _)].
  - destruct (extract_option doc el) as [x|] eqn:E; simpl; rewrite IH; split.
    + intros [<-|(el' & Hin & H)]; eauto.
    + intros (el' & [<-|Hin] & H); [left; congruence | eauto].
    + intros (el' & Hin & H); eauto.
    + intros (el' & [<-|Hin] & H); [congruence | eauto].
Qed.

Lemma length_collect doc els :
  List.length (collect doc els) = List.length (List.filter usable els).
Proof.
  induction els as [|el r IH]; simpl; [reflexivity|].
  destruct (extract_option doc el) as [x|] eqn:E.
  - assert (U : usable el = true) by (apply (extract_option_usable doc); eauto).
    rewrite U. simpl. now rewrite IH.
  - destruct (usable el) eqn:U; [|exact IH].
    apply (extract_option_usable doc) in U. destruct U as [? U]. congruence.
Qed.

(** ** Sorting *)

Lemma insert_perm x l : Permutation (x :: l) (insert x l).
Proof.
  induction l as [|y r IH]; simpl; [reflexivity|].
  destruct (_ <=? 0); [reflexivity|].
  rewrite perm_swap. now apply perm_skip.
Qed.

Lemma sort_perm l : Permutation l (sort l).
Proof.
  induction l as [|x r IH]; simpl; [constructor|].
  rewrite <- insert_perm. now apply perm_skip.
Qed.

Lemma comparator_is_order a b :
  is_index a -> is_index b -> (sub_sign a b <=? 0) = Num.leb a b.
Proof.
  destruct a as [|[|]|x], b as [|[|]|y]; simpl; try tauto; try discriminate;
    try reflexivity.
  intros _ _. destruct (Z.leb_spec x y), (Z.leb_spec (Z.sgn (x - y)) 0); lia.
Qed.

Lemma index_le_trans a b c :
  is_index (server a) -> is_index (server b) -> is_index (server c) ->
  index_le a b -> index_le b c -> index_le a c.
Proof.
  unfold index_le.
  destruct (server a) as [|[|]|x], (server b) as [|[|]|y], (server c) as [|[|]|z];
    simpl; try tauto; try discriminate; try reflexivity.
  intros _ _ _ H1 H2. apply Z.leb_le in H1, H2. apply Z.leb_le. lia.
Qed.

Lemma index_le_total a b :
  is_index (server a) -> is_index (server b) ->
  Num.leb (server a) (server b) = false -> index_le b a.
Proof.
  unfold index_le.
  destruct (server a) as [|[|]|x], (server b) as [|[|]|y];
    simpl; try tauto; try discriminate; try reflexivity.
  intros _ _ H. apply Z.leb_gt in H. apply Z.leb_le. lia.
Qed.

Lemma insert_sorted x l :
  is_index (server x) -> Forall (fun e => is_index (server e)) l ->
  StronglySorted index_le l -> StronglySorted index_le (insert x l).
Proof.
  intros Hx Hl Hs. induction Hs as [|y r Hr IH Hy]; simpl.
  - repeat constructor.
  - inversion Hl as [|? ? Iy Ir]; subst.
    rewrite comparator_is_order by assumption.
    destruct (Num.leb (server x) (server y)) eqn:E.
    + constructor; [now constructor|]. constructor; [exact E|].
      rewrite Forall_forall in *. intros z Hz.
      apply (index_le_trans x y z); auto.
    + constructor; [auto|].
      assert (P : Permutation (x :: r) (insert x r)) by apply insert_perm.
      rewrite Forall_forall in *. intros z Hz.
      apply (Permutation_in _ (Permutation_sym P)) in Hz.
      destruct Hz as [<-|Hz]; [now apply index_le_total | auto].
Qed.

Lemma sort_sorted l :
  Forall (fun e => is_index (server e)) l -> StronglySorted index_le (sort l).
Proof.
  induction l as [|x r IH]; simpl; intros H; [constructor|].
  inversion H; subst. apply insert_sorted; auto.
  rewrite Forall_forall in *. intros z Hz.
  apply (Permutation_in _ (Permutation_sym (sort_perm r))) in Hz. auto.
Qed.

Lemma in_servers doc e :
  In e (servers (extract doc)) <->
  exists el, In el (option_divs doc) /\ extract_option doc el = Some e.
Proof.
  rewrite <- in_collect. cbn [extract servers]. split; intros H.
  - exact (Permutation_in _ (Permutation_sym (sort_perm _)) H).
  - exact (Permutation_in _ (sort_perm _) H).
Qed.

Lemma servers_are_indexed doc :
  Forall (fun e => is_index (server e)) (collect doc (option_divs doc)).
Proof.
  apply Forall_forall. intros e He. apply in_collect in He.
  destruct He as (el & _ & H).
  destruct (extract_option_some _ _ _ H) as (ds & Hm & -> & _).
  destruct (match_options_digits _ _ Hm). now apply parseInt10_is_index.
Qed.

End ParserFacts.

(** C9: the servers of every result of [extract] are sorted by ascending
    index, every name is non-empty, and an entry whose tab label is absent
    or blank is named ["Server "] followed by its index. *)
Theorem extract_sorted_and_named (doc : EmbedExtractor.Document) :
  StronglySorted Props.index_le (EmbedExtractor.servers (EmbedExtractor.extract doc))
  /\ Forall (fun e => EmbedExtractor.name e <> "")
       (EmbedExtractor.servers (EmbedExtractor.extract doc))
  /\ (forall e, In e (EmbedExtractor.servers (EmbedExtractor.extract doc)) ->
      exists el,
        In el (EmbedExtractor.option_divs doc)
        /\ EmbedExtractor.extract_option doc el = Some e
        /\ (Str.trim (EmbedExtractor.server_label doc (EmbedExtractor.attr_id el)) = "" ->
            EmbedExtractor.name e
            = "Server " ++ Num.to_string (EmbedExtractor.server e))
        /\ (Str.trim (EmbedExtractor.server_label doc (EmbedExtractor.attr_id el)) <> "" ->
            EmbedExtractor.name e
            = Str.trim (EmbedExtractor.server_label doc (EmbedExtractor.attr_id el)))).
Proof.
  assert (Hnamed : forall e,
    In e (EmbedExtractor.servers (EmbedExtractor.extract doc)) ->
    exists el,
      In el (EmbedExtractor.option_divs doc)
      /\ EmbedExtractor.extract_option doc el = Some e
      /\ (Str.trim (EmbedExtractor.server_label doc (EmbedExtractor.attr_id el)) = "" ->
          EmbedExtractor.name e
          = "Server " ++ Num.to_string (EmbedExtractor.server e))
      /\ (Str.trim (EmbedExtractor.server_label doc (EmbedExtractor.attr_id el)) <> "" ->
          EmbedExtractor.name e
          = Str.trim (EmbedExtractor.server_label doc (EmbedExtractor.attr_id el)))).
  { intros e He. apply ParserFacts.in_servers in He. destruct He as (el & Hin & H).
    exists el. split; [assumption|]. split; [assumption|].
    destruct (ParserFacts.extract_option_some _ _ _ H) as (ds & _ & _ & _ & _ & Hb & Hl).
    split; assumption. }
  split; [|split].
  - apply ParserFacts.sort_sorted, ParserFacts.servers_are_indexed.
  - apply Forall_forall. intros e He.
    destruct (Hnamed e He) as (el & _ & _ & Hb & Hl).
    destruct (Str.trim (EmbedExtractor.server_label doc (EmbedExtractor.attr_id el)))
      as [|c r] eqn:T.
    + rewrite (Hb eq_refl). discriminate.
    + rewrite Hl by discriminate. discriminate.
  - exact Hnamed.
Qed.

Lemma extract_sorted_and_named_witness :
  EmbedExtractor.servers (EmbedExtractor.extract Examples.sample_document)
  = [ {| EmbedExtractor.server := Num.JFin 0; EmbedExtractor.name := "Server 0";
         EmbedExtractor.url := "https://play.example/e/0" |};
      {| EmbedExtractor.server := Num.JFin 1; EmbedExtractor.name := "Hindi";
         EmbedExtractor.url := "https://play.example/e/1" |} ]
  /\ StronglySorted Props.index_le
       (EmbedExtractor.servers (EmbedExtractor.extract Examples.sample_document)).
Proof.
  split; [reflexivity|].
  exact (proj1 (extract_sorted_and_named Examples.sample_document)).
Defined.

(** C10: [extract] emits an entry exactly for the elements whose id
    matches [options-N] and whose iframe gives a non-empty [src] or, failing
    that, a non-empty [data-src]; every other element is skipped, so every
    address in the result is non-empty.  [extract] is a total function:
    no element makes it fail. *)
Theorem extract_emits_only_usable_blocks (doc : EmbedExtractor.Document) :
  Forall (fun e => EmbedExtractor.url e <> "")
    (EmbedExtractor.servers (EmbedExtractor.extract doc))
  /\ (forall e,
        In e (EmbedExtractor.servers (EmbedExtractor.extract doc)) <->
        exists el, In el (EmbedExtractor.option_divs doc)
                   /\ EmbedExtractor.extract_option doc el = Some e)
  /\ (forall el e,
        EmbedExtractor.extract_option doc el = Some e ->
        exists digits,
          EmbedExtractor.match_options (EmbedExtractor.attr_id el) = Some digits
          /\ digits <> "" /\ Str.all Chars.is_digit digits = true
          /\ EmbedExtractor.server e = Num.parseInt10 digits
          /\ EmbedExtractor.url e <> ""
          /\ (EmbedExtractor.iframe_src el = Some (EmbedExtractor.url e)
              \/ ((EmbedExtractor.iframe_src el = None
                   \/ EmbedExtractor.iframe_src el = Some "")
                  /\ EmbedExtractor.iframe_data_src el = Some (EmbedExtractor.url e))))
  /\ (forall el, Props.usable el = false -> EmbedExtractor.extract_option doc el = None)
  /\ List.length (EmbedExtractor.servers (EmbedExtractor.extract doc))
     = List.length (List.filter Props.usable (EmbedExtractor.option_divs doc)).
Proof.
  assert (Hsome : forall el e,
        EmbedExtractor.extract_option doc el = Some e ->
        exists digits,
          EmbedExtractor.match_options (EmbedExtractor.attr_id el) = Some digits
          /\ digits <> "" /\ Str.all Chars.is_digit digits = true
          /\ EmbedExtractor.server e = Num.parseInt10 digits
          /\ EmbedExtractor.url e <> ""
          /\ (EmbedExtractor.iframe_src el = Some (EmbedExtractor.url e)
              \/ ((EmbedExtractor.iframe_src el = None
                   \/ EmbedExtractor.iframe_src el = Some "")
                  /\ EmbedExtractor.iframe_data_src el = Some (EmbedExtractor.url e)))).
  { intros el e H.
    destruct (ParserFacts.extract_option_some _ _ _ H) as (ds & Hm & Hs & Hu & Hne & _).
    destruct (ParserFacts.match_options_digits _ _ Hm) as [Hd1 Hd2].
    exists ds. repeat (split; [assumption|]).
    apply ParserFacts.first_usable_cases; auto. }
  split; [|split; [|split; [|split]]].
  - apply Forall_forall. intros e He. apply ParserFacts.in_servers in He.
    destruct He as (el & _ & H). destruct (Hsome _ _ H) as (ds & _ & _ & _ & _ & Hne & _).
    exact Hne.
  - apply ParserFacts.in_servers.
  - exact Hsome.
  - intros el U. destruct (EmbedExtractor.extract_option doc el) as [e|] eqn:E;
      [|reflexivity].
    assert (Props.usable el = true) by (apply (ParserFacts.extract_option_usable doc); eauto).
    congruence.
  - cbn [EmbedExtractor.extract EmbedExtractor.servers].
    rewrite <- (Permutation_length (ParserFacts.sort_perm _)).
    apply ParserFacts.length_collect.
Qed.

Lemma extract_emits_only_usable_blocks_witness :
  EmbedExtractor.extract_option Examples.sample_document
    {| EmbedExtractor.attr_id := "options-extra";
       EmbedExtractor.iframe_src := Some "https://play.example/e/x";
       EmbedExtractor.iframe_data_src := None |} = None
  /\ EmbedExtractor.extract_option Examples.sample_document
       {| EmbedExtractor.attr_id := "options-2";
          EmbedExtractor.iframe_src := None;
          EmbedExtractor.iframe_data_src := None |} = None.
Proof.
  destruct (extract_emits_only_usable_blocks Examples.sample_document)
    as (_ & _ & _ & Hskip & _).
  split; apply Hskip; reflexivity.
Defined.

(* ================================================================== *)
(** * The episode identifier codec *)
(* ================================================================== *)

Module CodecFacts.

Import Chars Str StrFacts Num NumFacts Props EmbedExtractor.

Lemma match_season_episode_complete a b :
  a <> EmptyString -> b <> EmptyString ->
  all is_digit a = true -> all is_digit b = true ->
  match_season_episode ("-" ++ a ++ "x" ++ b) = Some (a, b).
Proof.
  intros Ha Hb Da Db. cbn [append match_season_episode].
  rewrite (span_all is_digit a (String "x" b) Da eq_refl).
  destruct a as [|x a]; [congruence|].
  pose proof (span_all is_digit b EmptyString Db I) as Hs.
  rewrite append_nil_r in Hs. rewrite Hs.
  destruct b as [|y b]; [congruence | reflexivity].
Qed.

Lemma match_season_episode_sound r a b :
  match_season_episode r = Some (a, b) ->
  r = ("-" ++ a ++ "x" ++ b)%string
  /\ a <> EmptyString /\ b <> EmptyString
  /\ all is_digit a = true /\ all is_digit b = true.
Proof.
  unfold match_season_episode.
  destruct r as [|c r1]; [discriminate|].
  destruct (Ascii.eqb_spec c "-") as [->|Hc].
  2:{ destruct c as [[|] [|] [|] [|] [|] [|] [|] [|]]; try discriminate.
      now contradiction Hc. }
  destruct (span is_digit r1) as [d1 r2] eqn:E1.
  destruct d1 as [|x d1]; [discriminate|].
  destruct r2 as [|c2 r3]; [discriminate|].
  destruct (Ascii.eqb_spec c2 "x") as [->|Hc2].
  2:{ destruct c2 as [[|] [|] [|] [|] [|] [|] [|] [|]]; try discriminate.
      now contradiction Hc2. }
  destruct (span is_digit r3) as [d2 r4] eqn:E2.
  destruct d2 as [|y d2]; [discriminate|].
  destruct r4; [|discriminate].
  intros [= <- <-].
  destruct (span_sound _ _ _ _ E1) as [-> D1].
  destruct (span_sound _ _ _ _ E2) as [-> D2].
  rewrite append_nil_r.
  repeat split; try discriminate; assumption.
Qed.

(** With the suffix [-<digits>x<digits>] in place, nothing but the empty
    string can stand before another reading of it. *)
Lemma suffix_starts_once q a b a' b' :
  all is_digit a = true -> all is_digit b = true ->
  all is_digit a' = true -> all is_digit b' = true ->
  (q ++ "-" ++ a ++ "x" ++ b = "-" ++ a' ++ "x" ++ b')%string ->
  q = EmptyString.
Proof.
  intros Da Db Da' Db' E.
  assert (E1 : ((q ++ "-" ++ a) ++ String "x" b
                = ("-" ++ a') ++ String "x" b')%string).
  { rewrite !append_assoc. exact E. }
  apply (split_last_unique is_digit) in E1; try assumption; try reflexivity.
  destruct E1 as (E2 & _ & _).
  assert (E3 : (q ++ String "-" a = "" ++ String "-" a')%string) by exact E2.
  apply (split_last_unique is_digit) in E3; try assumption; try reflexivity.
  now destruct E3.
Qed.

Lemma match_episode_sound s p a b :
  match_episode s = Some (p, a, b) ->
  s = (p ++ "-" ++ a ++ "x" ++ b)%string
  /\ p <> EmptyString /\ no_line_terminator p = true
  /\ a <> EmptyString /\ b <> EmptyString
  /\ all is_digit a = true /\ all is_digit b = true.
Proof.
  revert p. induction s as [|c s IH]; intros p; cbn [match_episode]; [discriminate|].
  destruct (is_line_terminator c) eqn:L; [discriminate|].
  destruct (match_season_episode s) as [[a0 b0]|] eqn:M.
  - intros [= <- <- <-].
    destruct (match_season_episode_sound _ _ _ M) as (-> & ? & ? & ? & ?).
    unfold no_line_terminator. cbn [all]. rewrite L.
    repeat split; try discriminate; assumption.
  - destruct (match_episode s) as [[[p0 a0] b0]|]; [|discriminate].
    intros [= <- <- <-].
    destruct (IH p0 eq_refl) as (-> & ? & Hp & ? & ? & ? & ?).
    unfold no_line_terminator in *. cbn [all]. rewrite L, Hp.
    repeat split; try discriminate; assumption.
Qed.

Lemma match_episode_cons c r :
  match_episode (String c r) =
  if is_line_terminator c then None
  else match match_season_episode r with
       | Some (a, b) => Some (String c EmptyString, a, b)
       | None => match match_episode r with
                 | Some (p, a, b) => Some (String c p, a, b)
                 | None => None
                 end
       end.
Proof. reflexivity. Qed.

Lemma match_episode_complete p a b :
  p <> EmptyString -> no_line_terminator p = true ->
  a <> EmptyString -> b <> EmptyString ->
  all is_digit a = true -> all is_digit b = true ->
  match_episode (p ++ "-" ++ a ++ "x" ++ b) = Some (p, a, b).
Proof.
  intros Hp Hl Ha Hb Da Db.
  pose proof (match_season_episode_complete a b Ha Hb Da Db) as Hfull.
  set (rest := ("-" ++ a ++ "x" ++ b)%string) in *.
  induction p as [|c p IH]; [congruence|].
  unfold no_line_terminator in Hl. cbn [all] in Hl.
  apply andb_true_iff in Hl. destruct Hl as [Hc Hl].
  apply negb_true_iff in Hc.
  change (String c p ++ rest)%string with (String c (p ++ rest)).
  rewrite match_episode_cons, Hc.
  destruct p as [|c' p'].
  - change ("" ++ rest)%string with rest. now rewrite Hfull.
  - destruct (match_season_episode (String c' p' ++ rest)) as [[a' b']|] eqn:M.
    + destruct (match_season_episode_sound _ _ _ M) as (E & _ & _ & Da' & Db').
      apply suffix_starts_once in E; try assumption. discriminate.
    + rewrite IH; [reflexivity | discriminate | exact Hl].
Qed.

(** ** Numerals *)

Lemma canonical_is_digits s :
  canonical_numeral s = true -> s <> EmptyString /\ all is_digit s = true.
Proof.
  destruct s as [|c r]; cbn [canonical_numeral all]; [discriminate|].
  intros H. apply andb_true_iff in H. destruct H as [H Hr].
  apply andb_true_iff in H. destruct H as [Hc _].
  split; [discriminate|]. now rewrite Hc, Hr.
Qed.

Lemma canonical_is_normal s d :
  canonical_numeral s = true -> NilEmpty.uint_of_string s = Some d ->
  Decimal.unorm d = d /\ d <> Decimal.D0 Decimal.Nil.
Proof.
  destruct s as [|c r]; cbn [canonical_numeral]; [discriminate|].
  intros H. apply andb_true_iff in H. destruct H as [H _].
  apply andb_true_iff in H. destruct H as [Hc Hz].
  cbn [NilEmpty.uint_of_string].
  destruct (NilEmpty.uint_of_string r) as [d'|]; [|discriminate].
  destruct c as [[|] [|] [|] [|] [|] [|] [|] [|]];
    try (vm_compute in Hc; discriminate Hc);
    try (vm_compute in Hz; discriminate Hz);
    cbn [uint_of_char]; intros [= <-]; split; try reflexivity; discriminate.
Qed.

Lemma decimal_of_canonical s n :
  canonical_numeral s = true -> digits_value s = Some n ->
  decimal n = s /\ 0 < n.
Proof.
  intros Hc. unfold digits_value, decimal.
  destruct (NilEmpty.uint_of_string s) as [d|] eqn:E; [|discriminate].
  intros [= <-]. destruct (canonical_is_normal _ _ Hc E) as [Hn Hz].
  rewrite N2Z.id, DecimalN.Unsigned.to_of, Hn.
  split; [now apply NilEmpty.sus|].
  destruct (N.of_uint d) eqn:V; [|lia].
  exfalso. apply Hz. rewrite <- Hn, <- DecimalN.Unsigned.to_of, V. reflexivity.
Qed.

Lemma shortest_S m x :
  shortest (S m) x =
  let p := 10 ^ Z.of_nat (S m) in
  let lo := (x / p) * p in
  let hi := lo + p in
  let lo_ok := Num.eqb (round_to_double lo) (JFin x) in
  let hi_ok := Num.eqb (round_to_double hi) (JFin x) in
  if lo_ok && hi_ok then
    if x - lo <? hi - x then lo
    else if hi - x <? x - lo then hi
    else if Z.even (x / p) then lo else hi
  else if lo_ok then lo
  else if hi_ok then hi
  else shortest m x.
Proof. reflexivity. Qed.

(** A safe integer is its own shortest numeral. *)
Lemma shortest_small m x : 0 <= x < 2 ^ 53 -> shortest m x = x.
Proof.
  intros Hx. induction m as [|m IH]; [reflexivity|].
  rewrite shortest_S. cbv zeta.
  set (p := 10 ^ Z.of_nat (S m)).
  assert (Hp : 0 < p) by (apply Z.pow_pos_nonneg; lia).
  pose proof (Z.mul_div_le x p Hp) as Hlo.
  pose proof (Z.mod_pos_bound x p Hp) as Hmod.
  pose proof (Z.div_mod x p ltac:(lia)) as Hdm.
  assert (Hlo0 : 0 <= x / p * p).
  { apply Z.mul_nonneg_nonneg; [apply Z.div_pos|]; lia. }
  assert (Hhi : x < x / p * p + p) by lia.
  rewrite (round_small (x / p * p)) by lia.
  assert (Hno : Num.eqb (round_to_double (x / p * p + p)) (JFin x) = false).
  { destruct (Z.lt_ge_cases (x / p * p + p) (2 ^ 53)) as [H|H].
    - rewrite round_small by assumption. cbn [Num.eqb]. apply Z.eqb_neq. lia.
    - destruct (round_to_double (x / p * p + p)) as [|neg|v] eqn:E;
        try reflexivity.
      pose proof (round_large _ _ H E). cbn [Num.eqb]. apply Z.eqb_neq. lia. }
  rewrite Hno, andb_false_r. cbn [Num.eqb].
  destruct (Z.eqb_spec (x / p * p) x); [assumption | exact IH].
Qed.

Lemma to_string_safe s n :
  canonical_numeral s = true -> digits_value s = Some n -> n < 2 ^ 53 ->
  Num.to_string (JFin n) = s.
Proof.
  intros Hc Hv Hn. destruct (decimal_of_canonical s n Hc Hv) as [Hd Hpos].
  assert (M : magnitude_to_string n = s).
  { unfold magnitude_to_string. rewrite shortest_small by lia.
    assert (S21 : (n <? 10 ^ 21) = true).
    { apply Z.ltb_lt. assert (2 ^ 53 < 10 ^ 21) by reflexivity. lia. }
    rewrite S21. exact Hd. }
  destruct n as [|q|q]; try lia. exact M.
Qed.

Lemma parseInt10_safe s n :
  canonical_numeral s = true -> digits_value s = Some n -> n < 2 ^ 53 ->
  parseInt10 s = JFin n.
Proof.
  intros Hc Hv Hn. destruct (canonical_is_digits s Hc) as [Hne Hd].
  destruct (parseInt10_digits s Hne Hd) as (m & Hm & _ & ->).
  assert (m = n) by congruence. subst. now apply round_small.
Qed.

End CodecFacts.

(** C5, as stated, fails: the season numeral 9007199254740993 is positive
    and has no leading zero, yet [parseInt] rounds it to the double
    9007199254740992, and formatting the parsed fields gives another
    identifier. *)
Lemma roundtrip_fails_above_two_to_53 :
  Props.canonical_numeral "9007199254740993" = true
  /\ Props.canonical_numeral "1" = true
  /\ exists p,
      EmbedExtractor.parseEpisodeId ("a" ++ "-" ++ "9007199254740993" ++ "x" ++ "1")
      = Some p
      /\ EmbedExtractor.compositeId (EmbedExtractor.animeTitle p)
           (EmbedExtractor.season p) (EmbedExtractor.episode p)
         = "a-9007199254740992x1"
      /\ EmbedExtractor.compositeId (EmbedExtractor.animeTitle p)
           (EmbedExtractor.season p) (EmbedExtractor.episode p)
         <> "a" ++ "-" ++ "9007199254740993" ++ "x" ++ "1".
Proof.
  split; [reflexivity|]. split; [reflexivity|].
  eexists. split; [vm_compute; reflexivity|].
  split; [vm_compute; reflexivity | vm_compute; discriminate].
Qed.

(** C5 (amended): for a slug that is not empty and holds no line
    terminator, and for season and episode numerals that are positive,
    without leading zeros and at most [2^53 - 1], [parseEpisodeId] succeeds
    on ["<slug>-<season>x<episode>"], gives back the slug and the two
    values, and formatting its fields reproduces the identifier.  On a
    string that does not end with [-<digits>x<digits>], [parseEpisodeId]
    returns null. *)
Theorem parse_then_format_roundtrip (slug s e other : string) :
  (slug <> "" -> Props.no_line_terminator slug = true ->
   Props.canonical_numeral s = true -> Props.canonical_numeral e = true ->
   Props.safe_numeral s = true -> Props.safe_numeral e = true ->
   exists p ns ne,
     EmbedExtractor.parseEpisodeId (slug ++ "-" ++ s ++ "x" ++ e) = Some p
     /\ EmbedExtractor.animeTitle p = slug
     /\ Num.digits_value s = Some ns /\ EmbedExtractor.season p = Num.JFin ns
     /\ Num.digits_value e = Some ne /\ EmbedExtractor.episode p = Num.JFin ne
     /\ EmbedExtractor.compositeId (EmbedExtractor.animeTitle p)
          (EmbedExtractor.season p) (EmbedExtractor.episode p)
        = slug ++ "-" ++ s ++ "x" ++ e)
  /\ (~ Props.has_episode_suffix other -> EmbedExtractor.parseEpisodeId other = None).
Proof.
  split.
  - intros Hslug Hlt Hs He Ss Se.
    destruct (CodecFacts.canonical_is_digits s Hs) as [Ns Ds].
    destruct (CodecFacts.canonical_is_digits e He) as [Ne De].
    unfold Props.safe_numeral in Ss, Se.
    destruct (Num.digits_value s) as [ns|] eqn:Vs; [|discriminate].
    destruct (Num.digits_value e) as [ne|] eqn:Ve; [|discriminate].
    apply Z.ltb_lt in Ss, Se.
    unfold EmbedExtractor.parseEpisodeId.
    rewrite (CodecFacts.match_episode_complete slug s e) by assumption.
    eexists. exists ns, ne. split; [reflexivity|].
    cbn [EmbedExtractor.animeTitle EmbedExtractor.season EmbedExtractor.episode].
    rewrite (CodecFacts.parseInt10_safe s ns), (CodecFacts.parseInt10_safe e ne)
      by assumption.
    repeat (split; [reflexivity|]).
    unfold EmbedExtractor.compositeId.
    rewrite (CodecFacts.to_string_safe s ns), (CodecFacts.to_string_safe e ne)
      by assumption.
    reflexivity.
  - intros Hno. unfold EmbedExtractor.parseEpisodeId.
    destruct (EmbedExtractor.match_episode other) as [[[p a] b]|] eqn:M; [|reflexivity].
    exfalso. apply Hno.
    destruct (CodecFacts.match_episode_sound _ _ _ _ M) as (E & _ & _ & Ha & Hb & Da & Db).
    exists p, a, b. auto.
Qed.

Lemma parse_then_format_roundtrip_witness :
  (exists p ns ne,
     EmbedExtractor.parseEpisodeId ("spy-x-family" ++ "-" ++ "3" ++ "x" ++ "12") = Some p
     /\ EmbedExtractor.animeTitle p = "spy-x-family"
     /\ Num.digits_value "3" = Some ns /\ EmbedExtractor.season p = Num.JFin ns
     /\ Num.digits_value "12" = Some ne /\ EmbedExtractor.episode p = Num.JFin ne
     /\ EmbedExtractor.compositeId (EmbedExtractor.animeTitle p)
          (EmbedExtractor.season p) (EmbedExtractor.episode p)
        = "spy-x-family" ++ "-" ++ "3" ++ "x" ++ "12")
  /\ EmbedExtractor.parseEpisodeId "one-piece" = None.
Proof.
  destruct (parse_then_format_roundtrip "spy-x-family" "3" "12" "one-piece")
    as [Hrt Hnull].
  split.
  - apply Hrt; try reflexivity. discriminate.
  - apply Hnull. intros (p & a & b & E & Ha & _ & Da & _).
    repeat (destruct p as [|? p]; cbn [append] in E;
            [ try discriminate E | injection E as _ E ]).
    + injection E as E. destruct a as [|c a]; [congruence|].
      cbn [append] in E. injection E as <- _. discriminate Da.
    + destruct p; discriminate E.
Defined.

(* ================================================================== *)
(** * Retrieval by episode identifier *)
(* ================================================================== *)

Module RetrievalFacts.

Import Num Js Async EmbedExtractor Props.
Local Open Scope async_scope.

Section Site.

Variable baseUrl : string.
Variable loadCheerio : JsVal -> Document.
Variable net : Network.

Lemma sent_record req rt : sent (record_request req rt) = (sent rt ++ [req])%list.
Proof. reflexivity. Qed.

Lemma http_get_resolved req rt body :
  settle net (sent rt) req = Resolved body ->
  http_get net req rt = (Return body, record_request req rt).
Proof. unfold http_get. now intros ->. Qed.

Lemma http_get_rejected req rt e :
  settle net (sent rt) req = Rejected e ->
  http_get net req rt = (Throw e, record_request req rt).
Proof. unfold http_get. now intros ->. Qed.

(** One page: either the parsed page with the requested id, or the error
    of the fetch; one request is sent either way. *)
Lemma fetch_page_run u i rt :
  fetch_page loadCheerio net u i rt =
  match settle net (sent rt) (page_request u) with
  | Resolved html =>
      (Return {| id := i;
                 servers := servers (extract (loadCheerio html));
                 externalApiMapping := None |},
       record_request (page_request u) rt)
  | Rejected e => (Throw e, record_request (page_request u) rt)
  end.
Proof.
  unfold fetch_page, bind, http_get.
  destruct (settle net (sent rt) (page_request u)); reflexivity.
Qed.

Lemma fetch_page_result u i rt d rt' :
  fetch_page loadCheerio net u i rt = (Return d, rt') ->
  id d = i /\ externalApiMapping d = None.
Proof.
  rewrite fetch_page_run.
  destruct (settle net (sent rt) (page_request u)); intros [= <- _]; auto.
Qed.

Lemma try_detail_urls_cons i u r last rt :
  try_detail_urls loadCheerio net i (u :: r) last rt =
  match settle net (sent rt) (page_request u) with
  | Resolved html =>
      (Return (inl {| id := i;
                      servers := servers (extract (loadCheerio html));
                      externalApiMapping := None |}),
       record_request (page_request u) rt)
  | Rejected e =>
      try_detail_urls loadCheerio net i r (Some e) (record_request (page_request u) rt)
  end.
Proof.
  cbn [try_detail_urls]. unfold try_catch, bind. rewrite fetch_page_run.
  destruct (settle net (sent rt) (page_request u)); reflexivity.
Qed.

Lemma try_detail_urls_result i urls last rt d rt' :
  try_detail_urls loadCheerio net i urls last rt = (Return (inl d), rt') ->
  id d = i /\ externalApiMapping d = None.
Proof.
  revert last rt. induction urls as [|u r IH]; intros last rt; cbn [try_detail_urls].
  - discriminate.
  - unfold try_catch, bind.
    destruct (fetch_page loadCheerio net u i rt) as [[d0|e0] rt0] eqn:F.
    + intros [= <- _]. exact (fetch_page_result _ _ _ _ _ F).
    + apply IH.
Qed.

Lemma extractFromUrl_result i rt d rt' :
  extractFromUrl baseUrl loadCheerio net i rt = (Return d, rt') ->
  id d = i /\ externalApiMapping d = None.
Proof.
  unfold extractFromUrl, try_catch.
  destruct (fetch_page loadCheerio net (episodeUrl baseUrl i) i rt)
    as [[d0|e0] rt0] eqn:F.
  - intros [= <- _]. exact (fetch_page_result _ _ _ _ _ F).
  - destruct (is404 e0); [|discriminate].
    unfold bind at 1. unfold log at 1. unfold bind.
    match goal with
    | |- context [try_detail_urls ?l ?n ?i ?u ?x ?r] =>
        destruct (try_detail_urls l n i u x r) as [[[d1|[e1|]]|e1] rt1] eqn:T
    end; try discriminate.
    intros [= <- _]. exact (try_detail_urls_result _ _ _ _ _ _ T).
Qed.

End Site.

End RetrievalFacts.

(** C1: when the fetch of the episode page fails with an error that is
    not classified as "not found", [extractFromUrl] throws that very error;
    the episode page is the only request sent, and nothing is logged. *)
Theorem extractFromUrl_rethrows_other_errors
    (baseUrl : string) (loadCheerio : Js.JsVal -> EmbedExtractor.Document)
    (net : Async.Network) (i : string) (rt : Async.Runtime) (e : Js.JsError) :
  Async.settle net (Async.sent rt)
    (EmbedExtractor.page_request (EmbedExtractor.episodeUrl baseUrl i))
  = Async.Rejected e ->
  EmbedExtractor.is404 e = false ->
  EmbedExtractor.extractFromUrl baseUrl loadCheerio net i rt
  = (Async.Throw e,
     {| Async.sent :=
          (Async.sent rt
           ++ [EmbedExtractor.page_request (EmbedExtractor.episodeUrl baseUrl i)])%list;
        Async.logged := Async.logged rt |}).
Proof.
  intros Hfetch Hclass.
  unfold EmbedExtractor.extractFromUrl, Async.try_catch.
  rewrite RetrievalFacts.fetch_page_run, Hfetch, Hclass. reflexivity.
Qed.

Lemma extractFromUrl_rethrows_other_errors_witness :
  EmbedExtractor.extractFromUrl Examples.sample_base Examples.sample_loader
    (Examples.serving [] Examples.timed_out) "spy-x-family-3x1" Examples.fresh
  = (Async.Throw Examples.timed_out,
     {| Async.sent :=
          [EmbedExtractor.page_request
             "https://watchanimeworld.in/episode/spy-x-family-3x1/"];
        Async.logged := [] |}).
Proof.
  apply (extractFromUrl_rethrows_other_errors Examples.sample_base
           Examples.sample_loader (Examples.serving [] Examples.timed_out)
           "spy-x-family-3x1" Examples.fresh Examples.timed_out);
    reflexivity.
Defined.

(** C6: when the fetch of the episode page fails with an error classified
    as "not found", [extractFromUrl] derives the series identifier from the
    episode identifier, requests the series page and, if that fails, the
    movie page, in this order, and returns the first page fetched, parsed,
    with [id] set to the identifier asked for.  When both fail, the error
    of the movie page is thrown. *)
Theorem extractFromUrl_falls_back_on_not_found
    (baseUrl : string) (loadCheerio : Js.JsVal -> EmbedExtractor.Document)
    (net : Async.Network) (i : string) (rt : Async.Runtime) (e : Js.JsError) :
  let seriesId := EmbedExtractor.getSeriesIdFromEpisodeId i in
  let ep := EmbedExtractor.page_request (EmbedExtractor.episodeUrl baseUrl i) in
  let sr := EmbedExtractor.page_request (EmbedExtractor.seriesUrl baseUrl seriesId) in
  let mv := EmbedExtractor.page_request (EmbedExtractor.moviesUrl baseUrl seriesId) in
  let note := (Async.Info,
               "Episode page not found (404), trying details page for: " ++ i) in
  let data_of html :=
    {| EmbedExtractor.id := i;
       EmbedExtractor.servers :=
         EmbedExtractor.servers (EmbedExtractor.extract (loadCheerio html));
       EmbedExtractor.externalApiMapping := None |} in
  Async.settle net (Async.sent rt) ep = Async.Rejected e ->
  EmbedExtractor.is404 e = true ->
  EmbedExtractor.extractFromUrl baseUrl loadCheerio net i rt
  = match Async.settle net (Async.sent rt ++ [ep]) sr with
    | Async.Resolved html =>
        (Async.Return (data_of html),
         {| Async.sent := (Async.sent rt ++ [ep; sr])%list;
            Async.logged := (Async.logged rt ++ [note])%list |})
    | Async.Rejected _ =>
        match Async.settle net (Async.sent rt ++ [ep; sr]) mv with
        | Async.Resolved html =>
            (Async.Return (data_of html),
             {| Async.sent := (Async.sent rt ++ [ep; sr; mv])%list;
                Async.logged := (Async.logged rt ++ [note])%list |})
        | Async.Rejected e2 =>
            (Async.Throw e2,
             {| Async.sent := (Async.sent rt ++ [ep; sr; mv])%list;
                Async.logged := (Async.logged rt ++ [note])%list |})
        end
    end.
Proof.
  intros seriesId ep sr mv note data_of Hfetch Hclass.
  unfold EmbedExtractor.extractFromUrl, Async.try_catch.
  rewrite RetrievalFacts.fetch_page_run. fold ep. rewrite Hfetch, Hclass.
  unfold Async.bind at 1. unfold Async.log at 1.
  fold seriesId. unfold Async.bind.
  rewrite RetrievalFacts.try_detail_urls_cons.
  cbn [Async.sent Async.logged Async.record_request]. fold sr note.
  destruct (Async.settle net (Async.sent rt ++ [ep]) sr) as [html|e1].
  - unfold Async.ret, Async.record_request. cbn [Async.sent Async.logged].
    rewrite <- app_assoc. reflexivity.
  - rewrite RetrievalFacts.try_detail_urls_cons.
    unfold Async.record_request. cbn [Async.sent Async.logged]. fold mv.
    rewrite <- !app_assoc. cbn [app].
    destruct (Async.settle net (Async.sent rt ++ [ep; sr]) mv) as [html|e2];
      reflexivity.
Qed.

Lemma extractFromUrl_falls_back_on_not_found_witness :
  EmbedExtractor.extractFromUrl Examples.sample_base Examples.sample_loader
    (Examples.serving
       [("https://watchanimeworld.in/series/spy-x-family/", Js.VStr "series page")]
       Examples.not_found)
    "spy-x-family-3x1" Examples.fresh
  = (Async.Return
       {| EmbedExtractor.id := "spy-x-family-3x1";
          EmbedExtractor.servers :=
            [ {| EmbedExtractor.server := Num.JFin 0;
                 EmbedExtractor.name := "Server 0";
                 EmbedExtractor.url := "https://play.example/e/0" |};
              {| EmbedExtractor.server := Num.JFin 1;
                 EmbedExtractor.name := "Hindi";
                 EmbedExtractor.url := "https://play.example/e/1" |} ];
          EmbedExtractor.externalApiMapping := None |},
     {| Async.sent :=
          [ EmbedExtractor.page_request
              "https://watchanimeworld.in/episode/spy-x-family-3x1/";
            EmbedExtractor.page_request
              "https://watchanimeworld.in/series/spy-x-family/" ];
        Async.logged :=
          [ (Async.Info,
             "Episode page not found (404), trying details page for: spy-x-family-3x1") ]
     |}).
Proof.
  apply (extractFromUrl_falls_back_on_not_found Examples.sample_base
           Examples.sample_loader
           (Examples.serving
              [("https://watchanimeworld.in/series/spy-x-family/",
                Js.VStr "series page")]
              Examples.not_found)
           "spy-x-family-3x1" Examples.fresh Examples.not_found);
    reflexivity.
Defined.

(** C8: on a document without any [options-*] block [extract] returns a
    result with an empty list of servers; and when the episode page is
    fetched and no server is extracted from it, [extractFromUrl] returns
    that result, with the id asked for, after this one request: the
    fallback pages are not tried. *)
Theorem empty_server_list_is_a_result
    (baseUrl : string) (loadCheerio : Js.JsVal -> EmbedExtractor.Document)
    (net : Async.Network) (i : string) (rt : Async.Runtime)
    (doc : EmbedExtractor.Document) (html : Js.JsVal) :
  (EmbedExtractor.option_divs doc = [] ->
   EmbedExtractor.extract doc
   = {| EmbedExtractor.id := ""; EmbedExtractor.servers := [];
        EmbedExtractor.externalApiMapping := None |})
  /\ (Async.settle net (Async.sent rt)
        (EmbedExtractor.page_request (EmbedExtractor.episodeUrl baseUrl i))
      = Async.Resolved html ->
      EmbedExtractor.servers (EmbedExtractor.extract (loadCheerio html)) = [] ->
      EmbedExtractor.extractFromUrl baseUrl loadCheerio net i rt
      = (Async.Return {| EmbedExtractor.id := i; EmbedExtractor.servers := [];
                         EmbedExtractor.externalApiMapping := None |},
         {| Async.sent :=
              (Async.sent rt
               ++ [EmbedExtractor.page_request (EmbedExtractor.episodeUrl baseUrl i)])%list;
            Async.logged := Async.logged rt |})).
Proof.
  split.
  - intros H. unfold EmbedExtractor.extract. rewrite H. reflexivity.
  - intros Hfetch Hnone.
    unfold EmbedExtractor.extractFromUrl, Async.try_catch.
    rewrite RetrievalFacts.fetch_page_run, Hfetch, Hnone. reflexivity.
Qed.

Lemma empty_server_list_is_a_result_witness :
  EmbedExtractor.extract Examples.empty_document
  = {| EmbedExtractor.id := ""; EmbedExtractor.servers := [];
       EmbedExtractor.externalApiMapping := None |}
  /\ EmbedExtractor.extractFromUrl Examples.sample_base Examples.sample_loader
       (Examples.serving
          [("https://watchanimeworld.in/episode/one-piece-1x1/", Js.VStr "<html></html>")]
          Examples.not_found)
       "one-piece-1x1" Examples.fresh
     = (Async.Return {| EmbedExtractor.id := "one-piece-1x1";
                        EmbedExtractor.servers := [];
                        EmbedExtractor.externalApiMapping := None |},
        {| Async.sent :=
             [EmbedExtractor.page_request
                "https://watchanimeworld.in/episode/one-piece-1x1/"];
           Async.logged := [] |}).
Proof.
  destruct (empty_server_list_is_a_result Examples.sample_base Examples.sample_loader
              (Examples.serving
                 [("https://watchanimeworld.in/episode/one-piece-1x1/",
                   Js.VStr "<html></html>")]
                 Examples.not_found)
              "one-piece-1x1" Examples.fresh Examples.empty_document
              (Js.VStr "<html></html>")) as [Hdoc Hrun].
  split; [apply Hdoc; reflexivity | apply Hrun; reflexivity].
Defined.

(* ================================================================== *)
(** * The metadata service *)
(* ================================================================== *)

Module ResolverFacts.

Import Num Js Async EmbedExtractor Props.
Local Open Scope async_scope.

(** A [try] whose handler returns cannot throw. *)
Lemma try_catch_returns {A} (m : M A) (h : JsError -> M A) :
  (forall e rt, exists a rt', h e rt = (Return a, rt')) ->
  forall rt, exists a rt', try_catch m h rt = (Return a, rt').
Proof.
  intros Hh rt. unfold try_catch.
  destruct (m rt) as [[a|e] rt']; [eauto | apply Hh].
Qed.

Section Site.

Variable net : Network.

Lemma searchAnimeInExternalApi_returns title rt :
  exists v rt', searchAnimeInExternalApi net title rt = (Return v, rt').
Proof.
  apply try_catch_returns. intros e rt0. unfold bind, log, ret. eauto.
Qed.


Lemma searchAnimeInExternalApi_first title rt x r :
  settle net (sent rt) (api_request [("q", title)]) = Resolved (VArr (x :: r)) ->
  searchAnimeInExternalApi net title rt
  = (Return x, record_request (api_request [("q", title)]) rt).
Proof.
  intros H. unfold searchAnimeInExternalApi, try_catch, bind at 1.
  rewrite (RetrievalFacts.http_get_resolved net _ _ _ H). reflexivity.
Qed.






Lemma getAnimeIdFromExternalApi_returns i rt :
  exists mapped rt', getAnimeIdFromExternalApi net i rt = (Return mapped, rt').
Proof.
  apply try_catch_returns. intros e rt0. unfold bind, log, ret. eauto.
Qed.

(** A match comes from the answer of the search: its [id] is truthy, and
    the mapped data holds that [id], [data_id || null], the identifier
    asked for, the season and episode parsed from it, and
    [title || parsed.animeTitle].  The search is the only effect. *)
Lemma getAnimeIdFromExternalApi_fields i rt m rt' :
  getAnimeIdFromExternalApi net i rt = (Return (Some m), rt') ->
  exists parsed animeData anime_id data_id title,
    parseEpisodeId i = Some parsed
    /\ searchAnimeInExternalApi net (animeTitle parsed) rt = (Return animeData, rt')
    /\ truthy animeData = true
    /\ get_prop animeData "id" = Some anime_id
    /\ truthy anime_id = true
    /\ get_prop animeData "data_id" = Some data_id
    /\ get_prop animeData "title" = Some title
    /\ m = {| externalApiId := anime_id;
              dataId := or_else data_id VNull;
              episodeId := i;
              mappedSeason := season parsed;
              mappedEpisode := episode parsed;
              originalTitle := or_else title (VStr (animeTitle parsed)) |}.
Proof.
  unfold getAnimeIdFromExternalApi, try_catch.
  destruct (parseEpisodeId i) as [parsed|].
  2:{ unfold bind, log, ret. discriminate. }
  unfold bind at 1.
  destruct (searchAnimeInExternalApi_returns (animeTitle parsed) rt) as (v & rt1 & Hs).
  rewrite Hs.
  destruct (truthy v) eqn:Tv.
  2:{ unfold ret, bind, log. discriminate. }
  unfold prop. destruct (get_prop v "id") as [anime_id|] eqn:Hid.
  2:{ unfold throw, bind, log, ret. discriminate. }
  unfold bind at 1, ret at 1.
  destruct (truthy anime_id) eqn:Ti.
  2:{ unfold ret. discriminate. }
  destruct (get_prop v "data_id") as [d|] eqn:Hd.
  2:{ unfold throw, bind, log, ret. discriminate. }
  unfold bind at 1, ret at 1.
  destruct (get_prop v "title") as [t|] eqn:Ht.
  2:{ unfold throw, bind, log, ret. discriminate. }
  unfold bind, ret. intros [= <- <-].
  exists parsed, v, anime_id, d, t. repeat (split; [assumption || reflexivity|]).
  reflexivity.
Qed.

End Site.

End ResolverFacts.

(** C3: [getEmbedWithMapping] first asks the metadata service, which
    never throws, and then retrieves by the episode identifier it was
    given, whatever the service answered.  Without a match the result of
    the retrieval is returned as it is: its [id] is the identifier and it
    carries no mapping.  With a match the result keeps the servers of that
    retrieval and the identifier, and carries the fields of the match:
    [animeId], the truthy [id] of the answer of the search; [dataId], its
    [data_id] or null; [title], its [title] or the title parsed from the
    identifier; [season] and [episode], the numbers parsed from the
    identifier.  An error of the retrieval is thrown on. *)
Theorem getEmbedWithMapping_retrieves_by_episode_id
    (baseUrl : string) (loadCheerio : Js.JsVal -> EmbedExtractor.Document)
    (net : Async.Network) (i : string) (rt : Async.Runtime) :
  exists mapped rt1,
    EmbedExtractor.getAnimeIdFromExternalApi net i rt = (Async.Return mapped, rt1)
    /\ (forall m, mapped = Some m ->
        exists parsed animeData anime_id data_id title,
          EmbedExtractor.parseEpisodeId i = Some parsed
          /\ EmbedExtractor.searchAnimeInExternalApi net
               (EmbedExtractor.animeTitle parsed) rt
             = (Async.Return animeData, rt1)
          /\ Js.get_prop animeData "id" = Some anime_id
          /\ Js.truthy anime_id = true
          /\ Js.get_prop animeData "data_id" = Some data_id
          /\ Js.get_prop animeData "title" = Some title
          /\ EmbedExtractor.externalApiId m = anime_id
          /\ EmbedExtractor.dataId m = Js.or_else data_id Js.VNull
          /\ EmbedExtractor.originalTitle m
             = Js.or_else title (Js.VStr (EmbedExtractor.animeTitle parsed))
          /\ EmbedExtractor.mappedSeason m = EmbedExtractor.season parsed
          /\ EmbedExtractor.mappedEpisode m = EmbedExtractor.episode parsed)
    /\ let rt2 :=
         match mapped with
         | None =>
             {| Async.sent := Async.sent rt1;
                Async.logged :=
                  (Async.logged rt1
                   ++ [(Async.Info,
                        ("Could not map " ++ i
                         ++ " with external API, falling back to direct extraction")%string)])%list |}
         | Some _ => rt1
         end in
       match EmbedExtractor.extractFromUrl baseUrl loadCheerio net i rt2 with
       | (Async.Return data, rt3) =>
           EmbedExtractor.id data = i
           /\ EmbedExtractor.externalApiMapping data = None
           /\ EmbedExtractor.getEmbedWithMapping baseUrl loadCheerio net i rt
              = (Async.Return
                   match mapped with
                   | None => data
                   | Some m =>
                       {| EmbedExtractor.id := i;
                          EmbedExtractor.servers := EmbedExtractor.servers data;
                          EmbedExtractor.externalApiMapping :=
                            Some [ ("animeId", EmbedExtractor.externalApiId m);
                                   ("dataId", EmbedExtractor.dataId m);
                                   ("title", EmbedExtractor.originalTitle m);
                                   ("season", Js.VNum (EmbedExtractor.mappedSeason m));
                                   ("episode", Js.VNum (EmbedExtractor.mappedEpisode m)) ] |}
                   end,
                 rt3)
       | (Async.Throw err, rt3) =>
           EmbedExtractor.getEmbedWithMapping baseUrl loadCheerio net i rt
           = (Async.Throw err,
              {| Async.sent := Async.sent rt3;
                 Async.logged :=
                   (Async.logged rt3
                    ++ [(Async.LogError,
                         ("Error in getEmbedWithMapping: " ++ Js.message err)%string)])%list |})
       end.
Proof.
  destruct (ResolverFacts.getAnimeIdFromExternalApi_returns net i rt)
    as (mapped & rt1 & Hmap).
  exists mapped, rt1. split; [exact Hmap|]. split.
  - intros m ->.
    destruct (ResolverFacts.getAnimeIdFromExternalApi_fields net i rt m rt1 Hmap)
      as (parsed & animeData & anime_id & data_id & title
          & Hp & Hs & _ & Hid & Ti & Hd & Ht & ->).
    exists parsed, animeData, anime_id, data_id, title.
    cbn [EmbedExtractor.externalApiId EmbedExtractor.dataId EmbedExtractor.originalTitle
         EmbedExtractor.mappedSeason EmbedExtractor.mappedEpisode].
    repeat (split; [assumption || reflexivity|]). reflexivity.
  - cbv zeta.
    destruct mapped as [m|];
      match goal with
      | |- match ?run with _ => _ end =>
          destruct run as [[data|err] rt3] eqn:R
      end;
      try (destruct (RetrievalFacts.extractFromUrl_result _ _ _ _ _ _ _ R)
             as [Hid Hnone]; split; [exact Hid|]; split; [exact Hnone|]);
      unfold EmbedExtractor.getEmbedWithMapping, Async.try_catch;
      unfold Async.bind at 1; rewrite Hmap;
      unfold Async.bind, Async.log; cbn [Async.sent Async.logged];
      rewrite R; reflexivity.
Qed.

(** On a network where the search answers with one record and the
    episode page exists, the record's fields are attached to the servers of
    that page. *)
Lemma getEmbedWithMapping_retrieves_by_episode_id_witness :
  fst (EmbedExtractor.getEmbedWithMapping Examples.sample_base Examples.sample_loader
         (Examples.serving
            [ ("https://anime-api-two-pi.vercel.app/api", Js.VArr [More.spy_record]);
              ("https://watchanimeworld.in/episode/spy-x-family-3x1/",
               Js.VStr "episode page") ]
            Examples.not_found)
         "spy-x-family-3x1" Examples.fresh)
  = Async.Return
      {| EmbedExtractor.id := "spy-x-family-3x1";
         EmbedExtractor.servers :=
           EmbedExtractor.servers (EmbedExtractor.extract Examples.sample_document);
         EmbedExtractor.externalApiMapping :=
           Some [ ("animeId", Js.VStr "spy-x-family-17977");
                  ("dataId", Js.VNum (Num.JFin 17977));
                  ("title", Js.VStr "Spy x Family");
                  ("season", Js.VNum (Num.JFin 3));
                  ("episode", Js.VNum (Num.JFin 1)) ] |}.
Proof.
  destruct (getEmbedWithMapping_retrieves_by_episode_id Examples.sample_base
              Examples.sample_loader
              (Examples.serving
                 [ ("https://anime-api-two-pi.vercel.app/api", Js.VArr [More.spy_record]);
                   ("https://watchanimeworld.in/episode/spy-x-family-3x1/",
                    Js.VStr "episode page") ]
                 Examples.not_found)
              "spy-x-family-3x1" Examples.fresh) as (mapped & rt1 & Hmap & _ & Hrun).
  vm_compute in Hmap. injection Hmap as <- <-.
  cbv zeta in Hrun.
  match type of Hrun with
  | match ?run with _ => _ end =>
      let r := eval vm_compute in run in change run with r in Hrun
  end.
  destruct Hrun as (_ & _ & Hrun).
  etransitivity; [exact (f_equal fst Hrun)|]. reflexivity.
Defined.

(* ================================================================== *)
(** * Retrieval by data id, season and episode *)
(* ================================================================== *)

Module DataIdFacts.

Import Num Js Async EmbedExtractor Props.
Local Open Scope async_scope.

Lemma first_success_cons net h u r :
  first_success net h (u :: r) =
  match settle net h (page_request u) with
  | Resolved html => ([page_request u], Some html)
  | Rejected _ =>
      (page_request u :: fst (first_success net (h ++ [page_request u]) r),
       snd (first_success net (h ++ [page_request u]) r))
  end.
Proof.
  cbn [first_success]. destruct (settle net h (page_request u)); [reflexivity|].
  now destruct (first_success net (h ++ [page_request u]) r).
Qed.

(** When no page could be fetched, every page was requested. *)
Lemma first_success_exhausted net h urls :
  snd (first_success net h urls) = None ->
  fst (first_success net h urls) = List.map page_request urls.
Proof.
  revert h. induction urls as [|u r IH]; intros h; [reflexivity|].
  rewrite first_success_cons.
  destruct (settle net h (page_request u)); cbn [fst snd]; [discriminate|].
  intros H. cbn [List.map]. now rewrite IH.
Qed.

Section Site.

Variable baseUrl : string.
Variable loadCheerio : JsVal -> Document.
Variable net : Network.

Lemma lookupTitle_returns data_id rt :
  exists v rt', lookupTitle net data_id rt = (Return v, rt').
Proof.
  apply ResolverFacts.try_catch_returns. intros e rt0. unfold bind, log, ret. eauto.
Qed.



Section Flow.

Variable data_id : string.
Variables s e : JsNum.
Variable title : JsVal.
Variable constructedId : string.

Lemma try_urls_cons u r rt :
  try_urls loadCheerio net data_id s e title constructedId (u :: r) rt =
  match settle net (sent rt) (page_request u) with
  | Resolved html =>
      (Return (Some (finish data_id s e title constructedId
                       (extract (loadCheerio html)))),
       {| sent := sent rt ++ [page_request u];
          logged := logged rt ++ [(Info, "Trying detail URL: " ++ u)] |})
  | Rejected _ =>
      try_urls loadCheerio net data_id s e title constructedId r
        {| sent := sent rt ++ [page_request u];
           logged := (logged rt ++ [(Info, "Trying detail URL: " ++ u)])
                     ++ [(Debug, "Detail URL failed: " ++ u)] |}
  end.
Proof.
  cbn [try_urls]. unfold try_catch, bind, log, http_get. cbn [sent logged].
  destruct (settle net (sent rt) (page_request u)); reflexivity.
Qed.

Lemma try_patterns_run seriesPatterns rt :
  let pages := flat_map (fun c => [seriesUrl baseUrl c; moviesUrl baseUrl c])
                 seriesPatterns in
  let out := try_patterns baseUrl loadCheerio net data_id s e title constructedId
               seriesPatterns rt in
  fst out
  = Return (option_map
              (fun html => finish data_id s e title constructedId
                             (extract (loadCheerio html)))
              (snd (first_success net (sent rt) pages)))
  /\ sent (snd out) = (sent rt ++ fst (first_success net (sent rt) pages))%list.
Proof.
  cbv zeta. revert rt.
  induction seriesPatterns as [|c r IH]; intros rt.
  - cbn. now rewrite app_nil_r.
  - cbn [flat_map app try_patterns]. unfold bind.
    rewrite try_urls_cons, first_success_cons.
    destruct (settle net (sent rt) (page_request (seriesUrl baseUrl c))) as [html|e1].
    + cbn. auto.
    + rewrite try_urls_cons, first_success_cons. cbn [sent logged].
      destruct (settle net (sent rt ++ [page_request (seriesUrl baseUrl c)])
                  (page_request (moviesUrl baseUrl c))) as [html|e2].
      * cbn. rewrite <- app_assoc. auto.
      * cbn [try_urls ret fst snd].
        match goal with
        | |- context [try_patterns _ _ _ _ _ _ _ _ r ?st] =>
            destruct (IH st) as [I1 I2]; cbn [sent] in I1, I2
        end.
        split.
        -- rewrite I1. reflexivity.
        -- rewrite I2. rewrite <- !app_assoc. reflexivity.
Qed.

Lemma episode_attempt_run u rt (k : JsError -> M EmbedData) :
  try_catch
    (log Info ("Fetching episode from: " ++ u);;;
     html <- http_get net (page_request u);;
     ret (finish data_id s e title constructedId (extract (loadCheerio html)))) k rt =
  match settle net (sent rt) (page_request u) with
  | Resolved html =>
      (Return (finish data_id s e title constructedId (extract (loadCheerio html))),
       {| sent := sent rt ++ [page_request u];
          logged := logged rt ++ [(Info, "Fetching episode from: " ++ u)] |})
  | Rejected e1 =>
      k e1 {| sent := sent rt ++ [page_request u];
              logged := logged rt ++ [(Info, "Fetching episode from: " ++ u)] |}
  end.
Proof.
  unfold try_catch, bind, log, http_get. cbn [sent logged].
  destruct (settle net (sent rt) (page_request u)); reflexivity.
Qed.

End Flow.

(** From a title that is unknown on: the pages of the fixed candidates
    are tried in order, and the first one fetched gives the result. *)
Lemma fetchByPatterns_without_title data_id s e title rt :
  truthy title = false ->
  let pages := attempts baseUrl popularSeriesIds s e in
  let tried := first_success net (sent rt) pages in
  let out := fetchByPatterns baseUrl loadCheerio net data_id s e title rt in
  sent (snd out) = (sent rt ++ fst tried)%list
  /\ fst out
     = match snd tried with
       | Some html =>
           Return (finish data_id s e title (compositeId "one-punch-man" s e)
                     (extract (loadCheerio html)))
       | None => Throw (Error ("Could not find any page for data_id: " ++ data_id))
       end.
Proof.
  intros Ht. cbv zeta.
  set (cid := compositeId "one-punch-man" s e).
  enough (Hrun : exists c st,
            fetchByPatterns baseUrl loadCheerio net data_id s e title rt = (c, st)
            /\ sent st
               = (sent rt
                  ++ fst (first_success net (sent rt) (attempts baseUrl popularSeriesIds s e)))%list
            /\ c = match snd (first_success net (sent rt)
                                (attempts baseUrl popularSeriesIds s e)) with
                   | Some html =>
                       Return (finish data_id s e title cid (extract (loadCheerio html)))
                   | None =>
                       Throw (Error ("Could not find any page for data_id: " ++ data_id))
                   end).
  { destruct Hrun as (c & st & -> & H1 & H2). cbn [fst snd]. auto. }
  unfold fetchByPatterns, attempts, seriesPatternsFor.
  rewrite Ht. unfold bind at 1, ret at 1.
  change (first_or_undefined popularSeriesIds) with "one-punch-man". fold cid.
  unfold bind at 1, log at 1.
  rewrite episode_attempt_run. cbn [sent logged].
  rewrite first_success_cons.
  destruct (settle net (sent rt) (page_request (episodeUrl baseUrl cid))) as [html|e1].
  - eexists. eexists. split; [reflexivity|]. cbn [fst snd sent]. split; reflexivity.
  - unfold bind at 1, log at 1. cbn [sent logged]. unfold bind.
    match goal with
    | |- context [try_patterns _ _ _ ?d ?a ?b ?t ?c ?l ?st] =>
        destruct (try_patterns_run d a b t c l st) as [I1 I2];
        cbn [sent] in I1, I2;
        destruct (try_patterns baseUrl loadCheerio net d a b t c l st) as [res st'] eqn:R
    end.
    cbn [fst snd] in *. subst res.
    destruct (snd (first_success net _ _)) as [html|]; cbn [option_map];
      (eexists; eexists; split; [reflexivity|]); rewrite I2, <- app_assoc;
      split; reflexivity.
Qed.

(** The whole method in terms of what [lookupTitle] leaves. *)
Lemma getEmbedByDataIdAndEpisode_run data_id s e rt title rt1 :
  lookupTitle net data_id
    {| sent := sent rt;
       logged := logged rt
                 ++ [(Info, "Searching for data_id: " ++ data_id ++ ", season: "
                            ++ Num.to_string s ++ ", episode: " ++ Num.to_string e)] |}
  = (Return title, rt1) ->
  let rt2 :=
    if truthy title then rt1
    else {| sent := sent rt1;
            logged := logged rt1
                      ++ [(Warn, "No title found for data_id: " ++ data_id
                                 ++ ", using fallback patterns")] |} in
  let inner := fetchByPatterns baseUrl loadCheerio net data_id s e title rt2 in
  let out := getEmbedByDataIdAndEpisode baseUrl loadCheerio net data_id s e rt in
  fst out = fst inner /\ sent (snd out) = sent (snd inner).
Proof.
  intros Hl. cbv zeta.
  match goal with
  | |- context [fetchByPatterns ?b ?l ?n ?d ?a ?c ?t ?st] =>
      set (rt2 := st);
      enough (Hrun : exists res st1,
                getEmbedByDataIdAndEpisode b l n d a c rt = (res, st1)
                /\ res = fst (fetchByPatterns b l n d a c t rt2)
                /\ sent st1 = sent (snd (fetchByPatterns b l n d a c t rt2)))
  end.
  { destruct Hrun as (res & st1 & -> & H1 & H2). cbn [fst snd]. auto. }
  unfold getEmbedByDataIdAndEpisode, try_catch.
  unfold bind at 1, log at 1. unfold bind at 1. rewrite Hl.
  unfold bind at 1.
  assert (Hst : (if truthy title then ret tt
                 else log Warn ("No title found for data_id: " ++ data_id
                                ++ ", using fallback patterns")) rt1
                = (Return tt, rt2)).
  { unfold rt2. destruct (truthy title); reflexivity. }
  rewrite Hst.
  destruct (fetchByPatterns baseUrl loadCheerio net data_id s e title rt2)
    as [[data|err] st'].
  - eexists. eexists. split; [reflexivity|]. cbn [fst snd]. auto.
  - unfold bind, log, throw. eexists. eexists. split; [reflexivity|].
    cbn [fst snd sent]. auto.
Qed.

End Site.

End DataIdFacts.




(** C2, as stated, fails: with the title unknown, the episode page is
    requested for the first candidate only.  On a network where the one
    page that exists is the episode page of the second candidate,
    ["one-piece-1x1"], the method fails without ever requesting it. *)
Lemma episode_page_of_second_candidate_is_not_tried :
  let page := "https://watchanimeworld.in/episode/one-piece-1x1/" in
  let net := Examples.serving [(page, Js.VStr "episode page")] Examples.not_found in
  let out := EmbedExtractor.getEmbedByDataIdAndEpisode Examples.sample_base
               Examples.sample_loader net "20333" (Num.JFin 1) (Num.JFin 1)
               Examples.fresh in
  nth_error EmbedExtractor.popularSeriesIds 1 = Some "one-piece"
  /\ EmbedExtractor.episodeUrl Examples.sample_base
       (EmbedExtractor.compositeId "one-piece" (Num.JFin 1) (Num.JFin 1)) = page
  /\ (forall history,
        Async.settle net history (EmbedExtractor.page_request page)
        = Async.Resolved (Js.VStr "episode page"))
  /\ fst out = Async.Throw (Js.Error "Could not find any page for data_id: 20333")
  /\ ~ In (EmbedExtractor.page_request page) (Async.sent (snd out)).
Proof.
  cbv zeta. split; [reflexivity|]. split; [reflexivity|].
  split; [intros history; reflexivity|].
  split; [vm_compute; reflexivity|].
  vm_compute. intros H.
  repeat (destruct H as [H|H]; [discriminate H|]). exact H.
Qed.

(** C2 (amended): when the listing lookup leaves no title, the method
    requests the episode page of the first candidate of the fixed list
    only, built as ["<slug>-<season>x<episode>"]; if that fetch fails it
    requests, for every candidate of the list in order, the series page
    and then the movie page.  The first page fetched gives the result.
    The method fails only when every one of these requests has been made
    and has failed, and then with the error "Could not find any page". *)
Theorem data_id_flow_tries_candidates_in_order
    (baseUrl : string) (loadCheerio : Js.JsVal -> EmbedExtractor.Document)
    (net : Async.Network) (data_id : string) (s e : Num.JsNum)
    (rt rt1 : Async.Runtime) (title : Js.JsVal) :
  EmbedExtractor.lookupTitle net data_id
    {| Async.sent := Async.sent rt;
       Async.logged :=
         (Async.logged rt
          ++ [(Async.Info,
               ("Searching for data_id: " ++ data_id ++ ", season: "
                ++ Num.to_string s ++ ", episode: " ++ Num.to_string e)%string)])%list |}
  = (Async.Return title, rt1) ->
  Js.truthy title = false ->
  let pages := Props.attempts baseUrl EmbedExtractor.popularSeriesIds s e in
  let tried := Props.first_success net (Async.sent rt1) pages in
  let out := EmbedExtractor.getEmbedByDataIdAndEpisode baseUrl loadCheerio net
               data_id s e rt in
  pages
  = EmbedExtractor.episodeUrl baseUrl (EmbedExtractor.compositeId "one-punch-man" s e)
    :: flat_map (fun c => [EmbedExtractor.seriesUrl baseUrl c;
                           EmbedExtractor.moviesUrl baseUrl c])
         EmbedExtractor.popularSeriesIds
  /\ Async.sent (snd out) = (Async.sent rt1 ++ fst tried)%list
  /\ fst out
     = match snd tried with
       | Some html =>
           Async.Return
             (EmbedExtractor.finish data_id s e title
                (EmbedExtractor.compositeId "one-punch-man" s e)
                (EmbedExtractor.extract (loadCheerio html)))
       | None =>
           Async.Throw (Js.Error ("Could not find any page for data_id: " ++ data_id))
       end
  /\ (forall err,
        fst out = Async.Throw err ->
        err = Js.Error ("Could not find any page for data_id: " ++ data_id)
        /\ Async.sent (snd out)
           = (Async.sent rt1 ++ List.map EmbedExtractor.page_request pages)%list).
Proof.
  intros Hlook Hnone. cbv zeta.
  destruct (DataIdFacts.getEmbedByDataIdAndEpisode_run baseUrl loadCheerio net
              data_id s e rt title rt1 Hlook) as [Hres Hsent].
  rewrite Hnone in Hres, Hsent.
  match type of Hres with
  | context [EmbedExtractor.fetchByPatterns _ _ _ _ _ _ _ ?st] =>
      destruct (DataIdFacts.fetchByPatterns_without_title baseUrl loadCheerio net
                  data_id s e title st Hnone) as [Fsent Fres];
      cbn [Async.sent] in Fsent, Fres
  end.
  rewrite Hres, Hsent, Fsent, Fres.
  split; [reflexivity|]. split; [reflexivity|]. split; [reflexivity|].
  intros err.
  destruct (snd (Props.first_success net (Async.sent rt1)
                   (Props.attempts baseUrl EmbedExtractor.popularSeriesIds s e)))
    as [html|] eqn:T; [discriminate|].
  intros [= <-]. split; [reflexivity|].
  now rewrite (DataIdFacts.first_success_exhausted _ _ _ T).
Qed.

Lemma data_id_flow_tries_candidates_in_order_witness :
  fst (EmbedExtractor.getEmbedByDataIdAndEpisode Examples.sample_base
         Examples.sample_loader
         (Examples.serving
            [("https://watchanimeworld.in/movies/naruto/", Js.VStr "movie page")]
            Examples.not_found)
         "20333" (Num.JFin 2) (Num.JFin 7) Examples.fresh)
  = Async.Return
      (EmbedExtractor.finish "20333" (Num.JFin 2) (Num.JFin 7) Js.VNull
         "one-punch-man-2x7" (EmbedExtractor.extract Examples.sample_document))
  /\ List.map Async.req_url
       (Async.sent
          (snd (EmbedExtractor.getEmbedByDataIdAndEpisode Examples.sample_base
                  Examples.sample_loader
                  (Examples.serving
                     [("https://watchanimeworld.in/movies/naruto/", Js.VStr "movie page")]
                     Examples.not_found)
                  "20333" (Num.JFin 2) (Num.JFin 7) Examples.fresh)))
     = [ "https://anime-api-two-pi.vercel.app/api";
         "https://watchanimeworld.in/episode/one-punch-man-2x7/";
         "https://watchanimeworld.in/series/one-punch-man/";
         "https://watchanimeworld.in/movies/one-punch-man/";
         "https://watchanimeworld.in/series/one-piece/";
         "https://watchanimeworld.in/movies/one-piece/";
         "https://watchanimeworld.in/series/naruto/";
         "https://watchanimeworld.in/movies/naruto/" ].
Proof.
  destruct (data_id_flow_tries_candidates_in_order Examples.sample_base
              Examples.sample_loader
              (Examples.serving
                 [("https://watchanimeworld.in/movies/naruto/", Js.VStr "movie page")]
                 Examples.not_found)
              "20333" (Num.JFin 2) (Num.JFin 7) Examples.fresh
              {| Async.sent := [EmbedExtractor.api_request []];
                 Async.logged :=
                   [ (Async.Info, "Searching for data_id: 20333, season: 2, episode: 7");
                     (Async.Warn,
                      "Could not fetch from external API: Request failed with status code 404") ]
              |}
              Js.VNull eq_refl eq_refl)
    as (_ & Hsent & Hres & _).
  split; [exact Hres|].
  rewrite Hsent. reflexivity.
Defined.

(* ================================================================== *)
(** * Further facts and worked examples *)
(* ================================================================== *)

(** The series identifier of a well-formed episode identifier is its
    slug; a string without the suffix is its own series identifier. *)
Lemma series_id_of_episode_id (slug s e : string) :
  slug <> "" -> Props.no_line_terminator slug = true ->
  s <> "" -> e <> "" ->
  Str.all Chars.is_digit s = true -> Str.all Chars.is_digit e = true ->
  EmbedExtractor.getSeriesIdFromEpisodeId (slug ++ "-" ++ s ++ "x" ++ e) = slug.
Proof.
  intros. unfold EmbedExtractor.getSeriesIdFromEpisodeId.
  now rewrite CodecFacts.match_episode_complete.
Qed.

Lemma series_id_without_suffix (i : string) :
  ~ Props.has_episode_suffix i -> EmbedExtractor.getSeriesIdFromEpisodeId i = i.
Proof.
  intros Hno. unfold EmbedExtractor.getSeriesIdFromEpisodeId.
  destruct (EmbedExtractor.match_episode i) as [[[p a] b]|] eqn:M; [|reflexivity].
  exfalso. apply Hno.
  destruct (CodecFacts.match_episode_sound _ _ _ _ M) as (E & _ & _ & Ha & Hb & Da & Db).
  exists p, a, b. auto.
Qed.

Example series_id_spy_x_family :
  EmbedExtractor.getSeriesIdFromEpisodeId "spy-x-family-3x1" = "spy-x-family".
Proof. reflexivity. Qed.

Example series_id_one_piece :
  EmbedExtractor.getSeriesIdFromEpisodeId "one-piece" = "one-piece".
Proof. reflexivity. Qed.

(** Leading zeros are accepted and disappear in the parsed numbers. *)
Example parse_with_leading_zeros :
  EmbedExtractor.parseEpisodeId "naruto-01x007"
  = Some {| EmbedExtractor.animeTitle := "naruto";
            EmbedExtractor.season := Num.JFin 1;
            EmbedExtractor.episode := Num.JFin 7 |}.
Proof. reflexivity. Qed.

(** The lazy group stops at the last suffix, not at the first. *)
Example parse_keeps_inner_suffix :
  EmbedExtractor.parseEpisodeId "a-1x2-3x4"
  = Some {| EmbedExtractor.animeTitle := "a-1x2";
            EmbedExtractor.season := Num.JFin 3;
            EmbedExtractor.episode := Num.JFin 4 |}.
Proof. reflexivity. Qed.

Example round_above_two_to_53 :
  Num.round_to_double 9007199254740993 = Num.JFin 9007199254740992
  /\ Num.round_to_double 9007199254740995 = Num.JFin 9007199254740996.
Proof. split; vm_compute; reflexivity. Qed.

Example to_string_examples :
  Num.to_string (Num.JFin 1200) = "1200"
  /\ Num.to_string (Num.JFin (-42)) = "-42"
  /\ Num.to_string (Num.round_to_double (2 ^ 64)) = "18446744073709552000"
  /\ Num.to_string (Num.round_to_double (10 ^ 21)) = "1e+21"
  /\ Num.to_string (Num.round_to_double 123456789012345678901234567890)
     = "1.2345678901234568e+29".
Proof. repeat split; vm_compute; reflexivity. Qed.

Example parseInt_examples :
  Num.parseInt10 "  -0042abc" = Num.JFin (-42)
  /\ Num.parseInt10 "abc" = Num.JNaN
  /\ Num.parseInt10 "12" = Num.JFin 12.
Proof. repeat split; vm_compute; reflexivity. Qed.

(** [getEmbedByDataId] only lowers the title and replaces white space. *)
Example series_id_by_data_id_keeps_punctuation :
  EmbedExtractor.titleToSeriesIdByDataId "Re:Zero  Season 2" = "re:zero-season-2"
  /\ EmbedExtractor.titleToSeriesId "Re:Zero  Season 2" = "rezero-season-2".
Proof. split; reflexivity. Qed.

(** A failed name lookup is classified as "not found". *)
Example name_lookup_failure_is_not_found :
  EmbedExtractor.is404
    {| Js.message := "getaddrinfo ENOTFOUND watchanimeworld.in";
       Js.status := None; Js.response_status := None;
       Js.code := Some "ENOTFOUND" |} = true
  /\ EmbedExtractor.is404 Examples.timed_out = false.
Proof. split; reflexivity. Qed.

(** With a title found in the listing, its series identifier is the only
    candidate. *)
Example resolved_title_is_the_only_candidate :
  List.map Async.req_url
    (Async.sent
       (snd (EmbedExtractor.getEmbedByDataIdAndEpisode Examples.sample_base
               Examples.sample_loader
               (Examples.serving
                  [ ("https://anime-api-two-pi.vercel.app/api",
                     Js.VArr [ Js.VObj [ ("id", Js.VStr "spy-x-family-17977");
                                         ("data_id", Js.VNum (Num.JFin 17977));
                                         ("title", Js.VStr "Spy x Family") ] ]) ]
                  Examples.not_found)
               "17977" (Num.JFin 3) (Num.JFin 1) Examples.fresh)))
  = [ "https://anime-api-two-pi.vercel.app/api";
      "https://watchanimeworld.in/episode/spy-x-family-3x1/";
      "https://watchanimeworld.in/series/spy-x-family/";
      "https://watchanimeworld.in/movies/spy-x-family/" ].
Proof. vm_compute. reflexivity. Qed.

(** A response that is a text gives the search a character as its first
    match; a character has no [id], so no mapping comes of it. *)
Example text_response_leaves_no_mapping :
  fst (EmbedExtractor.getAnimeIdFromExternalApi
         (Examples.serving
            [("https://anime-api-two-pi.vercel.app/api", Js.VStr "busy")]
            Examples.not_found)
         "spy-x-family-3x1" Examples.fresh)
  = Async.Return None.
Proof. reflexivity. Qed.

(** The comparison of a length with zero converts it to a number: texts
    are read as numerals in every notation of the language, arrays and
    objects through their text. *)
Example lengths_compared_with_zero :
  List.map Js.gt_zero
    [ Js.VStr "1.5"; Js.VStr "+5"; Js.VStr "1e3"; Js.VStr "0x10"; Js.VStr " 12 ";
      Js.VStr "Infinity"; Js.VStr ".5"; Js.VStr "5e-324"; Js.VBool true;
      Js.VArr [Js.VNum (Num.JFin 5)]; Js.VArr [Js.VArr [Js.VStr "0b1"]] ]
  = List.repeat (Some true) 11
  /\ List.map Js.gt_zero
       [ Js.VStr ""; Js.VStr "0"; Js.VStr "-1"; Js.VStr "12px"; Js.VStr "+0x10";
         Js.VStr "1e"; Js.VStr "."; Js.VStr "infinity"; Js.VStr "1e-400";
         Js.VUndef; Js.VNull; Js.VNum Num.JNaN; Js.VArr []; Js.VArr [Js.VNull];
         Js.VArr [Js.VNum (Num.JFin 5); Js.VNum (Num.JFin 6)]; Js.VObj [];
         Js.VObj [("valueOf", Js.VNum (Num.JFin 1))] ]
     = List.repeat (Some false) 17
  /\ List.map Js.gt_zero
       [ Js.VObj [("toString", Js.VNum (Num.JFin 1))];
         Js.VArr [Js.VObj [("toString", Js.VNull)]] ]
     = [None; None].
Proof. repeat split; vm_compute; reflexivity. Qed.

(** An object with a length that is the text ["1.5"] passes the test of
    [getEmbedByDataId]: its element 0 gives the title, and the series
    page and the movie page of that title are requested. *)
Example text_length_is_compared_as_a_number :
  List.map Async.req_url
    (Async.sent
       (snd (EmbedExtractor.getEmbedByDataId Examples.sample_base Examples.sample_loader
               (Examples.serving
                  [("https://anime-api-two-pi.vercel.app/api",
                    Js.VObj [ ("length", Js.VStr "1.5");
                              ("0", Js.VObj [("title", Js.VStr "Naruto")]) ])]
                  Examples.not_found)
               "20" (Num.JFin 1) Examples.fresh)))
  = [ "https://watchanimeworld.in/episode/?data_id=20&season=1";
      "https://anime-api-two-pi.vercel.app/api";
      "https://watchanimeworld.in/series/naruto/";
      "https://watchanimeworld.in/movies/naruto/" ].
Proof. vm_compute. reflexivity. Qed.

(** A [data_id] that cannot be converted to a text makes the search of
    the listing throw; the title stays null.  A title that cannot be
    converted is kept: only its log line fails. *)
Example unconvertible_listing_values :
  EmbedExtractor.lookupTitle
    (Examples.serving
       [("https://anime-api-two-pi.vercel.app/api",
         Js.VArr [ Js.VObj [("data_id", Js.VObj [("toString", Js.VNull)])];
                   More.spy_record ])]
       Examples.not_found)
    "17977" Examples.fresh
  = (Async.Return Js.VNull,
     {| Async.sent := [EmbedExtractor.api_request []];
        Async.logged :=
          [(Async.Warn, "Could not fetch from external API: "
                        ++ "Cannot convert object to primitive value")] |})
  /\ EmbedExtractor.lookupTitle
       (Examples.serving
          [("https://anime-api-two-pi.vercel.app/api",
            Js.VArr [ Js.VObj [ ("data_id", Js.VStr "7");
                                ("title", Js.VObj [("toString", Js.VNull)]) ] ])]
          Examples.not_found)
       "7" Examples.fresh
     = (Async.Return (Js.VObj [("toString", Js.VNull)]),
        {| Async.sent := [EmbedExtractor.api_request []];
           Async.logged :=
             [(Async.Warn, "Could not fetch from external API: "
                           ++ "Cannot convert object to primitive value")] |}).
Proof. split; vm_compute; reflexivity. Qed.

(** A null entry in the listing makes the search callback fail; the
    failure is caught and the title stays null. *)
Example null_listing_entry_is_swallowed :
  fst (EmbedExtractor.lookupTitle
         (Examples.serving
            [("https://anime-api-two-pi.vercel.app/api",
              Js.VArr [Js.VNull; Js.VObj [("data_id", Js.VStr "7");
                                          ("title", Js.VStr "Bleach")]])]
            Examples.not_found)
         "7" Examples.fresh)
  = Async.Return Js.VNull
  /\ fst (EmbedExtractor.lookupTitle
            (Examples.serving
               [("https://anime-api-two-pi.vercel.app/api",
                 Js.VArr [Js.VObj [("data_id", Js.VNum (Num.JFin 7));
                                   ("title", Js.VStr "Bleach")]])]
               Examples.not_found)
            "7" Examples.fresh)
     = Async.Return (Js.VStr "Bleach").
Proof. split; reflexivity. Qed.

(* ================================================================== *)
(** * More on the episode identifier codec *)
(* ================================================================== *)

Module CodecMore.

Import Chars Str StrFacts Num NumFacts Props EmbedExtractor.

Lemma decimal_digits d : all is_digit (NilEmpty.string_of_uint d) = true.
Proof. induction d; simpl; auto. Qed.

Lemma decimal_is_digits n : all is_digit (decimal n) = true.
Proof. apply decimal_digits. Qed.

Lemma decimal_not_empty n : decimal n <> EmptyString.
Proof.
  unfold decimal. destruct (Z.to_N n) as [|p]; [discriminate|].
  cbn [N.to_uint]. pose proof (DecimalPos.Unsigned.to_uint_nonnil p) as H.
  destruct (Pos.to_uint p); [congruence | discriminate..].
Qed.

Lemma decimal_value n : 0 <= n -> digits_value (decimal n) = Some n.
Proof.
  intros H. unfold digits_value, decimal.
  rewrite NilEmpty.usu, DecimalN.Unsigned.of_to, Z2N.id by assumption.
  reflexivity.
Qed.

Lemma parseInt10_decimal n : 0 <= n < 2 ^ 53 -> parseInt10 (decimal n) = JFin n.
Proof.
  intros [H0 H1].
  destruct (parseInt10_digits (decimal n) (decimal_not_empty n) (decimal_is_digits n))
    as (m & Hm & _ & ->).
  rewrite decimal_value in Hm by assumption. inversion Hm; subst.
  now apply round_small.
Qed.

Lemma to_string_decimal n : 0 <= n < 2 ^ 53 -> Num.to_string (JFin n) = decimal n.
Proof.
  intros [H0 H1]. destruct (Z.eq_dec n 0) as [->|Hn]; [reflexivity|].
  assert (M : magnitude_to_string n = decimal n).
  { unfold magnitude_to_string. rewrite CodecFacts.shortest_small by lia.
    assert (S21 : (n <? 10 ^ 21) = true).
    { apply Z.ltb_lt. assert (2 ^ 53 < 10 ^ 21) by reflexivity. lia. }
    now rewrite S21. }
  destruct n as [|q|q]; try lia. exact M.
Qed.

(** A zero in front of a run of digits does not change its value. *)
Lemma leading_zero_value ds :
  digits_value (String "0" ds) = digits_value ds.
Proof.
  unfold digits_value. cbn [NilEmpty.uint_of_string].
  destruct (NilEmpty.uint_of_string ds) as [d|]; reflexivity.
Qed.

Lemma parseInt10_leading_zero ds :
  ds <> EmptyString -> all is_digit ds = true ->
  parseInt10 (String "0" ds) = parseInt10 ds.
Proof.
  intros Hne Hd.
  destruct (parseInt10_digits ds Hne Hd) as (n & Hn & _ & ->).
  destruct (parseInt10_digits (String "0" ds)) as (m & Hm & _ & ->);
    [discriminate | cbn [all]; now rewrite Hd |].
  rewrite leading_zero_value in Hm. congruence.
Qed.

End CodecMore.

Lemma series_id_of_episode_id_witness :
  EmbedExtractor.getSeriesIdFromEpisodeId ("jujutsu-kaisen" ++ "-" ++ "2" ++ "x" ++ "12")
  = "jujutsu-kaisen".
Proof.
  apply (series_id_of_episode_id "jujutsu-kaisen" "2" "12");
    try reflexivity; discriminate.
Defined.

(** The series identifier is a prefix of the identifier it is derived
    from: what [getSeriesIdFromEpisodeId] cuts off is nothing, or one
    suffix [-<digits>x<digits>]; it is never empty for a non-empty input;
    and a string without such a suffix comes back unchanged. *)
Theorem series_id_is_a_prefix (i : string) :
  (exists rest,
     i = EmbedExtractor.getSeriesIdFromEpisodeId i ++ rest
     /\ (rest = ""
         \/ exists a b, rest = "-" ++ a ++ "x" ++ b
                        /\ a <> "" /\ b <> ""
                        /\ Str.all Chars.is_digit a = true
                        /\ Str.all Chars.is_digit b = true))
  /\ (i <> "" -> EmbedExtractor.getSeriesIdFromEpisodeId i <> "")
  /\ (~ Props.has_episode_suffix i -> EmbedExtractor.getSeriesIdFromEpisodeId i = i).
Proof.
  unfold EmbedExtractor.getSeriesIdFromEpisodeId.
  destruct (EmbedExtractor.match_episode i) as [[[p a] b]|] eqn:M.
  - destruct (CodecFacts.match_episode_sound _ _ _ _ M)
      as (E & Hp & _ & Ha & Hb & Da & Db).
    split; [|split].
    + exists ("-" ++ a ++ "x" ++ b). split; [exact E|]. right. exists a, b. auto.
    + intros _. exact Hp.
    + intros Hno. exfalso. apply Hno. exists p, a, b. auto.
  - split; [|split].
    + exists "". split; [now rewrite StrFacts.append_nil_r | now left].
    + auto.
    + reflexivity.
Qed.

(** Encode, then decode: the identifier written for a slug and two
    numbers from 0 to [2^53 - 1] parses back to the slug and the numbers,
    and its series identifier is the slug. *)
Theorem parse_of_composite (slug : string) (n m : Z) :
  slug <> "" -> Props.no_line_terminator slug = true ->
  0 <= n < 2 ^ 53 -> 0 <= m < 2 ^ 53 ->
  EmbedExtractor.parseEpisodeId
    (EmbedExtractor.compositeId slug (Num.JFin n) (Num.JFin m))
  = Some {| EmbedExtractor.animeTitle := slug;
            EmbedExtractor.season := Num.JFin n;
            EmbedExtractor.episode := Num.JFin m |}
  /\ EmbedExtractor.getSeriesIdFromEpisodeId
       (EmbedExtractor.compositeId slug (Num.JFin n) (Num.JFin m))
     = slug.
Proof.
  intros Hslug Hlt Hn Hm.
  unfold EmbedExtractor.compositeId, EmbedExtractor.parseEpisodeId,
    EmbedExtractor.getSeriesIdFromEpisodeId.
  rewrite (CodecMore.to_string_decimal n Hn), (CodecMore.to_string_decimal m Hm).
  rewrite (CodecFacts.match_episode_complete slug (Num.decimal n) (Num.decimal m));
    auto using CodecMore.decimal_not_empty, CodecMore.decimal_is_digits.
  rewrite (CodecMore.parseInt10_decimal n Hn), (CodecMore.parseInt10_decimal m Hm).
  split; reflexivity.
Qed.

Lemma parse_of_composite_witness :
  EmbedExtractor.parseEpisodeId
    (EmbedExtractor.compositeId "one-punch-man" (Num.JFin 2) (Num.JFin 0))
  = Some {| EmbedExtractor.animeTitle := "one-punch-man";
            EmbedExtractor.season := Num.JFin 2;
            EmbedExtractor.episode := Num.JFin 0 |}
  /\ EmbedExtractor.getSeriesIdFromEpisodeId
       (EmbedExtractor.compositeId "one-punch-man" (Num.JFin 2) (Num.JFin 0))
     = "one-punch-man".
Proof.
  apply (parse_of_composite "one-punch-man" 2 0);
    [discriminate | reflexivity | split; [lia | reflexivity] | split; [lia | reflexivity]].
Defined.

(** A zero written in front of the season or of the episode does not
    change what [parseEpisodeId] returns, whatever the size of the
    numbers. *)
Theorem leading_zero_is_ignored (slug s e : string) :
  slug <> "" -> Props.no_line_terminator slug = true ->
  s <> "" -> e <> "" ->
  Str.all Chars.is_digit s = true -> Str.all Chars.is_digit e = true ->
  EmbedExtractor.parseEpisodeId (slug ++ "-" ++ String "0" s ++ "x" ++ e)
  = EmbedExtractor.parseEpisodeId (slug ++ "-" ++ s ++ "x" ++ e)
  /\ EmbedExtractor.parseEpisodeId (slug ++ "-" ++ s ++ "x" ++ String "0" e)
     = EmbedExtractor.parseEpisodeId (slug ++ "-" ++ s ++ "x" ++ e)
  /\ exists p, EmbedExtractor.parseEpisodeId (slug ++ "-" ++ s ++ "x" ++ e) = Some p
               /\ EmbedExtractor.animeTitle p = slug.
Proof.
  intros Hslug Hlt Hs He Ds De.
  assert (Ds0 : Str.all Chars.is_digit (String "0" s) = true)
    by (cbn [Str.all]; now rewrite Ds).
  assert (De0 : Str.all Chars.is_digit (String "0" e) = true)
    by (cbn [Str.all]; now rewrite De).
  unfold EmbedExtractor.parseEpisodeId.
  rewrite (CodecFacts.match_episode_complete slug (String "0" s) e)
    by (auto; discriminate).
  rewrite (CodecFacts.match_episode_complete slug s (String "0" e))
    by (auto; discriminate).
  rewrite (CodecFacts.match_episode_complete slug s e) by auto.
  rewrite !CodecMore.parseInt10_leading_zero by assumption.
  split; [reflexivity|]. split; [reflexivity|]. eexists. split; reflexivity.
Qed.

Lemma leading_zero_is_ignored_witness :
  EmbedExtractor.parseEpisodeId ("naruto" ++ "-" ++ String "0" "1" ++ "x" ++ "7")
  = EmbedExtractor.parseEpisodeId ("naruto" ++ "-" ++ "1" ++ "x" ++ "7").
Proof.
  refine (proj1 (leading_zero_is_ignored "naruto" "1" "7" _ eq_refl _ _ eq_refl eq_refl));
    discriminate.
Defined.

(* ================================================================== *)
(** * More on the page parser and on titles *)
(* ================================================================== *)

Module ParserMore.

Import Chars Str StrFacts Num NumFacts Props More EmbedExtractor.

Lemma equal_indexes_compare_equal a b k :
  Num.eqb a k = true -> Num.eqb b k = true -> sub_sign a b = 0.
Proof.
  destruct a as [|s|x], b as [|t|y], k as [|u|z]; simpl; try discriminate.
  - intros Hs Ht. apply Bool.eqb_prop in Hs, Ht. subst.
    now rewrite Bool.eqb_reflx.
  - intros Hx Hy. apply Z.eqb_eq in Hx, Hy. subst.
    now rewrite Z.sub_diag.
Qed.

Lemma filter_insert k x l :
  List.filter (same_index k) (insert x l)
  = List.filter (same_index k) (x :: l).
Proof.
  induction l as [|y r IH]; [reflexivity|].
  cbn [insert]. destruct (Z.leb_spec (sub_sign (server x) (server y)) 0) as [H|H];
    [reflexivity|].
  cbn [List.filter] in *. rewrite IH.
  destruct (same_index k x) eqn:Px; [|reflexivity].
  destruct (same_index k y) eqn:Py; [|reflexivity].
  unfold same_index in Px, Py.
  rewrite (equal_indexes_compare_equal _ _ _ Px Py) in H. lia.
Qed.

Lemma filter_sort k l :
  List.filter (same_index k) (sort l) = List.filter (same_index k) l.
Proof.
  induction l as [|x r IH]; [reflexivity|].
  cbn [sort]. rewrite filter_insert. cbn [List.filter]. now rewrite IH.
Qed.

Lemma strip_options_prefix x : strip_prefix "options-" ("options-" ++ x) = Some x.
Proof. reflexivity. Qed.

Lemma match_options_standard ds rest :
  ds <> EmptyString -> all is_digit ds = true ->
  match rest with EmptyString => True | String c _ => is_digit c = false end ->
  match_options ("options-" ++ ds ++ rest) = Some ds.
Proof.
  intros Hne Hd Hr. rewrite ParserFacts.match_options_eq. cbv zeta.
  rewrite strip_options_prefix, (span_all is_digit ds rest Hd Hr).
  destruct ds; [congruence | reflexivity].
Qed.



End ParserMore.

(** Entries with the same server index keep the order of their blocks in
    the document: the sort of [extract] is stable. *)
Theorem extract_keeps_document_order_on_ties
    (doc : EmbedExtractor.Document) (k : Num.JsNum) :
  List.filter (More.same_index k) (EmbedExtractor.servers (EmbedExtractor.extract doc))
  = List.filter (More.same_index k)
      (EmbedExtractor.collect doc (EmbedExtractor.option_divs doc)).
Proof. cbn [EmbedExtractor.extract EmbedExtractor.servers]. apply ParserMore.filter_sort. Qed.

(** A block whose id is [options-] followed by the digits of a number
    [n] from 0 to [2^53 - 1], and whose iframe gives an address, yields
    the entry with index [n]; without a label its name is ["Server "]
    followed by the same digits. *)
Theorem option_id_gives_server_number
    (doc : EmbedExtractor.Document) (el : EmbedExtractor.OptionDiv) (n : Z) :
  EmbedExtractor.attr_id el = "options-" ++ Num.decimal n ->
  0 <= n < 2 ^ 53 ->
  EmbedExtractor.first_usable (EmbedExtractor.iframe_src el)
    (EmbedExtractor.iframe_data_src el) <> "" ->
  exists e,
    EmbedExtractor.extract_option doc el = Some e
    /\ EmbedExtractor.server e = Num.JFin n
    /\ EmbedExtractor.url e
       = EmbedExtractor.first_usable (EmbedExtractor.iframe_src el)
           (EmbedExtractor.iframe_data_src el)
    /\ (Str.trim (EmbedExtractor.server_label doc (EmbedExtractor.attr_id el)) = "" ->
        EmbedExtractor.name e = "Server " ++ Num.decimal n).
Proof.
  intros Hid Hn Hu. unfold EmbedExtractor.extract_option. rewrite Hid.
  assert (M : EmbedExtractor.match_options ("options-" ++ Num.decimal n)
              = Some (Num.decimal n)).
  { rewrite <- (StrFacts.append_nil_r (Num.decimal n)) at 1.
    apply ParserMore.match_options_standard;
      auto using CodecMore.decimal_not_empty, CodecMore.decimal_is_digits. }
  rewrite M, (CodecMore.parseInt10_decimal n Hn).
  destruct (EmbedExtractor.first_usable _ _) as [|c r]; [congruence|].
  eexists. split; [reflexivity|].
  cbn [EmbedExtractor.server EmbedExtractor.url EmbedExtractor.name].
  split; [reflexivity|]. split; [reflexivity|].
  intros ->. now rewrite (CodecMore.to_string_decimal n Hn).
Qed.

Lemma option_id_gives_server_number_witness :
  exists e,
    EmbedExtractor.extract_option Examples.sample_document
      {| EmbedExtractor.attr_id := "options-12";
         EmbedExtractor.iframe_src := None;
         EmbedExtractor.iframe_data_src := Some "https://play.example/e/12" |}
    = Some e
    /\ EmbedExtractor.server e = Num.JFin 12
    /\ EmbedExtractor.name e = "Server 12".
Proof.
  destruct (option_id_gives_server_number Examples.sample_document
              {| EmbedExtractor.attr_id := "options-12";
                 EmbedExtractor.iframe_src := None;
                 EmbedExtractor.iframe_data_src := Some "https://play.example/e/12" |}
              12 eq_refl)
    as (e & He & Hs & _ & Hname);
    [split; [lia | reflexivity] | discriminate |].
  exists e. split; [exact He|]. split; [exact Hs|]. apply Hname. reflexivity.
Defined.

(** Normalising a title twice gives what normalising it once gives. *)
Theorem title_normalisation_is_idempotent (title : string) :
  EmbedExtractor.titleToSeriesId (EmbedExtractor.titleToSeriesId title)
  = EmbedExtractor.titleToSeriesId title.
Proof.
  apply Normalise.slug_is_fixed.
  unfold EmbedExtractor.titleToSeriesId.
  apply Normalise.all_strip.
  apply Normalise.all_replace_ws; [reflexivity|].
  apply Normalise.all_map_lower.
Qed.


(* ================================================================== *)
(** * More on retrieval and on the metadata service *)
(* ================================================================== *)

Module RetrievalMore.

Import Num Js Async EmbedExtractor Props More.
Local Open Scope async_scope.

Lemma get_prop_object fields k : get_prop (VObj fields) k = Some (field k fields).
Proof. unfold get_prop, field. destruct (lookup k fields); reflexivity. Qed.

Section Site.

Variable baseUrl : string.
Variable loadCheerio : JsVal -> Document.
Variable net : Network.

(** The run of [extractFromUrl] after a "not found" on the episode page. *)
Lemma extractFromUrl_not_found i rt e :
  let seriesId := getSeriesIdFromEpisodeId i in
  let ep := page_request (episodeUrl baseUrl i) in
  let sr := page_request (seriesUrl baseUrl seriesId) in
  let mv := page_request (moviesUrl baseUrl seriesId) in
  let note := (Info, "Episode page not found (404), trying details page for: " ++ i) in
  settle net (sent rt) ep = Rejected e -> is404 e = true ->
  extractFromUrl baseUrl loadCheerio net i rt
  = match settle net (sent rt ++ [ep]) sr with
    | Resolved html =>
        (Return (set_id (extract (loadCheerio html)) i),
         {| sent := sent rt ++ [ep; sr]; logged := logged rt ++ [note] |})
    | Rejected _ =>
        match settle net (sent rt ++ [ep; sr]) mv with
        | Resolved html =>
            (Return (set_id (extract (loadCheerio html)) i),
             {| sent := sent rt ++ [ep; sr; mv]; logged := logged rt ++ [note] |})
        | Rejected e2 =>
            (Throw e2,
             {| sent := sent rt ++ [ep; sr; mv]; logged := logged rt ++ [note] |})
        end
    end.
Proof.
  intros seriesId ep sr mv note Hfetch Hclass.
  unfold extractFromUrl, try_catch.
  rewrite RetrievalFacts.fetch_page_run. fold ep. rewrite Hfetch, Hclass.
  unfold bind at 1. unfold log at 1.
  fold seriesId. unfold bind.
  rewrite RetrievalFacts.try_detail_urls_cons.
  cbn [sent logged record_request]. fold sr note.
  destruct (settle net (sent rt ++ [ep]) sr) as [html|e1].
  - unfold ret, record_request. cbn [sent logged].
    rewrite <- app_assoc. reflexivity.
  - rewrite RetrievalFacts.try_detail_urls_cons.
    unfold record_request. cbn [sent logged]. fold mv.
    rewrite <- !app_assoc. cbn [app].
    destruct (settle net (sent rt ++ [ep; sr]) mv) as [html|e2];
      reflexivity.
Qed.

Lemma getAnimeIdFromExternalApi_unparsable i rt :
  parseEpisodeId i = None ->
  getAnimeIdFromExternalApi net i rt
  = (Return None,
     {| sent := sent rt;
        logged := logged rt ++ [(Warn, "Could not parse episode ID: " ++ i)] |}).
Proof.
  intros H. unfold getAnimeIdFromExternalApi, try_catch. rewrite H. reflexivity.
Qed.

End Site.

End RetrievalMore.

(** [extractFromUrl] sends one, two or three requests: the episode page,
    then the series page, then the movie page of the derived series
    identifier, in this order and nothing else.  It writes at most one
    log line. *)
Theorem extractFromUrl_sends_at_most_three_requests
    (baseUrl : string) (loadCheerio : Js.JsVal -> EmbedExtractor.Document)
    (net : Async.Network) (i : string) (rt : Async.Runtime) :
  let seriesId := EmbedExtractor.getSeriesIdFromEpisodeId i in
  let out := EmbedExtractor.extractFromUrl baseUrl loadCheerio net i rt in
  exists reqs rest,
    reqs <> []
    /\ (reqs ++ rest)%list
       = [ EmbedExtractor.page_request (EmbedExtractor.episodeUrl baseUrl i);
           EmbedExtractor.page_request (EmbedExtractor.seriesUrl baseUrl seriesId);
           EmbedExtractor.page_request (EmbedExtractor.moviesUrl baseUrl seriesId) ]
    /\ Async.sent (snd out) = (Async.sent rt ++ reqs)%list
    /\ (List.length (Async.logged (snd out)) <= List.length (Async.logged rt) + 1)%nat.
Proof.
  cbv zeta.
  assert (Close : forall (st : Async.Runtime) reqs rest,
            reqs <> [] ->
            (reqs ++ rest)%list
            = [ EmbedExtractor.page_request (EmbedExtractor.episodeUrl baseUrl i);
                EmbedExtractor.page_request
                  (EmbedExtractor.seriesUrl baseUrl
                     (EmbedExtractor.getSeriesIdFromEpisodeId i));
                EmbedExtractor.page_request
                  (EmbedExtractor.moviesUrl baseUrl
                     (EmbedExtractor.getSeriesIdFromEpisodeId i)) ] ->
            Async.sent st = (Async.sent rt ++ reqs)%list ->
            (List.length (Async.logged st) <= List.length (Async.logged rt) + 1)%nat ->
            exists reqs rest,
              reqs <> []
              /\ (reqs ++ rest)%list
                 = [ EmbedExtractor.page_request (EmbedExtractor.episodeUrl baseUrl i);
                     EmbedExtractor.page_request
                       (EmbedExtractor.seriesUrl baseUrl
                          (EmbedExtractor.getSeriesIdFromEpisodeId i));
                     EmbedExtractor.page_request
                       (EmbedExtractor.moviesUrl baseUrl
                          (EmbedExtractor.getSeriesIdFromEpisodeId i)) ]
              /\ Async.sent st = (Async.sent rt ++ reqs)%list
              /\ (List.length (Async.logged st) <= List.length (Async.logged rt) + 1)%nat).
  { intros st reqs rest H1 H2 H3 H4. exists reqs, rest. auto. }
  destruct (Async.settle net (Async.sent rt)
              (EmbedExtractor.page_request (EmbedExtractor.episodeUrl baseUrl i)))
    as [html|e] eqn:F.
  - unfold EmbedExtractor.extractFromUrl, Async.try_catch.
    rewrite RetrievalFacts.fetch_page_run, F. cbn [snd].
    eapply (Close _ [_] [_; _]); [discriminate | reflexivity | reflexivity | cbn; lia].
  - destruct (EmbedExtractor.is404 e) eqn:C.
    + rewrite (RetrievalMore.extractFromUrl_not_found baseUrl loadCheerio net i rt e F C).
      match goal with
      | |- context [match Async.settle net ?h ?r with _ => _ end] =>
          destruct (Async.settle net h r) as [html|e1]
      end.
      * cbn [snd]. eapply (Close _ [_; _] [_]);
          [discriminate | reflexivity | reflexivity
          | cbn [Async.logged]; rewrite length_app; cbn; lia].
      * match goal with
        | |- context [match Async.settle net ?h ?r with _ => _ end] =>
            destruct (Async.settle net h r) as [html|e2]
        end;
          cbn [snd]; eapply (Close _ [_; _; _] []);
          [discriminate | reflexivity | reflexivity
          | cbn [Async.logged]; rewrite length_app; cbn; lia
          | discriminate | reflexivity | reflexivity
          | cbn [Async.logged]; rewrite length_app; cbn; lia].
    + unfold EmbedExtractor.extractFromUrl, Async.try_catch.
      rewrite RetrievalFacts.fetch_page_run, F, C. cbn [snd].
      eapply (Close _ [_] [_; _]); [discriminate | reflexivity | reflexivity | cbn; lia].
Qed.

(** For an identifier that [parseEpisodeId] does not accept, the metadata
    service is not contacted: [getAnimeIdFromExternalApi] returns null
    after a warning, and [getEmbedWithMapping] returns what
    [extractFromUrl] returns, after the same requests. *)
Theorem unparsable_id_skips_the_metadata_service
    (baseUrl : string) (loadCheerio : Js.JsVal -> EmbedExtractor.Document)
    (net : Async.Network) (i : string) (rt : Async.Runtime) :
  EmbedExtractor.parseEpisodeId i = None ->
  let warned :=
    {| Async.sent := Async.sent rt;
       Async.logged :=
         (Async.logged rt
          ++ [(Async.Warn, ("Could not parse episode ID: " ++ i)%string)])%list |} in
  let told :=
    {| Async.sent := Async.sent rt;
       Async.logged :=
         (Async.logged warned
          ++ [(Async.Info,
               ("Could not map " ++ i
                ++ " with external API, falling back to direct extraction")%string)])%list |} in
  EmbedExtractor.getAnimeIdFromExternalApi net i rt = (Async.Return None, warned)
  /\ fst (EmbedExtractor.getEmbedWithMapping baseUrl loadCheerio net i rt)
     = fst (EmbedExtractor.extractFromUrl baseUrl loadCheerio net i told)
  /\ Async.sent (snd (EmbedExtractor.getEmbedWithMapping baseUrl loadCheerio net i rt))
     = Async.sent (snd (EmbedExtractor.extractFromUrl baseUrl loadCheerio net i told)).
Proof.
  intros H. cbv zeta.
  pose proof (RetrievalMore.getAnimeIdFromExternalApi_unparsable net i rt H) as Hm.
  split; [exact Hm|].
  cbn [Async.sent Async.logged].
  match goal with
  | |- context [EmbedExtractor.extractFromUrl _ _ _ _ ?st] => set (told := st)
  end.
  enough (Hrun : exists c st,
            EmbedExtractor.getEmbedWithMapping baseUrl loadCheerio net i rt = (c, st)
            /\ c = fst (EmbedExtractor.extractFromUrl baseUrl loadCheerio net i told)
            /\ Async.sent st
               = Async.sent
                   (snd (EmbedExtractor.extractFromUrl baseUrl loadCheerio net i told))).
  { destruct Hrun as (c & st & -> & H1 & H2). cbn [fst snd]. auto. }
  unfold EmbedExtractor.getEmbedWithMapping, Async.try_catch.
  unfold Async.bind at 1. rewrite Hm.
  unfold Async.bind at 1, Async.log at 1. cbn [Async.sent Async.logged]. fold told.
  destruct (EmbedExtractor.extractFromUrl baseUrl loadCheerio net i told)
    as [[data|err] st]; eexists; eexists; (split; [reflexivity|]);
    cbn [fst snd Async.sent]; auto.
Qed.

Lemma unparsable_id_skips_the_metadata_service_witness :
  List.map Async.req_url
    (Async.sent
       (snd (EmbedExtractor.getEmbedWithMapping Examples.sample_base
               Examples.sample_loader
               (Examples.serving
                  [("https://watchanimeworld.in/movies/one-piece/", Js.VStr "movie page")]
                  Examples.not_found)
               "one-piece" Examples.fresh)))
  = [ "https://watchanimeworld.in/episode/one-piece/";
      "https://watchanimeworld.in/series/one-piece/";
      "https://watchanimeworld.in/movies/one-piece/" ].
Proof.
  destruct (unparsable_id_skips_the_metadata_service Examples.sample_base
              Examples.sample_loader
              (Examples.serving
                 [("https://watchanimeworld.in/movies/one-piece/", Js.VStr "movie page")]
                 Examples.not_found)
              "one-piece" Examples.fresh eq_refl) as (_ & _ & Hsent).
  rewrite Hsent. reflexivity.
Defined.

(** When the search answers with an array whose first element is an
    object, that element alone decides the mapping: there is a match
    exactly when its [id] is truthy; [dataId] is its [data_id] or null,
    the title its [title] or the title parsed from the identifier.  One
    request is sent, with the parsed title as [q]. *)
Theorem first_result_decides_the_mapping
    (net : Async.Network) (i : string) (rt : Async.Runtime)
    (parsed : EmbedExtractor.ParsedEpisode)
    (fields : list (string * Js.JsVal)) (others : list Js.JsVal) :
  EmbedExtractor.parseEpisodeId i = Some parsed ->
  Async.settle net (Async.sent rt)
    (EmbedExtractor.api_request [("q", EmbedExtractor.animeTitle parsed)])
  = Async.Resolved (Js.VArr (Js.VObj fields :: others)) ->
  EmbedExtractor.getAnimeIdFromExternalApi net i rt
  = (Async.Return
       (if Js.truthy (More.field "id" fields)
        then Some {| EmbedExtractor.externalApiId := More.field "id" fields;
                     EmbedExtractor.dataId :=
                       Js.or_else (More.field "data_id" fields) Js.VNull;
                     EmbedExtractor.episodeId := i;
                     EmbedExtractor.mappedSeason := EmbedExtractor.season parsed;
                     EmbedExtractor.mappedEpisode := EmbedExtractor.episode parsed;
                     EmbedExtractor.originalTitle :=
                       Js.or_else (More.field "title" fields)
                         (Js.VStr (EmbedExtractor.animeTitle parsed)) |}
        else None),
     {| Async.sent :=
          (Async.sent rt
           ++ [EmbedExtractor.api_request [("q", EmbedExtractor.animeTitle parsed)]])%list;
        Async.logged := Async.logged rt |}).
Proof.
  intros Hp Hs.
  unfold EmbedExtractor.getAnimeIdFromExternalApi, Async.try_catch. rewrite Hp.
  unfold Async.bind at 1.
  rewrite (ResolverFacts.searchAnimeInExternalApi_first net _ rt _ _ Hs).
  cbn [Js.truthy]. unfold EmbedExtractor.prop.
  rewrite !RetrievalMore.get_prop_object.
  unfold Async.bind at 1, Async.ret at 1.
  destruct (Js.truthy (More.field "id" fields)); reflexivity.
Qed.

Lemma first_result_decides_the_mapping_witness :
  fst (EmbedExtractor.getAnimeIdFromExternalApi
         (Examples.serving
            [("https://anime-api-two-pi.vercel.app/api",
              Js.VArr [Js.VObj [("title", Js.VStr "No id here")]; More.spy_record])]
            Examples.not_found)
         "spy-x-family-3x1" Examples.fresh)
  = Async.Return None.
Proof.
  rewrite (first_result_decides_the_mapping
             (Examples.serving
                [("https://anime-api-two-pi.vercel.app/api",
                  Js.VArr [Js.VObj [("title", Js.VStr "No id here")]; More.spy_record])]
                Examples.not_found)
             "spy-x-family-3x1" Examples.fresh
             {| EmbedExtractor.animeTitle := "spy-x-family";
                EmbedExtractor.season := Num.JFin 3;
                EmbedExtractor.episode := Num.JFin 1 |}
             [("title", Js.VStr "No id here")] [More.spy_record] eq_refl eq_refl).
  reflexivity.
Defined.

(* ================================================================== *)
(** * More on retrieval by data id, season and episode *)
(* ================================================================== *)

Module DataIdMore.

Import Num Js Async EmbedExtractor Props More.
Local Open Scope async_scope.

Lemma first_success_length net h urls :
  (List.length (fst (first_success net h urls)) <= List.length urls)%nat.
Proof.
  revert h. induction urls as [|u r IH]; intros h; [reflexivity|].
  rewrite DataIdFacts.first_success_cons.
  destruct (settle net h (page_request u)); cbn [fst List.length].
  - lia.
  - specialize (IH (h ++ [page_request u])%list). lia.
Qed.

(** The search callback of [find] stops at the first entry whose
    [data_id], as a text, is the one looked for. *)
Lemma find_by_data_id_first_match pre item post data_id v :
  Forall (fun x => exists w, get_prop x "data_id" = Some w
                             /\ to_String w <> data_id) pre ->
  get_prop item "data_id" = Some v -> to_String v = data_id ->
  find_by_data_id (pre ++ item :: post) data_id
  = if forallb readable_data_id (pre ++ [item]) then Return (Some item)
    else Throw not_convertible.
Proof.
  intros Hpre Hv Hs. induction Hpre as [|x pre (w & Hw & Hne) _ IH];
    cbn [app find_by_data_id forallb]; unfold readable_data_id at 1.
  - rewrite Hv. unfold String_of. destruct (convertible v); [|reflexivity].
    apply String.eqb_eq in Hs. now rewrite Hs.
  - rewrite Hw. unfold String_of. destruct (convertible w); [|reflexivity].
    apply String.eqb_neq in Hne. rewrite Hne. exact IH.
Qed.

Section Site.

Variable baseUrl : string.
Variable loadCheerio : JsVal -> Document.
Variable net : Network.

(** Whatever the listing answers, [lookupTitle] sends one request. *)
Lemma lookupTitle_sent data_id rt :
  sent (snd (lookupTitle net data_id rt)) = (sent rt ++ [api_request []])%list.
Proof.
  unfold lookupTitle, try_catch at 1, bind at 1, http_get_race, http_get.
  destruct (overdue net (sent rt) (api_request [])); [reflexivity|].
  destruct (settle net (sent rt) (api_request [])) as [body|err]; [|reflexivity].
  destruct body as [| | | | |items|]; try reflexivity.
  unfold bind at 1, lift.
  destruct (find_by_data_id items data_id) as [[a|]|e0]; try reflexivity.
  destruct (truthy a); [|reflexivity].
  unfold prop. destruct (get_prop a "title") as [t|]; [|reflexivity].
  unfold bind at 1, ret at 1. destruct (truthy t); [|reflexivity].
  unfold convert. destruct (String_of t); reflexivity.
Qed.

(** From the candidates on: their pages are tried in order, and the first
    one fetched gives the result. *)
Lemma fetchByPatterns_with data_id s e title cands rt :
  (forall st, seriesPatternsFor title st = (Return cands, st)) ->
  exists res st,
    fetchByPatterns baseUrl loadCheerio net data_id s e title rt = (res, st)
    /\ sent st
       = (sent rt ++ fst (first_success net (sent rt) (attempts baseUrl cands s e)))%list
    /\ res = match snd (first_success net (sent rt) (attempts baseUrl cands s e)) with
             | Some html =>
                 Return (finish data_id s e title
                           (compositeId (first_or_undefined cands) s e)
                           (extract (loadCheerio html)))
             | None =>
                 Throw (Error ("Could not find any page for data_id: " ++ data_id))
             end.
Proof.
  intros Hc. unfold fetchByPatterns, attempts.
  unfold bind at 1. rewrite Hc.
  set (cid := compositeId (first_or_undefined cands) s e).
  unfold bind at 1, log at 1.
  rewrite DataIdFacts.episode_attempt_run. cbn [sent logged].
  rewrite DataIdFacts.first_success_cons.
  destruct (settle net (sent rt) (page_request (episodeUrl baseUrl cid))) as [html|e1].
  - eexists. eexists. split; [reflexivity|]. cbn [fst snd sent]. split; reflexivity.
  - unfold bind at 1, log at 1. cbn [sent logged]. unfold bind.
    match goal with
    | |- context [try_patterns _ _ _ ?d ?a ?b ?t ?c ?l ?st] =>
        destruct (DataIdFacts.try_patterns_run baseUrl loadCheerio net d a b t c l st)
          as [I1 I2];
        cbn [sent] in I1, I2;
        destruct (try_patterns baseUrl loadCheerio net d a b t c l st) as [res st'] eqn:R
    end.
    cbn [fst snd] in *. subst res.
    destruct (snd (first_success net _ _)) as [html|]; cbn [option_map];
      (eexists; eexists; split; [reflexivity|]); rewrite I2, <- app_assoc;
      split; reflexivity.
Qed.

End Site.

End DataIdMore.

(** When the listing lookup leaves a text as title, the series identifier
    of that text is the only candidate: the method requests its episode
    page, then its series page, then its movie page, and returns the first
    page fetched; when all three fail it throws "Could not find any
    page". *)
Theorem resolved_title_is_the_sole_candidate
    (baseUrl : string) (loadCheerio : Js.JsVal -> EmbedExtractor.Document)
    (net : Async.Network) (data_id : string) (s e : Num.JsNum)
    (rt rt1 : Async.Runtime) (t : string) :
  EmbedExtractor.lookupTitle net data_id
    {| Async.sent := Async.sent rt;
       Async.logged :=
         (Async.logged rt
          ++ [(Async.Info,
               ("Searching for data_id: " ++ data_id ++ ", season: "
                ++ Num.to_string s ++ ", episode: " ++ Num.to_string e)%string)])%list |}
  = (Async.Return (Js.VStr t), rt1) ->
  t <> "" ->
  let slug := EmbedExtractor.titleToSeriesId t in
  let pages := [ EmbedExtractor.episodeUrl baseUrl (EmbedExtractor.compositeId slug s e);
                 EmbedExtractor.seriesUrl baseUrl slug;
                 EmbedExtractor.moviesUrl baseUrl slug ] in
  let tried := Props.first_success net (Async.sent rt1) pages in
  let out := EmbedExtractor.getEmbedByDataIdAndEpisode baseUrl loadCheerio net
               data_id s e rt in
  Async.sent (snd out) = (Async.sent rt1 ++ fst tried)%list
  /\ fst out
     = match snd tried with
       | Some html =>
           Async.Return
             (EmbedExtractor.finish data_id s e (Js.VStr t)
                (EmbedExtractor.compositeId slug s e)
                (EmbedExtractor.extract (loadCheerio html)))
       | None =>
           Async.Throw (Js.Error ("Could not find any page for data_id: " ++ data_id))
       end.
Proof.
  intros Hlook Ht. cbv zeta.
  assert (Tr : Js.truthy (Js.VStr t) = true).
  { cbn [Js.truthy]. apply negb_true_iff. now apply String.eqb_neq. }
  destruct (DataIdFacts.getEmbedByDataIdAndEpisode_run baseUrl loadCheerio net
              data_id s e rt (Js.VStr t) rt1 Hlook) as [Hres Hsent].
  rewrite Tr in Hres, Hsent. rewrite Hres, Hsent.
  destruct (DataIdMore.fetchByPatterns_with baseUrl loadCheerio net data_id s e
              (Js.VStr t) [EmbedExtractor.titleToSeriesId t] rt1)
    as (res & st & -> & Fsent & ->).
  { intros st. unfold EmbedExtractor.seriesPatternsFor. rewrite Tr. reflexivity. }
  cbn [fst snd]. rewrite Fsent. split; reflexivity.
Qed.

Lemma resolved_title_is_the_sole_candidate_witness :
  List.map Async.req_url
    (Async.sent
       (snd (EmbedExtractor.getEmbedByDataIdAndEpisode Examples.sample_base
               Examples.sample_loader
               (Examples.serving
                  [("https://anime-api-two-pi.vercel.app/api", Js.VArr [More.spy_record])]
                  Examples.not_found)
               "17977" (Num.JFin 3) (Num.JFin 1) Examples.fresh)))
  = [ "https://anime-api-two-pi.vercel.app/api";
      "https://watchanimeworld.in/episode/spy-x-family-3x1/";
      "https://watchanimeworld.in/series/spy-x-family/";
      "https://watchanimeworld.in/movies/spy-x-family/" ].
Proof.
  destruct (resolved_title_is_the_sole_candidate Examples.sample_base
              Examples.sample_loader
              (Examples.serving
                 [("https://anime-api-two-pi.vercel.app/api", Js.VArr [More.spy_record])]
                 Examples.not_found)
              "17977" (Num.JFin 3) (Num.JFin 1) Examples.fresh
              {| Async.sent := [EmbedExtractor.api_request []];
                 Async.logged :=
                   [ (Async.Info, "Searching for data_id: 17977, season: 3, episode: 1");
                     (Async.Info, "Found anime from API: Spy x Family") ] |}
              "Spy x Family" eq_refl) as [Hsent _]; [discriminate|].
  rewrite Hsent. reflexivity.
Defined.

(** A title of the listing that is truthy but not a text (a number, say)
    makes the method fail with a TypeError right after the listing
    request: no page is requested. *)
Theorem title_that_is_not_a_text_stops_the_flow
    (baseUrl : string) (loadCheerio : Js.JsVal -> EmbedExtractor.Document)
    (net : Async.Network) (data_id : string) (s e : Num.JsNum)
    (rt rt1 : Async.Runtime) (title : Js.JsVal) :
  EmbedExtractor.lookupTitle net data_id
    {| Async.sent := Async.sent rt;
       Async.logged :=
         (Async.logged rt
          ++ [(Async.Info,
               ("Searching for data_id: " ++ data_id ++ ", season: "
                ++ Num.to_string s ++ ", episode: " ++ Num.to_string e)%string)])%list |}
  = (Async.Return title, rt1) ->
  Js.truthy title = true ->
  More.is_text_value title = false ->
  let out := EmbedExtractor.getEmbedByDataIdAndEpisode baseUrl loadCheerio net
               data_id s e rt in
  fst out = Async.Throw (Js.TypeError "animeTitle.toLowerCase is not a function")
  /\ Async.sent (snd out) = (Async.sent rt ++ [EmbedExtractor.api_request []])%list.
Proof.
  intros Hlook Tr Nt. cbv zeta.
  destruct (DataIdFacts.getEmbedByDataIdAndEpisode_run baseUrl loadCheerio net
              data_id s e rt title rt1 Hlook) as [Hres Hsent].
  rewrite Tr in Hres, Hsent. rewrite Hres, Hsent.
  pose proof (DataIdMore.lookupTitle_sent net data_id
                {| Async.sent := Async.sent rt;
                   Async.logged :=
                     (Async.logged rt
                      ++ [(Async.Info,
                           ("Searching for data_id: " ++ data_id ++ ", season: "
                            ++ Num.to_string s ++ ", episode: "
                            ++ Num.to_string e)%string)])%list |}) as Hone.
  rewrite Hlook in Hone. cbn [snd Async.sent] in Hone.
  unfold EmbedExtractor.fetchByPatterns, EmbedExtractor.seriesPatternsFor.
  rewrite Tr. unfold Async.bind.
  destruct title; try discriminate Nt; cbn [fst snd Async.throw]; auto.
Qed.

Lemma title_that_is_not_a_text_stops_the_flow_witness :
  fst (EmbedExtractor.getEmbedByDataIdAndEpisode Examples.sample_base
         Examples.sample_loader
         (Examples.serving
            [("https://anime-api-two-pi.vercel.app/api",
              Js.VArr [Js.VObj [("data_id", Js.VStr "86");
                                ("title", Js.VNum (Num.JFin 86))]])]
            Examples.not_found)
         "86" (Num.JFin 1) (Num.JFin 1) Examples.fresh)
  = Async.Throw (Js.TypeError "animeTitle.toLowerCase is not a function").
Proof.
  refine (proj1 (title_that_is_not_a_text_stops_the_flow Examples.sample_base
                   Examples.sample_loader
                   (Examples.serving
                      [("https://anime-api-two-pi.vercel.app/api",
                        Js.VArr [Js.VObj [("data_id", Js.VStr "86");
                                          ("title", Js.VNum (Num.JFin 86))]])]
                      Examples.not_found)
                   "86" (Num.JFin 1) (Num.JFin 1) Examples.fresh
                   {| Async.sent := [EmbedExtractor.api_request []];
                      Async.logged :=
                        [ (Async.Info, "Searching for data_id: 86, season: 1, episode: 1");
                          (Async.Info, "Found anime from API: 86") ] |}
                   (Js.VNum (Num.JFin 86)) eq_refl eq_refl eq_refl)).
Defined.

(** The listing is read in order: the first entry whose [data_id],
    converted to a text, equals the id looked for decides the title, be
    that [data_id] a number or a text.  Its title is taken when it is
    truthy; otherwise the title stays null, whatever the later entries
    hold.  The title stays null as well when the [data_id] of that entry
    or of an entry before it cannot be converted to a text: the search
    then throws. *)
Theorem listing_gives_the_title_of_the_first_match
    (net : Async.Network) (data_id : string) (rt : Async.Runtime)
    (pre post : list Js.JsVal) (item v title : Js.JsVal) :
  Async.overdue net (Async.sent rt) (EmbedExtractor.api_request []) = false ->
  Async.settle net (Async.sent rt) (EmbedExtractor.api_request [])
  = Async.Resolved (Js.VArr (pre ++ item :: post)) ->
  Forall (fun x => exists w, Js.get_prop x "data_id" = Some w
                             /\ Js.to_String w <> data_id) pre ->
  Js.get_prop item "data_id" = Some v -> Js.to_String v = data_id ->
  Js.get_prop item "title" = Some title ->
  fst (EmbedExtractor.lookupTitle net data_id rt)
  = Async.Return
      (if forallb More.readable_data_id (pre ++ [item])
       then if Js.truthy item && Js.truthy title then title else Js.VNull
       else Js.VNull).
Proof.
  intros Hlate Hbody Hpre Hv Hs Ht.
  unfold EmbedExtractor.lookupTitle, Async.try_catch at 1, Async.bind at 1,
    Async.http_get_race.
  rewrite Hlate, (RetrievalFacts.http_get_resolved net _ _ _ Hbody).
  unfold Async.bind at 1, Async.lift.
  rewrite (DataIdMore.find_by_data_id_first_match pre item post data_id v Hpre Hv Hs).
  destruct (forallb More.readable_data_id (pre ++ [item])); [|reflexivity].
  destruct (Js.truthy item); [|reflexivity].
  unfold EmbedExtractor.prop. rewrite Ht.
  unfold Async.bind at 1, Async.ret at 1.
  destruct (Js.truthy title); [|reflexivity].
  unfold EmbedExtractor.convert. destruct (Js.String_of title); reflexivity.
Qed.

Lemma listing_gives_the_title_of_the_first_match_witness :
  fst (EmbedExtractor.lookupTitle
         (Examples.serving
            [("https://anime-api-two-pi.vercel.app/api",
              Js.VArr [ Js.VObj [("data_id", Js.VNum (Num.JFin 5)); ("title", Js.VStr "Bleach")];
                        More.spy_record;
                        Js.VObj [("data_id", Js.VStr "17977"); ("title", Js.VStr "Later")] ])]
            Examples.not_found)
         "17977" Examples.fresh)
  = Async.Return (Js.VStr "Spy x Family").
Proof.
  refine (listing_gives_the_title_of_the_first_match
            (Examples.serving
               [("https://anime-api-two-pi.vercel.app/api",
                 Js.VArr [ Js.VObj [("data_id", Js.VNum (Num.JFin 5));
                                    ("title", Js.VStr "Bleach")];
                           More.spy_record;
                           Js.VObj [("data_id", Js.VStr "17977");
                                    ("title", Js.VStr "Later")] ])]
               Examples.not_found)
            "17977" Examples.fresh
            [Js.VObj [("data_id", Js.VNum (Num.JFin 5)); ("title", Js.VStr "Bleach")]]
            [Js.VObj [("data_id", Js.VStr "17977"); ("title", Js.VStr "Later")]]
            More.spy_record (Js.VNum (Num.JFin 17977)) (Js.VStr "Spy x Family")
            eq_refl eq_refl _ eq_refl eq_refl eq_refl).
  constructor; [|constructor].
  exists (Js.VNum (Num.JFin 5)). split; [reflexivity | discriminate].
Defined.

(** Whatever the network answers, [getEmbedByDataIdAndEpisode] first
    requests the listing and then at most 29 pages: never more than 30
    requests in all. *)
Theorem data_id_flow_sends_at_most_thirty_requests
    (baseUrl : string) (loadCheerio : Js.JsVal -> EmbedExtractor.Document)
    (net : Async.Network) (data_id : string) (s e : Num.JsNum)
    (rt : Async.Runtime) :
  let out := EmbedExtractor.getEmbedByDataIdAndEpisode baseUrl loadCheerio net
               data_id s e rt in
  exists pages,
    Async.sent (snd out)
    = (Async.sent rt ++ EmbedExtractor.api_request [] :: pages)%list
    /\ (List.length pages <= 29)%nat.
Proof.
  cbv zeta.
  set (rt0 := {| Async.sent := Async.sent rt;
                 Async.logged :=
                   (Async.logged rt
                    ++ [(Async.Info,
                         ("Searching for data_id: " ++ data_id ++ ", season: "
                          ++ Num.to_string s ++ ", episode: "
                          ++ Num.to_string e)%string)])%list |}).
  destruct (DataIdFacts.lookupTitle_returns net data_id rt0) as (title & rt1 & Hlook).
  pose proof (DataIdMore.lookupTitle_sent net data_id rt0) as Hone.
  rewrite Hlook in Hone. cbn [snd Async.sent rt0] in Hone.
  destruct (DataIdFacts.getEmbedByDataIdAndEpisode_run baseUrl loadCheerio net
              data_id s e rt title rt1 Hlook) as [_ Hsent].
  rewrite Hsent. clear Hsent.
  destruct (Js.truthy title) eqn:Tr.
  - destruct (More.is_text_value title) eqn:Tx.
    + destruct title as [| | | |t| |]; try discriminate Tx.
      destruct (DataIdMore.fetchByPatterns_with baseUrl loadCheerio net data_id s e
                  (Js.VStr t) [EmbedExtractor.titleToSeriesId t] rt1)
        as (res & st & -> & Fsent & _).
      { intros st. unfold EmbedExtractor.seriesPatternsFor. rewrite Tr. reflexivity. }
      cbn [snd]. rewrite Fsent, Hone, <- app_assoc.
      eexists. split; [reflexivity|].
      etransitivity; [apply DataIdMore.first_success_length|]. cbn. lia.
    + exists []. split; [|cbn; lia].
      unfold EmbedExtractor.fetchByPatterns, EmbedExtractor.seriesPatternsFor.
      rewrite Tr. unfold Async.bind.
      destruct title; try discriminate Tx; cbn [snd Async.throw]; exact Hone.
  - match goal with
    | |- context [EmbedExtractor.fetchByPatterns _ _ _ _ _ _ _ ?st] =>
        destruct (DataIdMore.fetchByPatterns_with baseUrl loadCheerio net data_id s e
                    title EmbedExtractor.popularSeriesIds st)
          as (res & st' & -> & Fsent & _)
    end.
    { intros st. unfold EmbedExtractor.seriesPatternsFor. rewrite Tr. reflexivity. }
    cbn [snd]. rewrite Fsent. cbn [Async.sent]. rewrite Hone, <- app_assoc.
    eexists. split; [reflexivity|].
    etransitivity; [apply DataIdMore.first_success_length|]. cbn. lia.
Qed.

(* ================================================================== *)
(** * Retrieval by data id and season *)
(* ================================================================== *)

Module ByDataIdFacts.

Import Num Js Async EmbedExtractor Props More.
Local Open Scope async_scope.

Section Site.

Variable baseUrl : string.
Variable loadCheerio : JsVal -> Document.
Variable net : Network.

Lemma try_detail_urls_by_data_id_cons data_id s raw u r last rt :
  try_detail_urls_by_data_id loadCheerio net data_id s raw (u :: r) last rt =
  match settle net (sent rt) (page_request u) with
  | Resolved html =>
      (Return (inl (finishByDataId data_id s [("title", raw)]
                      (extract (loadCheerio html)))),
       record_request (page_request u) rt)
  | Rejected e =>
      try_detail_urls_by_data_id loadCheerio net data_id s raw r (Some e)
        (record_request (page_request u) rt)
  end.
Proof.
  cbn [try_detail_urls_by_data_id]. unfold try_catch, bind, http_get.
  destruct (settle net (sent rt) (page_request u)); reflexivity.
Qed.

(** The run of [getEmbedByDataId] in terms of what the handler of the
    inner [try] does. *)
Lemma getEmbedByDataId_direct data_id s rt html :
  settle net (sent rt) (page_request (dataIdUrl baseUrl data_id s)) = Resolved html ->
  getEmbedByDataId baseUrl loadCheerio net data_id s rt
  = (Return (finishByDataId data_id s [] (extract (loadCheerio html))),
     record_request (page_request (dataIdUrl baseUrl data_id s)) rt).
Proof.
  intros H. unfold getEmbedByDataId, try_catch, bind at 1.
  rewrite (RetrievalFacts.http_get_resolved net _ _ _ H). reflexivity.
Qed.

End Site.

End ByDataIdFacts.

(** When the page of the data id cannot be fetched and the search request
    fails as well, [getEmbedByDataId] throws the error of the search: the
    error of the page is lost. *)
Theorem search_error_replaces_page_error
    (baseUrl : string) (loadCheerio : Js.JsVal -> EmbedExtractor.Document)
    (net : Async.Network) (data_id : string) (s : Num.JsNum)
    (rt : Async.Runtime) (e1 e2 : Js.JsError) :
  let page := EmbedExtractor.page_request (EmbedExtractor.dataIdUrl baseUrl data_id s) in
  let search := EmbedExtractor.api_request [("id", data_id)] in
  Async.settle net (Async.sent rt) page = Async.Rejected e1 ->
  Async.settle net (Async.sent rt ++ [page]) search = Async.Rejected e2 ->
  EmbedExtractor.getEmbedByDataId baseUrl loadCheerio net data_id s rt
  = (Async.Throw e2,
     {| Async.sent := (Async.sent rt ++ [page; search])%list;
        Async.logged :=
          (Async.logged rt
           ++ [ (Async.Info,
                 ("Could not fetch using data_id URL, trying search: " ++ data_id)%string);
                (Async.LogError,
                 ("Error getting embed by data_id: " ++ Js.message e2)%string) ])%list |}).
Proof.
  intros page search H1 H2.
  unfold EmbedExtractor.getEmbedByDataId, Async.try_catch, Async.bind at 1.
  fold page. rewrite (RetrievalFacts.http_get_rejected net _ _ _ H1).
  unfold Async.bind at 1, Async.log at 1. unfold Async.bind at 1, Async.http_get at 1.
  cbn [Async.sent Async.logged Async.record_request]. fold search. rewrite H2.
  unfold Async.bind, Async.log, Async.throw, Async.record_request.
  cbn [Async.sent Async.logged]. now rewrite <- !app_assoc.
Qed.

Lemma search_error_replaces_page_error_witness :
  fst (EmbedExtractor.getEmbedByDataId Examples.sample_base Examples.sample_loader
         {| Async.settle := fun _ req =>
              if String.eqb (Async.req_url req) EmbedExtractor.apiUrl
              then Async.Rejected Examples.timed_out
              else Async.Rejected Examples.not_found;
            Async.overdue := fun _ _ => false |}
         "17977" (Num.JFin 3) Examples.fresh)
  = Async.Throw Examples.timed_out.
Proof.
  rewrite (search_error_replaces_page_error Examples.sample_base Examples.sample_loader
             {| Async.settle := fun _ req =>
                  if String.eqb (Async.req_url req) EmbedExtractor.apiUrl
                  then Async.Rejected Examples.timed_out
                  else Async.Rejected Examples.not_found;
                Async.overdue := fun _ _ => false |}
             "17977" (Num.JFin 3) Examples.fresh Examples.not_found Examples.timed_out
             eq_refl eq_refl).
  reflexivity.
Defined.

(** When the page of the data id cannot be fetched and the search gives
    nothing (a falsy response, or one whose [length], converted to a
    number, is not above zero), [getEmbedByDataId] throws the error of the
    page, after these two requests. *)
Theorem empty_search_rethrows_page_error
    (baseUrl : string) (loadCheerio : Js.JsVal -> EmbedExtractor.Document)
    (net : Async.Network) (data_id : string) (s : Num.JsNum)
    (rt : Async.Runtime) (e1 : Js.JsError) (response : Js.JsVal) :
  let page := EmbedExtractor.page_request (EmbedExtractor.dataIdUrl baseUrl data_id s) in
  let search := EmbedExtractor.api_request [("id", data_id)] in
  Async.settle net (Async.sent rt) page = Async.Rejected e1 ->
  Async.settle net (Async.sent rt ++ [page]) search = Async.Resolved response ->
  Js.truthy response = false
  \/ (exists len, Js.get_prop response "length" = Some len
                  /\ Js.gt_zero len = Some false) ->
  EmbedExtractor.getEmbedByDataId baseUrl loadCheerio net data_id s rt
  = (Async.Throw e1,
     {| Async.sent := (Async.sent rt ++ [page; search])%list;
        Async.logged :=
          (Async.logged rt
           ++ [ (Async.Info,
                 ("Could not fetch using data_id URL, trying search: " ++ data_id)%string);
                (Async.LogError,
                 ("Error getting embed by data_id: " ++ Js.message e1)%string) ])%list |}).
Proof.
  intros page search H1 H2 Hnone.
  unfold EmbedExtractor.getEmbedByDataId, Async.try_catch, Async.bind at 1.
  fold page. rewrite (RetrievalFacts.http_get_rejected net _ _ _ H1).
  unfold Async.bind at 1, Async.log at 1. unfold Async.bind at 1, Async.http_get at 1.
  cbn [Async.sent Async.logged Async.record_request]. fold search. rewrite H2.
  assert (Done : forall (st : Async.Runtime),
            Async.sent st = ((Async.sent rt ++ [page]) ++ [search])%list ->
            Async.logged st
            = (Async.logged rt
               ++ [(Async.Info,
                    ("Could not fetch using data_id URL, trying search: "
                     ++ data_id)%string)])%list ->
            (Async.Throw e1 : Async.Completion EmbedExtractor.EmbedData,
             {| Async.sent := Async.sent st;
                Async.logged :=
                  (Async.logged st
                   ++ [(Async.LogError,
                        ("Error getting embed by data_id: " ++ Js.message e1)%string)])%list |})
            = (Async.Throw e1,
               {| Async.sent := (Async.sent rt ++ [page; search])%list;
                  Async.logged :=
                    (Async.logged rt
                     ++ [ (Async.Info,
                           ("Could not fetch using data_id URL, trying search: "
                            ++ data_id)%string);
                          (Async.LogError,
                           ("Error getting embed by data_id: "
                            ++ Js.message e1)%string) ])%list |})).
  { intros st -> ->. now rewrite <- !app_assoc. }
  unfold Async.bind at 1.
  destruct Hnone as [Hf|(len & Hlen & Hgt)].
  - rewrite Hf. apply Done; reflexivity.
  - destruct (Js.truthy response); [|apply Done; reflexivity].
    unfold EmbedExtractor.prop at 1. rewrite Hlen.
    unfold Async.bind at 1, Async.ret at 1. rewrite Hgt.
    unfold EmbedExtractor.convert, Async.bind at 1, Async.ret at 1.
    apply Done; reflexivity.
Qed.

Lemma empty_search_rethrows_page_error_witness :
  fst (EmbedExtractor.getEmbedByDataId Examples.sample_base Examples.sample_loader
         (Examples.serving
            [("https://anime-api-two-pi.vercel.app/api", Js.VArr [])]
            Examples.not_found)
         "17977" (Num.JFin 3) Examples.fresh)
  = Async.Throw Examples.not_found.
Proof.
  rewrite (empty_search_rethrows_page_error Examples.sample_base Examples.sample_loader
             (Examples.serving
                [("https://anime-api-two-pi.vercel.app/api", Js.VArr [])]
                Examples.not_found)
             "17977" (Num.JFin 3) Examples.fresh Examples.not_found (Js.VArr [])
             eq_refl eq_refl
             (or_intror (ex_intro _ (Js.VNum (Num.JFin 0)) (conj eq_refl eq_refl)))).
  reflexivity.
Defined.

(** When the page of the data id cannot be fetched and the search answers
    with an array whose first element is an object with a text as title
    (or no title, read as the empty text), [getEmbedByDataId] requests the
    series page and then the movie page of the series identifier of that
    title, and returns the first one fetched, with the title in the
    mapping.  When both fail it throws the error of the movie page, not
    the one of the first page. *)
Theorem search_title_leads_to_detail_pages
    (baseUrl : string) (loadCheerio : Js.JsVal -> EmbedExtractor.Document)
    (net : Async.Network) (data_id : string) (s : Num.JsNum)
    (rt : Async.Runtime) (e1 : Js.JsError)
    (fields : list (string * Js.JsVal)) (others : list Js.JsVal) (t : string) :
  let page := EmbedExtractor.page_request (EmbedExtractor.dataIdUrl baseUrl data_id s) in
  let search := EmbedExtractor.api_request [("id", data_id)] in
  let seriesId := EmbedExtractor.titleToSeriesIdByDataId t in
  let sr := EmbedExtractor.page_request (EmbedExtractor.seriesUrl baseUrl seriesId) in
  let mv := EmbedExtractor.page_request (EmbedExtractor.moviesUrl baseUrl seriesId) in
  let note := (Async.Info,
               "Could not fetch using data_id URL, trying search: " ++ data_id) in
  let data_of html :=
    EmbedExtractor.finishByDataId data_id s [("title", More.field "title" fields)]
      (EmbedExtractor.extract (loadCheerio html)) in
  Async.settle net (Async.sent rt) page = Async.Rejected e1 ->
  Async.settle net (Async.sent rt ++ [page]) search
  = Async.Resolved (Js.VArr (Js.VObj fields :: others)) ->
  Js.or_else (More.field "title" fields) (Js.VStr "") = Js.VStr t ->
  EmbedExtractor.getEmbedByDataId baseUrl loadCheerio net data_id s rt
  = match Async.settle net (Async.sent rt ++ [page; search]) sr with
    | Async.Resolved html =>
        (Async.Return (data_of html),
         {| Async.sent := (Async.sent rt ++ [page; search; sr])%list;
            Async.logged := (Async.logged rt ++ [note])%list |})
    | Async.Rejected _ =>
        match Async.settle net (Async.sent rt ++ [page; search; sr]) mv with
        | Async.Resolved html =>
            (Async.Return (data_of html),
             {| Async.sent := (Async.sent rt ++ [page; search; sr; mv])%list;
                Async.logged := (Async.logged rt ++ [note])%list |})
        | Async.Rejected e3 =>
            (Async.Throw e3,
             {| Async.sent := (Async.sent rt ++ [page; search; sr; mv])%list;
                Async.logged :=
                  (Async.logged rt
                   ++ [ note;
                        (Async.LogError,
                         ("Error getting embed by data_id: "
                          ++ Js.message e3)%string) ])%list |})
        end
    end.
Proof.
  intros page search seriesId sr mv note data_of H1 H2 Ht.
  unfold EmbedExtractor.getEmbedByDataId, Async.try_catch, Async.bind at 1.
  fold page. rewrite (RetrievalFacts.http_get_rejected net _ _ _ H1).
  unfold Async.bind at 1, Async.log at 1. unfold Async.bind at 1, Async.http_get at 1.
  cbn [Async.sent Async.logged Async.record_request]. fold search note. rewrite H2.
  unfold Async.bind at 1. cbn [Js.truthy].
  unfold EmbedExtractor.prop at 1. cbn [Js.get_prop String.eqb Ascii.eqb Bool.eqb].
  unfold Async.bind at 1, Async.ret at 1.
  replace (Js.gt_zero (Js.VNum (Num.JFin (Z.of_nat (List.length (Js.VObj fields :: others))))))
    with (Some true) by reflexivity.
  unfold EmbedExtractor.convert, Async.bind at 1, Async.ret at 1.
  unfold EmbedExtractor.prop at 1.
  replace (Js.get_prop (Js.VArr (Js.VObj fields :: others)) "0")
    with (Some (Js.VObj fields)) by reflexivity.
  unfold Async.bind at 1, Async.ret at 1.
  unfold EmbedExtractor.prop at 1. rewrite RetrievalMore.get_prop_object.
  unfold Async.bind at 1, Async.ret at 1. rewrite Ht. fold seriesId.
  unfold Async.bind at 1.
  rewrite ByDataIdFacts.try_detail_urls_by_data_id_cons.
  cbn [Async.sent Async.logged Async.record_request]. fold sr.
  rewrite <- !app_assoc. cbn [app].
  destruct (Async.settle net (Async.sent rt ++ [page; search]) sr) as [html|e2].
  - unfold Async.ret, Async.bind, Async.record_request.
    cbn [Async.sent Async.logged]. now rewrite <- !app_assoc.
  - rewrite ByDataIdFacts.try_detail_urls_by_data_id_cons.
    unfold Async.record_request at 1 2. cbn [Async.sent Async.logged]. fold mv.
    rewrite <- !app_assoc. cbn [app].
    destruct (Async.settle net (Async.sent rt ++ [page; search; sr]) mv) as [html|e3].
    + unfold Async.ret, Async.bind, Async.record_request.
      cbn [Async.sent Async.logged]. now rewrite <- !app_assoc.
    + cbn [EmbedExtractor.try_detail_urls_by_data_id].
      unfold Async.ret, Async.bind, Async.throw, Async.log, Async.record_request.
      cbn [Async.sent Async.logged]. now rewrite <- !app_assoc.
Qed.

Lemma search_title_leads_to_detail_pages_witness :
  EmbedExtractor.getEmbedByDataId Examples.sample_base Examples.sample_loader
    (Examples.serving
       [ ("https://anime-api-two-pi.vercel.app/api",
          Js.VArr [Js.VObj [("id", Js.VStr "untitled-1")]]);
         ("https://watchanimeworld.in/movies//", Js.VStr "movie page") ]
       Examples.not_found)
    "1" (Num.JFin 2) Examples.fresh
  = (Async.Return
       (EmbedExtractor.finishByDataId "1" (Num.JFin 2) [("title", Js.VUndef)]
          (EmbedExtractor.extract Examples.sample_document)),
     {| Async.sent :=
          [ EmbedExtractor.page_request
              "https://watchanimeworld.in/episode/?data_id=1&season=2";
            EmbedExtractor.api_request [("id", "1")];
            EmbedExtractor.page_request "https://watchanimeworld.in/series//";
            EmbedExtractor.page_request "https://watchanimeworld.in/movies//" ];
        Async.logged :=
          [(Async.Info, "Could not fetch using data_id URL, trying search: 1")] |}).
Proof.
  rewrite (search_title_leads_to_detail_pages Examples.sample_base Examples.sample_loader
             (Examples.serving
                [ ("https://anime-api-two-pi.vercel.app/api",
                   Js.VArr [Js.VObj [("id", Js.VStr "untitled-1")]]);
                  ("https://watchanimeworld.in/movies//", Js.VStr "movie page") ]
                Examples.not_found)
             "1" (Num.JFin 2) Examples.fresh Examples.not_found
             [("id", Js.VStr "untitled-1")] [] "" eq_refl eq_refl eq_refl).
  reflexivity.
Defined.

(** Every result of [getEmbedByDataId] has the id
    ["<dataId>-season-<season>"] and a mapping that starts with [dataId]
    and [season]; and the method sends at most four requests, the first
    one for the page of the data id. *)
Theorem getEmbedByDataId_result_and_requests
    (baseUrl : string) (loadCheerio : Js.JsVal -> EmbedExtractor.Document)
    (net : Async.Network) (data_id : string) (s : Num.JsNum) (rt : Async.Runtime) :
  let out := EmbedExtractor.getEmbedByDataId baseUrl loadCheerio net data_id s rt in
  (forall d, fst out = Async.Return d ->
     EmbedExtractor.id d = data_id ++ "-season-" ++ Num.to_string s
     /\ exists extra,
          EmbedExtractor.externalApiMapping d
          = Some (("dataId", Js.VStr data_id) :: ("season", Js.VNum s) :: extra))
  /\ exists reqs,
       Async.sent (snd out)
       = (Async.sent rt
          ++ EmbedExtractor.page_request (EmbedExtractor.dataIdUrl baseUrl data_id s)
             :: reqs)%list
       /\ (List.length reqs <= 3)%nat.
Proof.
  cbv zeta.
  enough (Hrun : exists c st,
            EmbedExtractor.getEmbedByDataId baseUrl loadCheerio net data_id s rt = (c, st)
            /\ (forall d, c = Async.Return d ->
                  EmbedExtractor.id d = data_id ++ "-season-" ++ Num.to_string s
                  /\ exists extra,
                       EmbedExtractor.externalApiMapping d
                       = Some (("dataId", Js.VStr data_id) :: ("season", Js.VNum s) :: extra))
            /\ exists reqs,
                 Async.sent st
                 = (Async.sent rt
                    ++ EmbedExtractor.page_request
                         (EmbedExtractor.dataIdUrl baseUrl data_id s) :: reqs)%list
                 /\ (List.length reqs <= 3)%nat).
  { destruct Hrun as (c & st & -> & H1 & H2). cbn [fst snd]. auto. }
  unfold EmbedExtractor.getEmbedByDataId.
  cbv [Async.try_catch Async.bind Async.ret Async.throw Async.log Async.http_get
       EmbedExtractor.prop EmbedExtractor.convert Async.record_request
       EmbedExtractor.try_detail_urls_by_data_id Async.sent Async.logged].
  repeat match goal with
         | |- context [match ?x with _ => _ end] =>
             lazymatch x with
             | context [match _ with _ => _ end] => fail
             | _ => destruct x
             end
         end.
  all: eexists; eexists; (split; [reflexivity|]).
  all: split;
    [ intros d Hd; inversion Hd; subst; cbn; eauto
    | eexists; split; [rewrite <- ?app_assoc; cbn [app]; reflexivity | cbn; lia] ].
Qed.

(* ================================================================== *)
(** * The controller *)
(* ================================================================== *)

(** Without an id ([undefined] or the empty text) the callback of
    [getEmbed] sends no request.  The error for the missing parameter is
    thrown inside the [try], so it is caught, logged and wrapped like an
    extraction failure. *)
Theorem missing_id_is_reported_as_extraction_failure
    (baseUrl : string) (loadCheerio : Js.JsVal -> EmbedExtractor.Document)
    (net : Async.Network) (BadRequestError : string -> Js.JsError)
    (id : option string) (rt : Async.Runtime) :
  (forall m, Js.message (BadRequestError m) = m) ->
  id = None \/ id = Some "" ->
  EmbedController.getEmbed baseUrl loadCheerio net BadRequestError id rt
  = (Async.Throw
       (BadRequestError "Failed to extract embed data: ID parameter is required"),
     {| Async.sent := Async.sent rt;
        Async.logged :=
          (Async.logged rt ++ [(Async.LogError, "Error extracting embed data")])%list |}).
Proof.
  intros Hmsg [->| ->];
    unfold EmbedController.getEmbed, Async.try_catch, Async.throw, Async.bind, Async.log;
    now rewrite Hmsg.
Qed.

Lemma missing_id_is_reported_as_extraction_failure_witness :
  EmbedController.getEmbed Examples.sample_base Examples.sample_loader
    (Examples.serving [] Examples.not_found) More.bad_request (Some "") Examples.fresh
  = (Async.Throw
       (More.bad_request "Failed to extract embed data: ID parameter is required"),
     {| Async.sent := [];
        Async.logged := [(Async.LogError, "Error extracting embed data")] |}).
Proof.
  apply (missing_id_is_reported_as_extraction_failure Examples.sample_base
           Examples.sample_loader (Examples.serving [] Examples.not_found)
           More.bad_request (Some "") Examples.fresh);
    [intros m; reflexivity | right; reflexivity].
Defined.

(** With an id, the callback of [getEmbed] answers with status 200 and
    the data of [getEmbedWithMapping] for that id; an error of the
    extractor is replaced by a [BadRequestError] whose message is
    "Failed to extract embed data: " followed by the message of that
    error.  The requests are those of [getEmbedWithMapping]. *)
Theorem getEmbed_wraps_the_extractor
    (baseUrl : string) (loadCheerio : Js.JsVal -> EmbedExtractor.Document)
    (net : Async.Network) (BadRequestError : string -> Js.JsError)
    (i : string) (rt : Async.Runtime) :
  i <> "" ->
  let inner := EmbedExtractor.getEmbedWithMapping baseUrl loadCheerio net i rt in
  let out := EmbedController.getEmbed baseUrl loadCheerio net BadRequestError (Some i) rt in
  fst out
  = match fst inner with
    | Async.Return data =>
        Async.Return {| EmbedController.statusCode := 200;
                        EmbedController.body := data |}
    | Async.Throw err =>
        Async.Throw
          (BadRequestError ("Failed to extract embed data: " ++ Js.message err))
    end
  /\ Async.sent (snd out) = Async.sent (snd inner).
Proof.
  intros Hi. cbv zeta. destruct i as [|c r]; [congruence|].
  destruct (EmbedExtractor.getEmbedWithMapping baseUrl loadCheerio net (String c r) rt)
    as [[data|err] st] eqn:R; cbn [fst snd];
    unfold EmbedController.getEmbed, Async.try_catch, Async.bind;
    rewrite R; split; reflexivity.
Qed.

Lemma getEmbed_wraps_the_extractor_witness :
  fst (EmbedController.getEmbed Examples.sample_base Examples.sample_loader
         (Examples.serving [] Examples.timed_out) More.bad_request
         (Some "spy-x-family-3x1") Examples.fresh)
  = Async.Throw
      (More.bad_request "Failed to extract embed data: timeout of 10000ms exceeded").
Proof.
  refine (eq_trans
            (proj1 (getEmbed_wraps_the_extractor Examples.sample_base
                      Examples.sample_loader (Examples.serving [] Examples.timed_out)
                      More.bad_request "spy-x-family-3x1" Examples.fresh _))
            eq_refl).
  discriminate.
Defined.

(** When one of [dataId], [season], [episode] is missing or empty, the
    callback of [getEmbedByDataIdAndEpisode] sends no request and throws a
    [BadRequestError] that wraps the message about the parameters. *)
Theorem missing_parameter_is_reported_as_extraction_failure
    (baseUrl : string) (loadCheerio : Js.JsVal -> EmbedExtractor.Document)
    (net : Async.Network) (BadRequestError : string -> Js.JsError)
    (dataId season episode : option string) (rt : Async.Runtime) :
  (forall m, Js.message (BadRequestError m) = m) ->
  (dataId = None \/ dataId = Some "")
  \/ (season = None \/ season = Some "")
  \/ (episode = None \/ episode = Some "") ->
  EmbedController.getEmbedByDataIdAndEpisode baseUrl loadCheerio net BadRequestError
    dataId season episode rt
  = (Async.Throw
       (BadRequestError
          "Failed to extract embed data: dataId, season, and episode parameters are required"),
     {| Async.sent := Async.sent rt;
        Async.logged :=
          (Async.logged rt
           ++ [(Async.LogError,
                "Error extracting embed data by data_id and episode")])%list |}).
Proof.
  intros Hmsg H.
  assert (Run : (Async.throw
                   (BadRequestError "dataId, season, and episode parameters are required")
                 : Async.M EmbedController.Reply) rt
                = (Async.Throw
                     (BadRequestError
                        "dataId, season, and episode parameters are required"), rt))
    by reflexivity.
  unfold EmbedController.getEmbedByDataIdAndEpisode, Async.try_catch.
  destruct dataId as [[|c1 r1]|], season as [[|c2 r2]|], episode as [[|c3 r3]|];
    try (rewrite Run; unfold Async.bind, Async.log, Async.throw; now rewrite Hmsg).
  exfalso. destruct H as [[H|H]|[[H|H]|[H|H]]]; discriminate H.
Qed.

Lemma missing_parameter_is_reported_as_extraction_failure_witness :
  fst (EmbedController.getEmbedByDataIdAndEpisode Examples.sample_base
         Examples.sample_loader (Examples.serving [] Examples.not_found)
         More.bad_request (Some "17977") None (Some "1") Examples.fresh)
  = Async.Throw
      (More.bad_request
         "Failed to extract embed data: dataId, season, and episode parameters are required").
Proof.
  rewrite (missing_parameter_is_reported_as_extraction_failure Examples.sample_base
             Examples.sample_loader (Examples.serving [] Examples.not_found)
             More.bad_request (Some "17977") None (Some "1") Examples.fresh
             (fun m => eq_refl) (or_intror (or_introl (or_introl eq_refl)))).
  reflexivity.
Defined.

(** With the three parameters present, the callback calls the extractor
    with the data id as it is and with [parseInt] of the season and of the
    episode.  Only presence is checked: a season that is no number reaches
    the extractor as NaN.  The reply is status 200 with the extractor's
    data, or a [BadRequestError] wrapping the extractor's message. *)
Theorem controller_passes_parsed_numbers
    (baseUrl : string) (loadCheerio : Js.JsVal -> EmbedExtractor.Document)
    (net : Async.Network) (BadRequestError : string -> Js.JsError)
    (dataId season episode : string) (rt : Async.Runtime) :
  dataId <> "" -> season <> "" -> episode <> "" ->
  let inner := EmbedExtractor.getEmbedByDataIdAndEpisode baseUrl loadCheerio net
                 dataId (Num.parseInt10 season) (Num.parseInt10 episode) rt in
  let out := EmbedController.getEmbedByDataIdAndEpisode baseUrl loadCheerio net
               BadRequestError (Some dataId) (Some season) (Some episode) rt in
  fst out
  = match fst inner with
    | Async.Return data =>
        Async.Return {| EmbedController.statusCode := 200;
                        EmbedController.body := data |}
    | Async.Throw err =>
        Async.Throw
          (BadRequestError ("Failed to extract embed data: " ++ Js.message err))
    end
  /\ Async.sent (snd out) = Async.sent (snd inner).
Proof.
  intros Hd Hs He. cbv zeta.
  destruct dataId as [|c1 r1]; [congruence|].
  destruct season as [|c2 r2]; [congruence|].
  destruct episode as [|c3 r3]; [congruence|].
  destruct (EmbedExtractor.getEmbedByDataIdAndEpisode baseUrl loadCheerio net
              (String c1 r1) (Num.parseInt10 (String c2 r2))
              (Num.parseInt10 (String c3 r3)) rt)
    as [[data|err] st] eqn:R; cbn [fst snd];
    unfold EmbedController.getEmbedByDataIdAndEpisode, Async.try_catch, Async.bind;
    rewrite R; split; reflexivity.
Qed.

Lemma controller_passes_parsed_numbers_witness :
  List.map Async.req_url
    (firstn 2
       (Async.sent
          (snd (EmbedController.getEmbedByDataIdAndEpisode Examples.sample_base
                  Examples.sample_loader (Examples.serving [] Examples.not_found)
                  More.bad_request (Some "17977") (Some "two") (Some "07")
                  Examples.fresh))))
  = [ "https://anime-api-two-pi.vercel.app/api";
      "https://watchanimeworld.in/episode/one-punch-man-NaNx7/" ].
Proof.
  assert (Hsent := proj2 (controller_passes_parsed_numbers Examples.sample_base
                           Examples.sample_loader
                           (Examples.serving [] Examples.not_found)
                           More.bad_request "17977" "two" "07" Examples.fresh
                           ltac:(discriminate) ltac:(discriminate) ltac:(discriminate))).
  etransitivity;
    [exact (f_equal (fun l => List.map Async.req_url (firstn 2 l)) Hsent)|].
  vm_compute. reflexivity.
Defined.

(* ================================================================== *)
(** * Further properties of the flow by data id, season and episode *)
(* ================================================================== *)

Module ListingMore.

Import Num Js Async EmbedExtractor.

Lemma find_by_data_id_stops_at_null pre item post data_id :
  Forall (fun x => exists w, get_prop x "data_id" = Some w
                             /\ to_String w <> data_id) pre ->
  item = VNull \/ item = VUndef ->
  exists err, find_by_data_id (pre ++ item :: post) data_id = Throw err.
Proof.
  intros Hpre Hitem. induction Hpre as [|x pre (w & Hw & Hne) _ IH];
    cbn [app find_by_data_id].
  - destruct Hitem as [->| ->]; cbn [get_prop]; eauto.
  - rewrite Hw. unfold String_of. destruct (convertible w); [|eauto].
    apply String.eqb_neq in Hne. now rewrite Hne.
Qed.

End ListingMore.

(** A null or undefined entry of the listing that comes before any
    matching entry makes the search fail; the failure is caught and the
    title stays null, whatever the later entries hold. *)
Theorem null_entry_hides_later_matches
    (net : Async.Network) (data_id : string) (rt : Async.Runtime)
    (pre post : list Js.JsVal) (item : Js.JsVal) :
  Async.overdue net (Async.sent rt) (EmbedExtractor.api_request []) = false ->
  Async.settle net (Async.sent rt) (EmbedExtractor.api_request [])
  = Async.Resolved (Js.VArr (pre ++ item :: post)) ->
  Forall (fun x => exists w, Js.get_prop x "data_id" = Some w
                             /\ Js.to_String w <> data_id) pre ->
  item = Js.VNull \/ item = Js.VUndef ->
  fst (EmbedExtractor.lookupTitle net data_id rt) = Async.Return Js.VNull.
Proof.
  intros Hlate Hbody Hpre Hitem.
  destruct (ListingMore.find_by_data_id_stops_at_null pre item post data_id Hpre Hitem)
    as [err Herr].
  unfold EmbedExtractor.lookupTitle, Async.try_catch, Async.bind at 1,
    Async.http_get_race.
  rewrite Hlate, (RetrievalFacts.http_get_resolved net _ _ _ Hbody).
  unfold Async.bind at 1, Async.lift. rewrite Herr. reflexivity.
Qed.

Lemma null_entry_hides_later_matches_witness :
  fst (EmbedExtractor.lookupTitle
         (Examples.serving
            [("https://anime-api-two-pi.vercel.app/api",
              Js.VArr [Js.VNull; More.spy_record])]
            Examples.not_found)
         "17977" Examples.fresh)
  = Async.Return Js.VNull.
Proof.
  exact (null_entry_hides_later_matches
           (Examples.serving
              [("https://anime-api-two-pi.vercel.app/api",
                Js.VArr [Js.VNull; More.spy_record])]
              Examples.not_found)
           "17977" Examples.fresh [] [More.spy_record] Js.VNull
           eq_refl eq_refl (Forall_nil _) (or_introl eq_refl)).
Defined.

(** Every result of [getEmbedByDataIdAndEpisode] has the id
    ["<dataId>/<season>/<episode>"] and a mapping with the fields
    [dataId], [season], [episode], [title] and [constructedId], in this
    order, whichever page it was read from. *)
Theorem data_id_flow_result_shape
    (baseUrl : string) (loadCheerio : Js.JsVal -> EmbedExtractor.Document)
    (net : Async.Network) (data_id : string) (s e : Num.JsNum)
    (rt : Async.Runtime) (d : EmbedExtractor.EmbedData) :
  fst (EmbedExtractor.getEmbedByDataIdAndEpisode baseUrl loadCheerio net data_id s e rt)
  = Async.Return d ->
  EmbedExtractor.id d = data_id ++ "/" ++ Num.to_string s ++ "/" ++ Num.to_string e
  /\ exists m,
       EmbedExtractor.externalApiMapping d = Some m
       /\ List.map fst m = ["dataId"; "season"; "episode"; "title"; "constructedId"]
       /\ Js.lookup "dataId" m = Some (Js.VStr data_id)
       /\ Js.lookup "season" m = Some (Js.VNum s)
       /\ Js.lookup "episode" m = Some (Js.VNum e).
Proof.
  set (rt0 := {| Async.sent := Async.sent rt;
                 Async.logged :=
                   (Async.logged rt
                    ++ [(Async.Info,
                         ("Searching for data_id: " ++ data_id ++ ", season: "
                          ++ Num.to_string s ++ ", episode: "
                          ++ Num.to_string e)%string)])%list |}).
  destruct (DataIdFacts.lookupTitle_returns net data_id rt0) as (title & rt1 & Hlook).
  destruct (DataIdFacts.getEmbedByDataIdAndEpisode_run baseUrl loadCheerio net
              data_id s e rt title rt1 Hlook) as [Hres _].
  rewrite Hres. clear Hres.
  assert (Shape : forall cid html,
            Async.Return (EmbedExtractor.finish data_id s e title cid
                            (EmbedExtractor.extract (loadCheerio html)))
            = Async.Return d ->
            EmbedExtractor.id d
            = data_id ++ "/" ++ Num.to_string s ++ "/" ++ Num.to_string e
            /\ exists m,
                 EmbedExtractor.externalApiMapping d = Some m
                 /\ List.map fst m
                    = ["dataId"; "season"; "episode"; "title"; "constructedId"]
                 /\ Js.lookup "dataId" m = Some (Js.VStr data_id)
                 /\ Js.lookup "season" m = Some (Js.VNum s)
                 /\ Js.lookup "episode" m = Some (Js.VNum e)).
  { intros cid html [= <-]. split; [reflexivity|].
    eexists. split; [reflexivity|]. repeat split. }
  destruct (Js.truthy title) eqn:Tr.
  - destruct title as [| | | |t| |];
      try (unfold EmbedExtractor.fetchByPatterns, EmbedExtractor.seriesPatternsFor;
           rewrite Tr; unfold Async.bind; cbn [fst Async.throw]; discriminate).
    destruct (DataIdMore.fetchByPatterns_with baseUrl loadCheerio net data_id s e
                (Js.VStr t) [EmbedExtractor.titleToSeriesId t] rt1)
      as (res & st & -> & _ & ->).
    { intros st. unfold EmbedExtractor.seriesPatternsFor. rewrite Tr. reflexivity. }
    cbn [fst]. destruct (snd (Props.first_success _ _ _)); [apply Shape | discriminate].
  - match goal with
    | |- context [EmbedExtractor.fetchByPatterns _ _ _ _ _ _ _ ?st] =>
        destruct (DataIdMore.fetchByPatterns_with baseUrl loadCheerio net data_id s e
                    title EmbedExtractor.popularSeriesIds st)
          as (res & st' & -> & _ & ->)
    end.
    { intros st. unfold EmbedExtractor.seriesPatternsFor. rewrite Tr. reflexivity. }
    cbn [fst]. destruct (snd (Props.first_success _ _ _)); [apply Shape | discriminate].
Qed.

Lemma data_id_flow_result_shape_witness :
  exists d,
    fst (EmbedExtractor.getEmbedByDataIdAndEpisode Examples.sample_base
           Examples.sample_loader
           (Examples.serving
              [("https://watchanimeworld.in/series/bleach/", Js.VStr "series page")]
              Examples.not_found)
           "269" (Num.JFin 1) (Num.JFin 4) Examples.fresh)
    = Async.Return d
    /\ EmbedExtractor.id d = "269/1/4".
Proof.
  eexists. split; [vm_compute; reflexivity|].
  refine (eq_trans
            (proj1 (data_id_flow_result_shape Examples.sample_base
                      Examples.sample_loader
                      (Examples.serving
                         [("https://watchanimeworld.in/series/bleach/",
                           Js.VStr "series page")]
                         Examples.not_found)
                      "269" (Num.JFin 1) (Num.JFin 4) Examples.fresh _ _))
            eq_refl).
  vm_compute. reflexivity.
Defined.

Lemma series_id_is_a_prefix_witness :
  EmbedExtractor.getSeriesIdFromEpisodeId "demon-slayer-4x8" <> "".
Proof.
  apply (proj1 (proj2 (series_id_is_a_prefix "demon-slayer-4x8"))). discriminate.
Defined.

